(** * Bounty validation schemas (packages/react-app/src/models/Bounty.ts)

    Bounty.ts declares the validators of a bounty with the yup schema builder
    (release 0.32: [when] callbacks take the context value and the schema).
    The development has three layers:

    - [JS]: the JavaScript values a request body can hold, with the
      primitive notions the source relies on (truthiness, property access,
      [===] against a number);
    - [Yup]: the part of the schema builder the source calls -- the builders,
      [resolve] of [when] conditions, [cast] and [validate];
    - the declarations of Bounty.ts themselves, under their own names.

    Numbers are IEEE-754 doubles, as in JavaScript: Rocq's primitive floats.

    What the source file leaves to its callers is a parameter here:

    - the [$method] of the validation context ([POST] for Create, [PATCH] for
      Update);
    - [strict]: yup casts a value before it validates it unless it is told
      [strict: true].  The cast is what applies defaults and what drops
      unknown keys;
    - the host's string conversions, which only the cast of a mistyped value
      calls.

    Validation is modelled with [abortEarly: false], so that every failed test
    is in the result; with [abortEarly: true] yup rejects with one of them, and
    accepts exactly the same values. *)

From Stdlib Require Import List String Ascii Bool Arith ZArith Lia.
From Stdlib Require Import Floats.
Import ListNotations.

Local Open Scope string_scope.
Local Open Scope list_scope.

(* ================================================================= *)
(** ** JavaScript values *)

Module JS.

#[local] Unset Elimination Schemes.

Inductive value : Type :=
| VUndefined
| VNull
| VBool (b : bool)
| VNum (n : float)
| VStr (s : string)
| VObj (props : list (string * value))
| VArr (items : list value).

#[local] Set Elimination Schemes.

(** An object is an association list in insertion order; the first binding of
    a key is the one property access sees. *)
Fixpoint lookup {A : Type} (k : string) (kvs : list (string * A)) : option A :=
  match kvs with
  | [] => None
  | (k', x) :: rest => if String.eqb k k' then Some x else lookup k rest
  end.

Definition mem (k : string) (ks : list string) : bool :=
  existsb (String.eqb k) ks.

(** [v[k]] for the keys the source reads (none of them is a property of a
    built-in prototype, so only own properties of objects answer). *)
Definition get_prop (v : value) (k : string) : value :=
  match v with
  | VObj props => match lookup k props with Some x => x | None => VUndefined end
  | _ => VUndefined
  end.

(** [Object.keys(v)] *)
Definition own_keys (v : value) : list string :=
  match v with
  | VObj props => nodup string_dec (map fst props)
  | _ => []
  end.

Definition is_undefined (v : value) : bool :=
  match v with VUndefined => true | _ => false end.

(** [v == null] *)
Definition isAbsent (v : value) : bool :=
  match v with VUndefined | VNull => true | _ => false end.

(** [Object.prototype.toString.call(v) === '[object Object]'] *)
Definition isObject (v : value) : bool :=
  match v with VObj _ => true | _ => false end.

(** [!!v] *)
Definition truthy (v : value) : bool :=
  match v with
  | VUndefined | VNull => false
  | VBool b => b
  | VNum n => negb (PrimFloat.eqb n PrimFloat.zero || PrimFloat.is_nan n)
  | VStr s => negb (String.eqb s "")
  | VObj _ | VArr _ => true
  end.

(** [a || b] and [a && b] return one of their operands. *)
Definition js_or (a b : value) : value := if truthy a then a else b.
Definition js_and (a b : value) : value := if truthy a then b else a.

(** [v === 0] *)
Definition strict_eq_zero (v : value) : bool :=
  match v with
  | VNum n => PrimFloat.eqb n PrimFloat.zero
  | _ => false
  end.

(** SameValueZero, the comparison of [Set.prototype.has]; two objects are the
    same only as references, which a request body never shares with a
    schema. *)
Definition same_value_zero (a b : value) : bool :=
  match a, b with
  | VUndefined, VUndefined => true
  | VNull, VNull => true
  | VBool x, VBool y => Bool.eqb x y
  | VNum x, VNum y => PrimFloat.eqb x y || (PrimFloat.is_nan x && PrimFloat.is_nan y)
  | VStr x, VStr y => String.eqb x y
  | _, _ => false
  end.

(** What the embedding leaves to the host: the string conversions of the
    JavaScript runtime, which the casts of mistyped input call. *)
Record Host : Type := {
  (** [n.toString()] *)
  numberToString : float -> string;
  (** [+s.replace(/\s/g, '')], NaN for the empty string *)
  stringToNumber : string -> float;
  (** [parseFloat(items)] on an array, through its string form *)
  parseFloatOfArray : list value -> float;
  (** [JSON.parse(s)], [null] when it throws *)
  jsonParse : string -> value
}.

End JS.

Export JS.

(* ================================================================= *)
(** ** The schema builder *)

Module Yup.

(** The [$method] entry of the validation context; [None] when the context
    has none (yup resolves field defaults that way). *)
Inductive method : Type := POST | PATCH.

(** The bodies of the tests the source attaches.  [TRequired] and
    [TNoUnknown] look at the schema they run on ([this.schema]). *)
Inductive test_fn : Type :=
| TDefined
| TRequired
| TMin (min : float)
| TNoUnknown
| TCustom (predicate : value -> bool).

Record test : Type := { t_name : string; t_fn : test_fn }.

(** [when('$method', (method, schema) => requiredForPost({ method, schema,
    isObject }))]: every condition of the file is this closure, which differs
    from use to use in [isObject] only. *)
Inductive condition : Type :=
| WhenMethodRequiredForPost (isObject : bool).

Inductive presence : Type := Optional | Required.

Record spec : Type := {
  sp_presence : presence;
  sp_nullable : bool;
  (** ['default' in spec] and its value *)
  sp_default : option value;
  sp_noUnknown : bool;
  (** the set of [oneOf], when one was given *)
  sp_whitelist : option (list value);
  sp_tests : list test;
  sp_conditions : list condition
}.

#[local] Unset Elimination Schemes.

Inductive schema : Type :=
| SMixed (sp : spec)
| SString (sp : spec)
| SNumber (sp : spec)
| SObject (sp : spec) (fields : list (string * schema))
| SArray (sp : spec) (inner : option schema).

#[local] Set Elimination Schemes.

Definition spec_of (s : schema) : spec :=
  match s with
  | SMixed sp | SString sp | SNumber sp | SObject sp _ | SArray sp _ => sp
  end.

Definition with_spec (f : spec -> spec) (s : schema) : schema :=
  match s with
  | SMixed sp => SMixed (f sp)
  | SString sp => SString (f sp)
  | SNumber sp => SNumber (f sp)
  | SObject sp fields => SObject (f sp) fields
  | SArray sp inner => SArray (f sp) inner
  end.

Definition fields_of (s : schema) : list (string * schema) :=
  match s with SObject _ fields => fields | _ => [] end.

Definition empty_spec : spec :=
  {| sp_presence := Optional; sp_nullable := false; sp_default := None;
     sp_noUnknown := false; sp_whitelist := None; sp_tests := [];
     sp_conditions := [] |}.

(** *** Builders *)

Definition mixed : schema := SMixed empty_spec.
Definition string_ : schema := SString empty_spec.
Definition number : schema := SNumber empty_spec.
Definition object (shape : list (string * schema)) : schema := SObject empty_spec shape.
Definition array (type : schema) : schema := SArray empty_spec (Some type).

Definition set_tests (ts : list test) (sp : spec) : spec :=
  {| sp_presence := sp_presence sp; sp_nullable := sp_nullable sp;
     sp_default := sp_default sp; sp_noUnknown := sp_noUnknown sp;
     sp_whitelist := sp_whitelist sp; sp_tests := ts;
     sp_conditions := sp_conditions sp |}.

Definition set_presence (p : presence) (sp : spec) : spec :=
  {| sp_presence := p; sp_nullable := sp_nullable sp;
     sp_default := sp_default sp; sp_noUnknown := sp_noUnknown sp;
     sp_whitelist := sp_whitelist sp; sp_tests := sp_tests sp;
     sp_conditions := sp_conditions sp |}.

Definition set_default (d : value) (sp : spec) : spec :=
  {| sp_presence := sp_presence sp; sp_nullable := sp_nullable sp;
     sp_default := Some d; sp_noUnknown := sp_noUnknown sp;
     sp_whitelist := sp_whitelist sp; sp_tests := sp_tests sp;
     sp_conditions := sp_conditions sp |}.

Definition set_noUnknown (b : bool) (sp : spec) : spec :=
  {| sp_presence := sp_presence sp; sp_nullable := sp_nullable sp;
     sp_default := sp_default sp; sp_noUnknown := b;
     sp_whitelist := sp_whitelist sp; sp_tests := sp_tests sp;
     sp_conditions := sp_conditions sp |}.

Definition set_whitelist (vs : list value) (sp : spec) : spec :=
  {| sp_presence := sp_presence sp; sp_nullable := sp_nullable sp;
     sp_default := sp_default sp; sp_noUnknown := sp_noUnknown sp;
     sp_whitelist := Some vs; sp_tests := sp_tests sp;
     sp_conditions := sp_conditions sp |}.

Definition set_conditions (cs : list condition) (sp : spec) : spec :=
  {| sp_presence := sp_presence sp; sp_nullable := sp_nullable sp;
     sp_default := sp_default sp; sp_noUnknown := sp_noUnknown sp;
     sp_whitelist := sp_whitelist sp; sp_tests := sp_tests sp;
     sp_conditions := cs |}.

Definition named (name : string) (t : test) : bool := String.eqb (t_name t) name.

(** [test({ name, exclusive: true, ... })]: an exclusive test replaces the
    tests of its name and goes last. *)
Definition add_exclusive (t : test) (s : schema) : schema :=
  with_spec (fun sp =>
    set_tests (filter (fun u => negb (named (t_name t) u)) (sp_tests sp) ++ [t]) sp) s.

(** [test(name, message, fn)]: not exclusive; only a test of the same name
    and the same function would be replaced, and every closure of the file is
    passed once. *)
Definition test_ (name : string) (predicate : value -> bool) (s : schema) : schema :=
  with_spec (fun sp =>
    set_tests (sp_tests sp ++ [{| t_name := name; t_fn := TCustom predicate |}]) sp) s.

Definition defined (s : schema) : schema :=
  add_exclusive {| t_name := "defined"; t_fn := TDefined |} s.

Definition required (s : schema) : schema :=
  add_exclusive {| t_name := "required"; t_fn := TRequired |}
    (with_spec (set_presence Required) s).

(** [optional()] is [notRequired()]: it drops the [required] test only. *)
Definition optional (s : schema) : schema :=
  with_spec (fun sp =>
    set_tests (filter (fun u => negb (named "required" u)) (sp_tests sp))
      (set_presence Optional sp)) s.

Definition default_ (d : value) (s : schema) : schema :=
  with_spec (set_default d) s.

Definition min_ (m : float) (s : schema) : schema :=
  add_exclusive {| t_name := "min"; t_fn := TMin m |} s.

Definition oneOf (enums : list value) (s : schema) : schema :=
  with_spec (fun sp =>
    set_whitelist (match sp_whitelist sp with
                   | Some old => old ++ enums
                   | None => enums
                   end) sp) s.

Definition noUnknown (s : schema) : schema :=
  with_spec (set_noUnknown true)
    (add_exclusive {| t_name := "noUnknown"; t_fn := TNoUnknown |} s).

Definition when_method (isObject : bool) (s : schema) : schema :=
  with_spec (fun sp =>
    set_conditions (sp_conditions sp ++ [WhenMethodRequiredForPost isObject]) sp) s.

End Yup.

Export Yup.

(* ================================================================= *)
(** ** Bounty.ts: the mode-aware policy *)

(** [method === 'POST'] *)
Definition is_POST (method : option method) : bool :=
  match method with Some POST => true | _ => false end.

Definition requiredForPost (method : option Yup.method) (schema : Yup.schema)
    (isObject : bool) : Yup.schema :=
  if is_POST method then defined schema
  else if isObject then
    (* prevent overwriting object with null *)
    default_ VUndefined (optional schema)
  else optional schema.

(* ================================================================= *)
(** ** Resolving, casting and validating *)

(** One failed test: where, and the name of the test ([ValidationError.type]). *)
Inductive segment : Type :=
| Key (k : string)
| Index (i : nat).

Definition path : Type := list segment.

Record error : Type := { e_path : path; e_type : string }.

Inductive result : Type :=
| Ok (value : value)
| Err (errors : list error).

Definition apply_condition (method : option Yup.method) (c : condition)
    (s : schema) : schema :=
  match c with
  | WhenMethodRequiredForPost isObject => requiredForPost method s isObject
  end.

(** [schema.resolve({ context })]: the conditions are taken off the schema and
    applied in turn to it.  What they return carries no condition of its own,
    so the second round yup runs finds nothing to do. *)
Definition resolve (method : option Yup.method) (s : schema) : schema :=
  fold_left (fun acc c => apply_condition method c acc)
    (sp_conditions (spec_of s))
    (with_spec (set_conditions []) s).

(** [schema.getDefault()] at the context [method]: a declared default, or for
    an object with fields the one yup invents from the defaults of its
    fields, each resolved without a context (the fields of [Reward] and of the
    identity objects have the same default in every context).  [_nodes] lists
    the fields in the reverse of their declaration order. *)
Fixpoint getDefault (method : option Yup.method) (s : schema) {struct s} : value :=
  match sp_default (spec_of (resolve method s)) with
  | Some d => d
  | None =>
      match s with
      | SObject _ (f :: fs) =>
          VObj (rev (map (fun kf => (fst kf, getDefault None (snd kf))) (f :: fs)))
      | _ => VUndefined
      end
  end.

Definition typeCheck (s : schema) (v : value) : bool :=
  match s, v with
  | SMixed _, _ => true
  | SString _, VStr _ => true
  | SNumber _, VNum n => negb (PrimFloat.is_nan n)
  | SObject _ _, VObj _ => true
  | SArray _ _, VArr _ => true
  | _, _ => false
  end.

Definition isType (s : schema) (v : value) : bool :=
  match v with
  | VNull => sp_nullable (spec_of s) || typeCheck s v
  | _ => typeCheck s v
  end.

(** [indexed l] pairs every item with its index. *)
Definition indexed {A : Type} (l : list A) : list (nat * A) :=
  combine (seq 0 (List.length l)) l.

(** The properties an object cast assigns for its declared fields: a field
    whose cast value is [undefined] gets no property. *)
Definition known_of (nodes : list (string * (value * bool))) : list (string * value) :=
  flat_map (fun kc => if is_undefined (fst (snd kc)) then []
                      else [(fst kc, fst (snd kc))]) nodes.

Section Engine.

Variable host : Host.

(** Whether [array().required()] also refuses the empty array: yup changed
    its mind on this between releases, and no statement below depends on
    it. *)
Variable arrayRequiredChecksLength : bool.

(** The [$method] of the validation context. *)
Variable method : option Yup.method.

(** The transforms the constructors install.  The flag says whether the
    result differs from the input under [!==]. *)
Definition transform_string (v : value) : value * bool :=
  match v with
  | VBool b => (VStr (if b then "true" else "false"), true)
  | VNum n => (VStr (numberToString host n), true)
  | _ => (v, false)
  end.

Definition transform_number (v : value) : value * bool :=
  match v with
  | VNum n => if PrimFloat.is_nan n then (VNum PrimFloat.nan, true) else (v, false)
  | VStr s => (VNum (stringToNumber host s), true)
  | VArr items => (VNum (parseFloatOfArray host items), true)
  | _ => (VNum PrimFloat.nan, true)
  end.

Definition transform_object (v : value) : value * bool :=
  match v with
  | VObj _ => (v, false)
  | VStr s => (match jsonParse host s with VObj o => VObj o | _ => VNull end, true)
  | VNull => (VNull, false)
  | _ => (VNull, true)
  end.

Definition transform_array (v : value) : value * bool :=
  match v with
  | VArr _ => (v, false)
  | VStr s => (match jsonParse host s with VArr a => VArr a | _ => VNull end, true)
  | VNull => (VNull, false)
  | _ => (VNull, true)
  end.

(** The base [_cast]: transforms when there is a value, the default when
    there is none. *)
Definition base_cast (s : schema) (transform : value -> value * bool)
    (v : value) : value * bool :=
  match v with
  | VUndefined =>
      let d := getDefault method s in (d, negb (is_undefined d))
  | _ => transform v
  end.

(** The loop of [ObjectSchema._cast] over [_nodes] and then the other keys of
    the value.  [casted] holds, per declared field in declaration order, what
    casting [value[key]] gave. *)
Definition cast_object_loop (strip : bool) (casted : list (string * (value * bool)))
    (v : value) : value * bool :=
  let nodes := rev casted in
  let known := known_of nodes in
  let extra_keys := filter (fun k => negb (mem k (map fst casted))) (own_keys v) in
  let extras :=
    if strip then [] else map (fun k => (k, get_prop v k)) extra_keys in
  let isChanged :=
    existsb (fun kc => snd (snd kc)) nodes
    || (strip && existsb (fun k => negb (is_undefined (get_prop v k))) extra_keys) in
  if isChanged then (VObj (known ++ extras), true) else (v, false).

(** [schema.cast(value, { context })] with [assert: false], as validation
    calls it.  The flag says whether the result differs from the input under
    [!==]. *)
Fixpoint cast (s : schema) (v : value) {struct s} : value * bool :=
  match s with
  | SMixed _ => base_cast s (fun x => (x, false)) v
  | SString _ => base_cast s transform_string v
  | SNumber _ => base_cast s transform_number v
  | SObject _ fields =>
      let '(value, changed) := base_cast s transform_object v in
      match value with
      | VObj _ =>
          let strip := sp_noUnknown (spec_of (resolve method s)) in
          let casted :=
            map (fun kf => (fst kf, cast (snd kf) (get_prop value (fst kf)))) fields in
          let '(out, isChanged) := cast_object_loop strip casted value in
          (out, changed || isChanged)
      | _ => (value, changed)
      end
  | SArray _ inner =>
      let '(value, changed) := base_cast s transform_array v in
      match value, inner with
      | VArr items, Some innerType =>
          let casted := map (cast innerType) items in
          if existsb snd casted then (VArr (map fst casted), true)
          else (value, changed)
      | _, _ => (value, changed)
      end
  end.

(** [_isPresent] *)
Definition isPresent (s : schema) (v : value) : bool :=
  negb (isAbsent v) &&
  match s, v with
  | SString _, VStr x => negb (String.eqb x "")
  | SArray _ _, VArr items =>
      if arrayRequiredChecksLength
      then match items with [] => false | _ => true end
      else true
  | _, _ => true
  end.

(** The keys of [v] the shape does not declare. *)
Definition unknown (s : schema) (v : value) : list string :=
  filter (fun k => negb (mem k (map fst (fields_of s)))) (own_keys v).

(** One test of [schema.tests] on a value that passed the type check. *)
Definition run_test (s : schema) (t : test) (v : value) : bool :=
  match t_fn t with
  | TDefined => negb (is_undefined v)
  | TRequired => isPresent s v
  | TMin m =>
      isAbsent v ||
      match v with VNum n => PrimFloat.leb m n | _ => false end
  | TNoUnknown =>
      isAbsent v ||
      match unknown s v with [] => true | _ => false end
  | TCustom predicate => predicate v
  end.

(** The tests yup runs first; when one fails the others are not run. *)
Definition initial_errors (s : schema) (p : path) (v : value) : list error :=
  (if negb (is_undefined v) && negb (isType s v)
   then [{| e_path := p; e_type := "typeError" |}] else [])
  ++
  match sp_whitelist (spec_of s) with
  | Some valids =>
      if is_undefined v || existsb (same_value_zero v) valids then []
      else [{| e_path := p; e_type := "oneOf" |}]
  | None => []
  end.

Definition test_errors (s : schema) (p : path) (v : value) : list error :=
  flat_map (fun t => if run_test s t v then []
                     else [{| e_path := p; e_type := t_name t |}])
    (sp_tests (spec_of s)).

Definition own_errors (s : schema) (p : path) (v : value) : list error :=
  match initial_errors s p v with
  | [] => test_errors s p v
  | errs => errs
  end.

(** [schema.validate(value, { strict: true, abortEarly: false, context })] at
    [path]: the failures of the schema itself, and those of the fields of an
    object value, or of the items of an array value.  The order of yup's list
    (sorted by key, a schema's own failures after those of its fields) is not
    kept: the statements below read the list as a set. *)
Fixpoint validate_at (s : schema) (p : path) (v : value) {struct s} : list error :=
  own_errors (resolve method s) p v ++
  match s with
  | SObject _ fields =>
      if isObject v
      then flat_map (fun kf =>
             validate_at (snd kf) (p ++ [Key (fst kf)]) (get_prop v (fst kf))) fields
      else []
  | SArray _ (Some innerType) =>
      match v with
      | VArr items =>
          flat_map (fun ix => validate_at innerType (p ++ [Index (fst ix)]) (snd ix))
            (indexed items)
      | _ => []
      end
  | _ => []
  end.

(** [schema.validate(value, { strict, abortEarly: false, context })]: unless
    strict, the value is cast first; it resolves with the value validated. *)
Definition validate (s : schema) (strict : bool) (v : value) : result :=
  let value := if strict then v else fst (cast s v) in
  match validate_at s [] value with
  | [] => Ok value
  | errs => Err errs
  end.

End Engine.

(* ================================================================= *)
(** ** Bounty.ts: the schemas *)

Definition bothRequiredIfOneRequired (params : value) : bool :=
  (* If discord id is specified, ensure discord handle is also specified *)
  if truthy (js_and params
               (js_or (get_prop params "discordHandle") (get_prop params "discordId")))
  then
    let discordId := get_prop params "discordId" in
    let discordHandle := get_prop params "discordHandle" in
    truthy discordId && truthy discordHandle
  else true.

Definition DiscordUser : schema :=
  test_ "is-optional" (fun params => bothRequiredIfOneRequired params)
    (object [
       ("discordHandle", optional string_);
       ("discordId", optional string_)
     ]).

(** Nested objects in yup behave strangely.  We require a separate object to
    conditionally require the fields inside of it. *)
Definition RequiredDiscordUser : schema :=
  test_ "is-optional" (fun params => bothRequiredIfOneRequired params)
    (object [
       ("discordId", when_method false string_);
       ("discordHandle", when_method false string_)
     ]).

(** The test of [Reward]. *)
Definition rewardAllDefined (params : value) : bool :=
  if truthy params then
    let amount := get_prop params "amount" in
    let currency := get_prop params "currency" in
    let scale := get_prop params "scale" in
    let amountWithoutScale := get_prop params "amountWithoutScale" in
    let allDefined :=
      (truthy amount || strict_eq_zero amount)
      && (truthy scale || strict_eq_zero scale)
      && (truthy amountWithoutScale || strict_eq_zero amountWithoutScale)
      && truthy currency in
    allDefined
  else true.

Definition Reward : schema :=
  test_ "is-optional" rewardAllDefined
    (object [
       ("amount", when_method false (min_ PrimFloat.zero number));
       ("currency", when_method false (default_ (VStr "BANK") string_));
       ("scale", when_method false (default_ (VNum PrimFloat.zero) number));
       ("amountWithoutScale", when_method false number)
     ]).

Definition statuses : list string :=
  ["Draft"; "Open"; "In-Progress"; "In-Review"; "Completed"; "Deleted"].

Definition Status : schema := oneOf (map VStr statuses) mixed.

Definition StatusHistory : schema :=
  object [
    ("status", Status);
    ("modifiedAt", string_)
  ].

Definition BountySchema : schema :=
  noUnknown (object [
    ("_id", optional string_);
    ("title", when_method false string_);
    ("description", when_method false string_);
    ("criteria", when_method false string_);
    ("customerId", when_method false string_);
    ("status", when_method false Status);
    ("dueAt", when_method false string_);
    ("reward", when_method true Reward);

    ("statusHistory", optional (array StatusHistory));

    ("discordMessageId", optional string_);
    ("submissionNotes", optional string_);
    ("submissionUrl", optional string_);

    ("createdAt", when_method false string_);
    ("claimedAt", optional string_);
    ("submittedAt", optional string_);
    ("reviewedAt", optional string_);

    ("createdBy", when_method true RequiredDiscordUser);
    ("claimedBy", default_ VUndefined (optional DiscordUser));
    ("submittedBy", default_ VUndefined (optional DiscordUser));
    ("reviewedBy", default_ VUndefined (optional DiscordUser))
  ]).

Definition BountyClaimSchema : schema :=
  noUnknown (object [
    ("submissionNotes", required string_);
    ("claimedBy", required DiscordUser);
    ("status", required Status);
    ("statusHistory", required (array StatusHistory))
  ]).

(* ================================================================= *)
(** ** Bounty.ts: the collection *)

(** The [type] a path of the mongoose schema declares. *)
Inductive SchemaType : Type := String_ | Object_ | Array_.

(** [BountyBoardSchema]: the paths of the collection and the [type] of each.
    A path declared with a [type] key is that type as a whole; what else its
    declaration holds is not a path. *)
Definition BountyBoardSchema : list (string * SchemaType) :=
  [ ("title", String_);
    ("customerId", String_);
    ("description", String_);
    ("criteria", String_);
    ("reward", Object_);
    ("createdBy", Object_);
    ("createdAt", String_);
    ("dueAt", String_);
    ("discordMessageId", String_);
    ("status", String_);
    ("statusHistory", Array_);
    ("claimedBy", Object_);
    ("claimedAt", String_);
    ("submissionNotes", String_);
    ("submissionUrl", String_);
    ("submittedAt", String_);
    ("submittedBy", Object_);
    ("reviewedAt", String_);
    ("reviewedBy", Object_) ].

(* ================================================================= *)
(** ** Vocabulary of the statements *)

(** *** Results and reports *)

Definition errors_of (r : result) : list error :=
  match r with Ok _ => [] | Err errs => errs end.

(** The reports of the tests the file uses, by the name of the test.  In the
    words of the specification: [defined] and [required] report a missing
    required field, [noUnknown] an unknown field, [is-optional] an
    inconsistent pair on an identity and an incomplete composite on a reward,
    [oneOf] an invalid enumeration value. *)
Definition defined_at (p : path) : error := {| e_path := p; e_type := "defined" |}.
Definition required_at (p : path) : error := {| e_path := p; e_type := "required" |}.
Definition no_unknown_at (p : path) : error := {| e_path := p; e_type := "noUnknown" |}.
Definition is_optional_at (p : path) : error := {| e_path := p; e_type := "is-optional" |}.
Definition one_of_at (p : path) : error := {| e_path := p; e_type := "oneOf" |}.
Definition min_at (p : path) : error := {| e_path := p; e_type := "min" |}.

(** The failures reported under the key [k]. *)
Definition under (k : string) (e : error) : bool :=
  match e_path e with
  | Key k' :: _ => String.eqb k k'
  | _ => false
  end.

(** The keys a schema declares. *)
Definition declared (s : schema) : list string := map fst (fields_of s).

(** The declared default of a schema, [undefined] when it declares none. *)
Definition declared_default (s : schema) : value :=
  match sp_default (spec_of s) with Some d => d | None => VUndefined end.

(** Induction over schemas, through the fields of an object and the item type
    of an array. *)
Fixpoint schema_ind' (P : schema -> Prop)
    (Hmixed : forall sp, P (SMixed sp))
    (Hstring : forall sp, P (SString sp))
    (Hnumber : forall sp, P (SNumber sp))
    (Hobject : forall sp fields, Forall (fun kf => P (snd kf)) fields -> P (SObject sp fields))
    (Harray0 : forall sp, P (SArray sp None))
    (Harray : forall sp innerType, P innerType -> P (SArray sp (Some innerType)))
    (s : schema) {struct s} : P s :=
  match s with
  | SMixed sp => Hmixed sp
  | SString sp => Hstring sp
  | SNumber sp => Hnumber sp
  | SObject sp fields =>
      Hobject sp fields
        ((fix go (l : list (string * schema)) : Forall (fun kf => P (snd kf)) l :=
            match l with
            | [] => Forall_nil _
            | kf :: rest =>
                Forall_cons kf
                  (schema_ind' P Hmixed Hstring Hnumber Hobject Harray0 Harray (snd kf))
                  (go rest)
            end) fields)
  | SArray sp None => Harray0 sp
  | SArray sp (Some innerType) =>
      Harray sp innerType
        (schema_ind' P Hmixed Hstring Hnumber Hobject Harray0 Harray innerType)
  end.

(** *** Records *)

(** [target[k] = x] on the properties of an object. *)
Fixpoint set_prop (k : string) (x : value) (props : list (string * value))
    : list (string * value) :=
  match props with
  | [] => [(k, x)]
  | (k', y) :: rest =>
      if String.eqb k k' then (k, x) :: rest else (k', y) :: set_prop k x rest
  end.

(** [{ ...target, ...source }]: every own property of [source] is assigned to
    a copy of [target]. *)
Definition assign (target source : value) : value :=
  VObj (fold_left (fun acc k => set_prop k (get_prop source k) acc)
          (own_keys source)
          (match target with VObj props => props | _ => [] end)).

(** [delete record[f]] on the properties of an object. *)
Definition remove_prop (f : string) (props : list (string * value))
    : list (string * value) :=
  filter (fun kv => negb (String.eqb (fst kv) f)) props.

(** Every property holds a value, as in a record parsed from JSON. *)
Definition holds_values (props : list (string * value)) : bool :=
  forallb (fun kv => negb (is_undefined (snd kv))) props.

Definition string_or_undefined (v : value) : bool :=
  match v with VUndefined | VStr _ => true | _ => false end.

Definition number_or_undefined (v : value) : bool :=
  match v with VUndefined | VNum _ => true | _ => false end.

(** A number: [typeof v === 'number'] and not NaN. *)
Definition is_number (v : value) : bool :=
  match v with VNum n => negb (PrimFloat.is_nan n) | _ => false end.

Definition nonneg_number (v : value) : bool :=
  match v with
  | VNum n => negb (PrimFloat.is_nan n) && PrimFloat.leb PrimFloat.zero n
  | _ => false
  end.

Definition nonempty_string (v : value) : bool :=
  match v with VStr s => negb (String.eqb s "") | _ => false end.

(** *** The fields of a bounty *)

(** The scalar fields [requiredForPost] governs in [BountySchema]. *)
Definition create_required_scalars : list string :=
  ["title"; "description"; "criteria"; "customerId"; "status"; "dueAt"; "createdAt"].

(** The scalar schemas the file puts under the policy, and the composite
    ones. *)
Definition governed_scalars : list schema :=
  [ string_; Status; min_ PrimFloat.zero number;
    default_ (VStr "BANK") string_; default_ (VNum PrimFloat.zero) number; number ].

Definition governed_composites : list schema := [ Reward; RequiredDiscordUser ].

(** The identity pairs of a bounty, and the schemas under which the file
    validates an identity pair. *)
Definition pair_fields : list string :=
  ["createdBy"; "claimedBy"; "submittedBy"; "reviewedBy"].

Definition pair_schemas : list schema :=
  [ when_method true RequiredDiscordUser;
    default_ VUndefined (optional DiscordUser);
    required DiscordUser;
    DiscordUser;
    RequiredDiscordUser ].

Definition discordUser (discordId discordHandle : value) : value :=
  VObj [("discordId", discordId); ("discordHandle", discordHandle)].

(** The schemas under which the file validates a status, and the values of
    the enumeration. *)
Definition status_schemas : list schema :=
  [ when_method false Status; required Status; Status ].

Definition in_statuses (v : value) : Prop := exists s, v = VStr s /\ In s statuses.

(** The fields of [Reward]. *)
Definition amount_field : schema := when_method false (min_ PrimFloat.zero number).
Definition currency_field : schema := when_method false (default_ (VStr "BANK") string_).
Definition scale_field : schema := when_method false (default_ (VNum PrimFloat.zero) number).
Definition plain_number_field : schema := when_method false number.

(** [!!v || v === 0], the presence of a number in the test of [Reward]. *)
Definition present_number (v : value) : bool := truthy v || strict_eq_zero v.

(** A reward with its four fields: a number not below zero, a currency code,
    and two numbers. *)
Definition reward_complete (x : value) : bool :=
  isObject x
  && nonneg_number (get_prop x "amount")
  && nonempty_string (get_prop x "currency")
  && is_number (get_prop x "scale")
  && is_number (get_prop x "amountWithoutScale").

(** The same, an absent currency or scale standing for its default. *)
Definition reward_complete_by_default (x : value) : bool :=
  isObject x
  && nonneg_number (get_prop x "amount")
  && (is_undefined (get_prop x "currency") || nonempty_string (get_prop x "currency"))
  && (is_undefined (get_prop x "scale") || is_number (get_prop x "scale"))
  && is_number (get_prop x "amountWithoutScale").

(** Each field of the reward holds nothing or a value of its type. *)
Definition reward_typed (x : value) : bool :=
  match x with
  | VUndefined => true
  | VObj _ =>
      number_or_undefined (get_prop x "amount")
      && string_or_undefined (get_prop x "currency")
      && number_or_undefined (get_prop x "scale")
      && number_or_undefined (get_prop x "amountWithoutScale")
  | _ => false
  end.

Definition zero_reward : value :=
  VObj [("amount", VNum PrimFloat.zero); ("scale", VNum PrimFloat.zero);
        ("currency", VStr "BANK"); ("amountWithoutScale", VNum PrimFloat.zero)].

Definition only_currency : value := VObj [("currency", VStr "BANK")].

(** *** Example records *)

(** A host for records that need no conversion: every conversion answers
    NaN or [null]. *)
Definition inert_host : Host :=
  {| numberToString := fun _ => "NaN";
     stringToNumber := fun _ => PrimFloat.nan;
     parseFloatOfArray := fun _ => PrimFloat.nan;
     jsonParse := fun _ => VNull |}.

Definition posted_reward : value :=
  VObj [("amount", VNum 100%float); ("currency", VStr "BANK");
        ("scale", VNum PrimFloat.two); ("amountWithoutScale", VNum PrimFloat.one)].

(** A bounty as a client posts it. *)
Definition posted_bounty_props : list (string * value) :=
  [("title", VStr "Fix bug"); ("description", VStr "Crash on save");
   ("criteria", VStr "No crash"); ("customerId", VStr "c1");
   ("status", VStr "Draft"); ("dueAt", VStr "2024-01-01");
   ("reward", posted_reward); ("createdAt", VStr "2024-01-01");
   ("createdBy", discordUser (VStr "1") (VStr "h"))].

(** The same bounty with a key the schema does not declare. *)
Definition bounty_with_extra_key : list (string * value) :=
  posted_bounty_props ++ [("priority", VStr "high")].

(** The same bounty, its reward without currency and scale. *)
Definition bounty_reward_by_default : value :=
  VObj [("title", VStr "Fix bug"); ("description", VStr "Crash on save");
        ("criteria", VStr "No crash"); ("customerId", VStr "c1");
        ("status", VStr "Draft"); ("dueAt", VStr "2024-01-01");
        ("reward", VObj [("amount", VNum 100%float);
                         ("amountWithoutScale", VNum PrimFloat.one)]);
        ("createdAt", VStr "2024-01-01");
        ("createdBy", discordUser (VStr "1") (VStr "h"))].

(** The same bounty, its creator known by id only. *)
Definition bounty_creator_id_only : list (string * value) :=
  [("title", VStr "Fix bug"); ("description", VStr "Crash on save");
   ("criteria", VStr "No crash"); ("customerId", VStr "c1");
   ("status", VStr "Draft"); ("dueAt", VStr "2024-01-01");
   ("reward", posted_reward); ("createdAt", VStr "2024-01-01");
   ("createdBy", VObj [("discordId", VStr "1")])].

(** A reward with its four fields, the amount below zero. *)
Definition negative_reward_props : list (string * value) :=
  [("amount", VNum (PrimFloat.opp PrimFloat.one)); ("currency", VStr "BANK");
   ("scale", VNum PrimFloat.zero); ("amountWithoutScale", VNum PrimFloat.zero)].

(** A reward with two of its four fields. *)
Definition half_reward : value :=
  VObj [("amount", VNum PrimFloat.one); ("amountWithoutScale", VNum PrimFloat.one)].

Definition review_history : value :=
  VArr [VObj [("status", VStr "In-Review"); ("modifiedAt", VStr "2024-02-01")]].

(** A claim whose claimer identity is the empty object. *)
Definition claim_with_empty_identity : value :=
  VObj [("submissionNotes", VStr "done"); ("claimedBy", VObj []);
        ("status", VStr "In-Review"); ("statusHistory", review_history)].

(** A claim with no claimer identity at all. *)
Definition claim_without_identity : value :=
  VObj [("submissionNotes", VStr "done"); ("status", VStr "In-Review");
        ("statusHistory", review_history)].

(** A stored bounty whose reward is paid in another currency. *)
Definition stored_bounty_in_eth : value :=
  VObj [("title", VStr "Fix bug");
        ("reward", VObj [("amount", VNum 100%float); ("currency", VStr "ETH");
                         ("scale", VNum PrimFloat.two);
                         ("amountWithoutScale", VNum PrimFloat.one)])].

(** *** Records by the kinds of their fields *)

Definition is_string (v : value) : bool :=
  match v with VStr _ => true | _ => false end.

(** One of the six statuses. *)
Definition status_value (v : value) : bool :=
  existsb (same_value_zero v) (map VStr statuses).

(** What the fields of a bounty and of a claim are, as Bounty.ts declares
    them. *)
Inductive field_kind : Type :=
| PlainString      (* string().optional() *)
| PolicyString     (* string() under requiredForPost *)
| PolicyStatus     (* Status under requiredForPost *)
| PolicyReward     (* Reward under requiredForPost, isObject *)
| History          (* array(StatusHistory).optional() *)
| PolicyPair       (* RequiredDiscordUser under requiredForPost, isObject *)
| PlainPair        (* DiscordUser.optional().default(undefined) *)
| RequiredString   (* string().required() *)
| RequiredPair     (* DiscordUser.required() *)
| RequiredStatus   (* Status.required() *)
| RequiredHistory. (* array(StatusHistory).required() *)

(** An entry of a status history: nothing, or an object whose status is absent
    or one of the six and whose modifiedAt is absent or a string. *)
Definition entry_ok (e : value) : bool :=
  match e with
  | VUndefined => true
  | VObj _ =>
      (is_undefined (get_prop e "status") || status_value (get_prop e "status"))
      && string_or_undefined (get_prop e "modifiedAt")
  | _ => false
  end.

Definition history_ok (x : value) : bool :=
  match x with VArr items => forallb entry_ok items | _ => false end.

(** An identity object whose two members pass [member_ok] and the pairing
    test. *)
Definition pair_ok (member_ok : value -> bool) (x : value) : bool :=
  match x with
  | VObj _ =>
      member_ok (get_prop x "discordId")
      && member_ok (get_prop x "discordHandle")
      && bothRequiredIfOneRequired x
  | _ => false
  end.

(** What strict validation accepts for a field of each kind.
    [arrayRequiredChecksLength] is the release-dependent check of the engine. *)
Definition kind_ok (arrayRequiredChecksLength : bool) (m : option method)
    (c : field_kind) (x : value) : bool :=
  let may_be_absent := negb (is_POST m) && is_undefined x in
  match c with
  | PlainString => string_or_undefined x
  | PolicyString => may_be_absent || is_string x
  | PolicyStatus => may_be_absent || status_value x
  | PolicyReward => may_be_absent || reward_complete x
  | History => is_undefined x || history_ok x
  | PolicyPair =>
      may_be_absent
      || pair_ok (fun y => (negb (is_POST m) && is_undefined y) || is_string y) x
  | PlainPair => is_undefined x || pair_ok string_or_undefined x
  | RequiredString => nonempty_string x
  | RequiredPair => pair_ok string_or_undefined x
  | RequiredStatus => status_value x
  | RequiredHistory =>
      history_ok x
      && negb (arrayRequiredChecksLength
               && match x with VArr [] => true | _ => false end)
  end.

Definition bounty_kinds : list (string * field_kind) :=
  [ ("_id", PlainString);
    ("title", PolicyString);
    ("description", PolicyString);
    ("criteria", PolicyString);
    ("customerId", PolicyString);
    ("status", PolicyStatus);
    ("dueAt", PolicyString);
    ("reward", PolicyReward);
    ("statusHistory", History);
    ("discordMessageId", PlainString);
    ("submissionNotes", PlainString);
    ("submissionUrl", PlainString);
    ("createdAt", PolicyString);
    ("claimedAt", PlainString);
    ("submittedAt", PlainString);
    ("reviewedAt", PlainString);
    ("createdBy", PolicyPair);
    ("claimedBy", PlainPair);
    ("submittedBy", PlainPair);
    ("reviewedBy", PlainPair) ].

Definition claim_kinds : list (string * field_kind) :=
  [ ("submissionNotes", RequiredString);
    ("claimedBy", RequiredPair);
    ("status", RequiredStatus);
    ("statusHistory", RequiredHistory) ].

(** A record by its kinds: no request body at all, or an object with no key
    outside the table and every field as its kind wants it. *)
Definition record_accepts (kinds : list (string * field_kind))
    (arrayRequiredChecksLength : bool) (m : option method) (v : value) : bool :=
  match v with
  | VUndefined => true
  | VObj _ =>
      forallb (fun k => mem k (map fst kinds)) (own_keys v)
      && forallb (fun kc => kind_ok arrayRequiredChecksLength m (snd kc)
                              (get_prop v (fst kc))) kinds
  | _ => false
  end.

(** The schema Bounty.ts gives a field of each kind. *)
Definition kind_schema (c : field_kind) : schema :=
  match c with
  | PlainString => optional string_
  | PolicyString => when_method false string_
  | PolicyStatus => when_method false Status
  | PolicyReward => when_method true Reward
  | History => optional (array StatusHistory)
  | PolicyPair => when_method true RequiredDiscordUser
  | PlainPair => default_ VUndefined (optional DiscordUser)
  | RequiredString => required string_
  | RequiredPair => required DiscordUser
  | RequiredStatus => required Status
  | RequiredHistory => required (array StatusHistory)
  end.

Definition record_tables : list (schema * list (string * field_kind)) :=
  [(BountySchema, bounty_kinds); (BountyClaimSchema, claim_kinds)].

(** Every entry of a status history holds a value, as in an array parsed from
    JSON. *)
Definition entries_defined (x : value) : bool :=
  match x with
  | VArr items => forallb (fun e => negb (is_undefined e)) items
  | _ => true
  end.

(** The table of kinds of a record schema. *)
Definition kinds_of (sch : schema) : list (string * field_kind) :=
  match fields_of sch with
  | ("_id", _) :: _ => bounty_kinds
  | _ => claim_kinds
  end.

(** The fields of a bounty that are plain strings. *)
Definition string_fields : list string :=
  ["_id"; "title"; "description"; "criteria"; "customerId"; "dueAt";
   "discordMessageId"; "submissionNotes"; "submissionUrl";
   "createdAt"; "claimedAt"; "submittedAt"; "reviewedAt"].

Definition type_error_at (p : path) : error := {| e_path := p; e_type := "typeError" |}.

(** The report of a field that holds [null]: a status is a mixed value, which
    the type check lets through and the enumeration refuses. *)
Definition null_report (c : field_kind) (p : path) : error :=
  match c with
  | PolicyStatus | RequiredStatus => one_of_at p
  | _ => type_error_at p
  end.

(** The names of the tests a schema and the schemas inside it carry. *)
Fixpoint test_names (s : schema) : list string :=
  map t_name (sp_tests (spec_of s)) ++
  match s with
  | SObject _ fields => flat_map (fun kf => test_names (snd kf)) fields
  | SArray _ (Some innerType) => test_names innerType
  | _ => []
  end.

(** The types of the reports validation by a schema can give: those of the
    type check and of the enumeration, [defined], which the policy adds on
    Create, and the names of the tests. *)
Definition report_types (s : schema) : list string :=
  "typeError" :: "oneOf" :: "defined" :: test_names s.

(** The kinds whose value is an object with fields of its own. *)
Definition object_kinds : list field_kind :=
  [PolicyReward; PolicyPair; PlainPair; RequiredPair].

(** What the policy lets a member of [RequiredDiscordUser] be. *)
Definition policy_member (m : option method) (y : value) : bool :=
  negb (is_POST m) && is_undefined y || is_string y.

(** A value of the type a path declares. *)
Definition of_type (t : SchemaType) (v : value) : bool :=
  match t, v with
  | String_, VStr _ => true
  | Object_, VObj _ => true
  | Array_, VArr _ => true
  | _, _ => false
  end.

(** A posted bounty whose reward carries a key of its own. *)
Definition bounty_with_reward_note : list (string * value) :=
  [("title", VStr "Fix bug");
   ("reward", VObj [("amount", VNum 100%float); ("currency", VStr "BANK");
                    ("scale", VNum PrimFloat.two);
                    ("amountWithoutScale", VNum PrimFloat.one);
                    ("note", VStr "paid on merge")])].

(* ================================================================= *)
(** ** Lemmas *)

(** *** Association lists *)

Lemma lookup_app {A} (k : string) (a b : list (string * A)) :
  lookup k (a ++ b) = match lookup k a with Some x => Some x | None => lookup k b end.
Proof.
  induction a as [|[k' x] a IH]; simpl; [reflexivity|].
  destruct (String.eqb k k'); [reflexivity | exact IH].
Qed.

Lemma lookup_None {A} (k : string) (l : list (string * A)) :
  lookup k l = None <-> ~ In k (map fst l).
Proof.
  induction l as [|[k' x] l IH]; simpl.
  - tauto.
  - destruct (String.eqb_spec k k') as [->|Hne].
    + split; [discriminate | intros H; exfalso; apply H; now left].
    + rewrite IH. split.
      * intros H [Heq|Hin]; [congruence | tauto].
      * tauto.
Qed.

Lemma lookup_In {A} (k : string) (x : A) (l : list (string * A)) :
  lookup k l = Some x -> In (k, x) l.
Proof.
  induction l as [|[k' y] l IH]; simpl; [discriminate|].
  destruct (String.eqb_spec k k') as [->|Hne].
  - intros [= ->]. now left.
  - intros H. right. now apply IH.
Qed.

Lemma In_lookup {A} (k : string) (x : A) (l : list (string * A)) :
  NoDup (map fst l) -> In (k, x) l -> lookup k l = Some x.
Proof.
  induction l as [|[k' y] l IH]; simpl; [tauto|].
  intros Hnd [Heq|Hin].
  - injection Heq as -> ->. now rewrite String.eqb_refl.
  - inversion Hnd as [|? ? Hnotin Hnd']; subst.
    destruct (String.eqb_spec k k') as [->|Hne].
    + exfalso. apply Hnotin. change k' with (fst (k', x)). now apply in_map.
    + now apply IH.
Qed.

Lemma lookup_rev {A} (k : string) (l : list (string * A)) :
  NoDup (map fst l) -> lookup k (rev l) = lookup k l.
Proof.
  induction l as [|[k' y] l IH]; simpl; [reflexivity|].
  intros Hnd. inversion Hnd as [|? ? Hnotin Hnd']; subst.
  rewrite lookup_app, (IH Hnd'). simpl.
  destruct (String.eqb_spec k k') as [->|Hne].
  - apply lookup_None in Hnotin. now rewrite Hnotin.
  - now destruct (lookup k l).
Qed.

Lemma lookup_map {A B} (g : string -> A -> B) (k : string) (l : list (string * A)) :
  lookup k (map (fun kf => (fst kf, g (fst kf) (snd kf))) l)
  = option_map (g k) (lookup k l).
Proof.
  induction l as [|[k' y] l IH]; simpl; [reflexivity|].
  destruct (String.eqb_spec k k') as [->|Hne]; [reflexivity | exact IH].
Qed.

Lemma map_fst_map {A B} (g : string * A -> B) (l : list (string * A)) :
  map fst (map (fun kf => (fst kf, g kf)) l) = map fst l.
Proof. rewrite map_map. now apply map_ext. Qed.

Lemma lookup_known_of (k : string) (l : list (string * (value * bool))) :
  NoDup (map fst l) ->
  lookup k (known_of l)
  = match lookup k l with
    | Some (x, _) => if is_undefined x then None else Some x
    | None => None
    end.
Proof.
  induction l as [|[k' [x c]] l IH]; simpl; [reflexivity|].
  intros Hnd. inversion Hnd as [|? ? Hnotin Hnd']; subst.
  rewrite lookup_app, (IH Hnd').
  destruct (String.eqb_spec k k') as [->|Hne].
  - destruct (is_undefined x); simpl.
    + apply lookup_None in Hnotin. now rewrite Hnotin.
    + now rewrite String.eqb_refl.
  - destruct (is_undefined x); simpl.
    + reflexivity.
    + apply String.eqb_neq in Hne. now rewrite Hne.
Qed.

(** *** Casting *)

Section CastFacts.
Variable host : Host.
Variable method : option Yup.method.

Lemma loop_unchanged strip casted v :
  snd (cast_object_loop strip casted v) = false ->
  fst (cast_object_loop strip casted v) = v.
Proof.
  unfold cast_object_loop.
  destruct (existsb _ _ || _); simpl; [discriminate | reflexivity].
Qed.

Lemma base_cast_unchanged s t v :
  (forall x, snd (t x) = false -> fst (t x) = x) ->
  snd (base_cast method s t v) = false -> fst (base_cast method s t v) = v.
Proof.
  intros Ht. destruct v; simpl; try apply Ht.
  destruct (getDefault method s); simpl; congruence.
Qed.

Lemma cast_unchanged s v : snd (cast host method s v) = false -> fst (cast host method s v) = v.
Proof.
  destruct s as [sp|sp|sp|sp fields|sp inner]; simpl.
  - apply base_cast_unchanged. auto.
  - apply base_cast_unchanged. intros x. destruct x; simpl; congruence.
  - apply base_cast_unchanged. intros x. destruct x; simpl; try congruence.
    destruct (PrimFloat.is_nan n); simpl; congruence.
  - pose proof (base_cast_unchanged (SObject sp fields) (transform_object host) v) as Hb.
    destruct (base_cast method (SObject sp fields) (transform_object host) v) as [value changed].
    assert (Ht : forall x, snd (transform_object host x) = false -> fst (transform_object host x) = x).
    { intros x. destruct x; simpl; congruence. }
    specialize (Hb Ht). simpl in Hb.
    destruct value; simpl; auto.
    match goal with |- context [cast_object_loop ?a ?b ?c] =>
      pose proof (loop_unchanged a b c) as Hl;
      destruct (cast_object_loop a b c) as [out isChanged] end.
    simpl in *. intros H. apply orb_false_iff in H as [H1 H2].
    rewrite (Hl H2). auto.
  - pose proof (base_cast_unchanged (SArray sp inner) (transform_array host) v) as Hb.
    destruct (base_cast method (SArray sp inner) (transform_array host) v) as [value changed].
    assert (Ht : forall x, snd (transform_array host x) = false -> fst (transform_array host x) = x).
    { intros x. destruct x; simpl; congruence. }
    specialize (Hb Ht). simpl in Hb.
    destruct value; simpl; auto.
    destruct inner as [innerType|]; simpl; auto.
    destruct (existsb snd _); simpl; [discriminate | auto].
Qed.

(** What the loop of an object cast host method leaves under a declared key. *)
Lemma loop_get_known strip casted props k x c :
  NoDup (map fst casted) ->
  lookup k casted = Some (x, c) ->
  (c = false -> x = get_prop (VObj props) k) ->
  get_prop (fst (cast_object_loop strip casted (VObj props))) k = x.
Proof.
  intros Hnd Hk Hc. unfold cast_object_loop.
  destruct (existsb (fun kc => snd (snd kc)) (rev casted) || _) eqn:Hch; simpl.
  - rewrite lookup_app, lookup_known_of.
    2:{ rewrite map_rev. now apply NoDup_rev. }
    rewrite (lookup_rev k casted Hnd), Hk.
    destruct (is_undefined x) eqn:Hu.
    + assert (Hex : lookup k (if strip then []
               else map (fun k0 => (k0, get_prop (VObj props) k0))
                      (filter (fun k0 => negb (mem k0 (map fst casted)))
                         (nodup string_dec (map fst props)))) = None).
      { destruct strip; [reflexivity|]. apply lookup_None.
        rewrite map_map. simpl. rewrite map_id. intros Hin.
        apply filter_In in Hin as [_ Hin].
        apply negb_true_iff in Hin. unfold mem in Hin.
        assert (Hex : existsb (String.eqb k) (map fst casted) = true).
        { apply existsb_exists. exists k. split; [|apply String.eqb_refl].
          apply lookup_In in Hk. change k with (fst (k, (x, c))). now apply in_map. }
        congruence. }
      simpl in Hex. rewrite Hex. destruct x; simpl in Hu; congruence.
    + reflexivity.
  - apply orb_false_iff in Hch as [Hch _].
    symmetry. apply Hc.
    destruct c; [|reflexivity].
    exfalso. apply not_true_iff_false in Hch. apply Hch.
    apply existsb_exists. exists (k, (x, true)). split; [|reflexivity].
    apply in_rev. rewrite rev_involutive. now apply lookup_In.
Qed.

(** The cast host method of an object value by an object schema, spelled out. *)
Lemma cast_object_eq sp fields props :
  cast host method (SObject sp fields) (VObj props)
  = cast_object_loop (sp_noUnknown (spec_of (resolve method (SObject sp fields))))
      (map (fun kf => (fst kf, cast host method (snd kf) (get_prop (VObj props) (fst kf)))) fields)
      (VObj props).
Proof.
  simpl. unfold cast_object_loop.
  now destruct (existsb _ _ || _).
Qed.

(** An object cast host method gives each declared field the cast host method of what the value held
    under its key. *)
Lemma cast_object_get sp fields props k f :
  NoDup (map fst fields) ->
  lookup k fields = Some f ->
  get_prop (fst (cast host method (SObject sp fields) (VObj props))) k
  = fst (cast host method f (get_prop (VObj props) k)).
Proof.
  intros Hnd Hk. rewrite cast_object_eq.
  apply loop_get_known with (c := snd (cast host method f (get_prop (VObj props) k))).
  - now rewrite map_fst_map.
  - rewrite (lookup_map (fun k0 f0 => cast host method f0 (get_prop (VObj props) k0))).
    rewrite Hk. simpl. now destruct (cast host method f _).
  - intros Hc. now apply cast_unchanged.
Qed.

End CastFacts.

(** *** Where failures are reported *)

Section ValidateFacts.
Variable flag : bool.
Variable method : option Yup.method.

Lemma initial_errors_path s p v e : In e (initial_errors s p v) -> e_path e = p.
Proof.
  unfold initial_errors. intros H. apply in_app_or in H as [H|H].
  - destruct (negb (is_undefined v) && negb (isType s v)); simpl in H;
      [destruct H as [<-|[]]; reflexivity | contradiction].
  - destruct (sp_whitelist (spec_of s)); [|contradiction].
    destruct (is_undefined v || existsb (same_value_zero v) l); simpl in H;
      [contradiction | destruct H as [<-|[]]; reflexivity].
Qed.

Lemma test_errors_In s p v e :
  In e (test_errors flag s p v) <->
  exists t, In t (sp_tests (spec_of s)) /\ run_test flag s t v = false
            /\ e = {| e_path := p; e_type := t_name t |}.
Proof.
  unfold test_errors. rewrite in_flat_map. split.
  - intros (t & Ht & He). exists t. split; [exact Ht|].
    destruct (run_test flag s t v); simpl in He; [contradiction|].
    destruct He as [<-|[]]. auto.
  - intros (t & Ht & Hr & ->). exists t. split; [exact Ht|].
    rewrite Hr. now left.
Qed.

Lemma own_errors_path s p v e : In e (own_errors flag s p v) -> e_path e = p.
Proof.
  unfold own_errors.
  destruct (initial_errors s p v) eqn:Hi.
  - intros H. apply test_errors_In in H as (t & _ & _ & ->). reflexivity.
  - rewrite <- Hi. apply initial_errors_path.
Qed.

Lemma validate_at_eq s p v :
  validate_at flag method s p v
  = own_errors flag (resolve method s) p v ++
    match s with
    | SObject _ fields =>
        if isObject v
        then flat_map (fun kf =>
               validate_at flag method (snd kf) (p ++ [Key (fst kf)]) (get_prop v (fst kf))) fields
        else []
    | SArray _ (Some innerType) =>
        match v with
        | VArr items =>
            flat_map (fun ix => validate_at flag method innerType (p ++ [Index (fst ix)]) (snd ix))
              (indexed items)
        | _ => []
        end
    | _ => []
    end.
Proof. destruct s; reflexivity. Qed.

(** Every failure is reported at the path validated or below it. *)
Lemma validate_at_prefix s : forall p v e,
  In e (validate_at flag method s p v) -> exists rest, e_path e = p ++ rest.
Proof.
  induction s as [sp|sp|sp|sp fields IH|sp|sp innerType IH] using schema_ind';
    intros p v e; rewrite validate_at_eq; intros H; apply in_app_or in H as [H|H];
    try (exists []; rewrite app_nil_r; now apply own_errors_path in H);
    try contradiction.
  - destruct (isObject v); [|contradiction].
    apply in_flat_map in H as (kf & Hkf & He).
    rewrite Forall_forall in IH.
    destruct (IH kf Hkf _ _ _ He) as (rest & ->).
    exists (Key (fst kf) :: rest). now rewrite <- app_assoc.
  - destruct v; try contradiction.
    apply in_flat_map in H as (ix & _ & He).
    destruct (IH _ _ _ He) as (rest & ->).
    exists (Index (fst ix) :: rest). now rewrite <- app_assoc.
Qed.

(** A failure reported at the very path validated is one of the schema's own
    tests. *)
Lemma validate_at_here s p v e :
  In e (validate_at flag method s p v) -> e_path e = p ->
  In e (own_errors flag (resolve method s) p v).
Proof.
  rewrite validate_at_eq. intros H Hp. apply in_app_or in H as [H|H]; [exact H|].
  exfalso.
  assert (Hlen : forall seg rest, e_path e = (p ++ [seg]) ++ rest -> False).
  { intros seg rest Heq. rewrite Hp in Heq. apply (f_equal (@List.length _)) in Heq.
    rewrite !length_app in Heq. simpl in Heq. lia. }
  destruct s as [sp|sp|sp|sp fields|sp [innerType|]]; try contradiction.
  - destruct (isObject v); [|contradiction].
    apply in_flat_map in H as (kf & _ & He).
    apply validate_at_prefix in He as (rest & He). eauto.
  - destruct v; try contradiction.
    apply in_flat_map in H as (ix & _ & He).
    apply validate_at_prefix in He as (rest & He). eauto.
Qed.

(** The failures an object validation reports under the key [k] are those of
    the field [k]. *)
Lemma object_errors_under sp fields props p k f e rest :
  NoDup (map fst fields) ->
  lookup k fields = Some f ->
  e_path e = p ++ Key k :: rest ->
  In e (validate_at flag method (SObject sp fields) p (VObj props)) <->
  In e (validate_at flag method f (p ++ [Key k]) (get_prop (VObj props) k)).
Proof.
  intros Hnd Hk Hp. rewrite (validate_at_eq (SObject sp fields)). simpl isObject. cbv iota.
  rewrite in_app_iff, in_flat_map. split.
  - intros [H|(kf & Hkf & He)].
    + apply own_errors_path in H. rewrite H in Hp.
      apply (f_equal (@List.length _)) in Hp. rewrite length_app in Hp. simpl in Hp. lia.
    + destruct (validate_at_prefix _ _ _ _ He) as (rest' & Hp').
      rewrite Hp, <- app_assoc in Hp'. apply app_inv_head in Hp'.
      injection Hp' as Hkk _.
      destruct kf as [k' f']. simpl in *. subst k'.
      apply (In_lookup _ _ _ Hnd) in Hkf. rewrite Hk in Hkf. now injection Hkf as ->.
  - intros He. right. exists (k, f). split; [now apply lookup_In | exact He].
Qed.

End ValidateFacts.

(** *** Identity pairs *)

Lemma errors_of_validate host flag m s strict v :
  errors_of (validate host flag m s strict v)
  = validate_at flag m s [] (if strict then v else fst (cast host m s v)).
Proof.
  unfold validate. now destruct (validate_at _ _ _ _ _).
Qed.

Lemma BountySchema_shape :
  BountySchema = SObject (spec_of BountySchema) (fields_of BountySchema).
Proof. reflexivity. Qed.

Lemma BountySchema_nodup : NoDup (map fst (fields_of BountySchema)).
Proof.
  vm_compute. repeat (constructor; [simpl; intuition discriminate|]). constructor.
Qed.

Lemma cast_object_is_obj host m sp fields props :
  exists props', fst (cast host m (SObject sp fields) (VObj props)) = VObj props'.
Proof.
  rewrite cast_object_eq. unfold cast_object_loop.
  destruct (existsb _ _ || _); simpl; eauto.
Qed.

Lemma bothRequired_xor (v : value) :
  isObject v = true ->
  bothRequiredIfOneRequired v = false <->
  xorb (truthy (get_prop v "discordId")) (truthy (get_prop v "discordHandle")) = true.
Proof.
  destruct v; try discriminate. intros _.
  unfold bothRequiredIfOneRequired, js_and, js_or. cbn [truthy].
  destruct (truthy (get_prop (VObj props) "discordHandle")) eqn:Hh;
    destruct (truthy (get_prop (VObj props) "discordId")) eqn:Hi;
    rewrite ?Hh, ?Hi; simpl; intuition congruence.
Qed.

Lemma pair_rule_own flag m sch p o :
  In sch pair_schemas ->
  In (is_optional_at p) (own_errors flag (resolve m sch) p (VObj o)) <->
  bothRequiredIfOneRequired (VObj o) = false.
Proof.
  intros Hsch.
  assert (Hinit : initial_errors (resolve m sch) p (VObj o) = []).
  { repeat (destruct Hsch as [<-|Hsch]; [destruct m as [[|]|]; reflexivity|]).
    destruct Hsch. }
  unfold own_errors. rewrite Hinit. rewrite test_errors_In.
  split.
  - intros (t & Ht & Hr & He).
    unfold is_optional_at in He. injection He as Hn.
    repeat (destruct Hsch as [<-|Hsch];
      [destruct m as [[|]|]; simpl in Ht;
       repeat (destruct Ht as [<-|Ht]; [first [discriminate Hn | exact Hr]|]);
       destruct Ht|]).
    destruct Hsch.
  - intros Hb.
    exists {| t_name := "is-optional";
              t_fn := TCustom (fun params => bothRequiredIfOneRequired params) |}.
    split; [|split; [exact Hb | reflexivity]].
    repeat (destruct Hsch as [<-|Hsch];
      [destruct m as [[|]|]; simpl; auto|]).
    destruct Hsch.
Qed.

Lemma own_in_validate_at flag m s p v e :
  In e (own_errors flag (resolve m s) p v) -> In e (validate_at flag m s p v).
Proof. rewrite validate_at_eq. intros H. apply in_or_app. now left. Qed.

Lemma validate_at_here_iff flag m s p v e :
  e_path e = p ->
  In e (validate_at flag m s p v) <-> In e (own_errors flag (resolve m s) p v).
Proof.
  intros Hp. split; [intros H; now apply validate_at_here | apply own_in_validate_at].
Qed.

(** The string fields of an identity pair: casting leaves a string, or no
    value, as it is. *)
Lemma cast_pair_member host m sub x :
  In sub [optional string_; when_method false string_] ->
  string_or_undefined x = true ->
  fst (cast host m sub x) = x.
Proof.
  intros Hsub Hx.
  repeat (destruct Hsub as [<-|Hsub];
          [destruct m as [[|]|]; destruct x; try discriminate; reflexivity|]).
  destruct Hsub.
Qed.

Lemma pair_schema_fields sch k :
  In sch pair_schemas -> In k ["discordId"; "discordHandle"] ->
  sch = SObject (spec_of sch) (fields_of sch)
  /\ NoDup (map fst (fields_of sch))
  /\ exists sub, lookup k (fields_of sch) = Some sub
                 /\ In sub [optional string_; when_method false string_].
Proof.
  intros Hsch Hk.
  repeat (destruct Hsch as [<-|Hsch];
    [split; [reflexivity|]; split;
      [vm_compute; repeat (constructor; [simpl; intuition discriminate|]); constructor|];
     repeat (destruct Hk as [<-|Hk];
       [eexists; split; [reflexivity|]; simpl; auto|]); destruct Hk|]).
  destruct Hsch.
Qed.

(** What the pairing test reports for an identity object, whether the object
    is validated as it is or after its cast. *)
Lemma pair_field_errors host flag m (strict : bool) sch p o :
  In sch pair_schemas ->
  strict = true
  \/ (string_or_undefined (get_prop (VObj o) "discordId") = true
      /\ string_or_undefined (get_prop (VObj o) "discordHandle") = true) ->
  In (is_optional_at p)
     (validate_at flag m sch p (if strict then VObj o else fst (cast host m sch (VObj o))))
  <-> xorb (truthy (get_prop (VObj o) "discordId"))
           (truthy (get_prop (VObj o) "discordHandle")) = true.
Proof.
  intros Hsch Htyped.
  assert (HV : exists o',
    (if strict then VObj o else fst (cast host m sch (VObj o))) = VObj o'
    /\ get_prop (VObj o') "discordId" = get_prop (VObj o) "discordId"
    /\ get_prop (VObj o') "discordHandle" = get_prop (VObj o) "discordHandle").
  { destruct strict; [exists o; auto|].
    destruct Htyped as [Hs|[Hid Hh]]; [discriminate|].
    destruct (pair_schema_fields sch "discordId" Hsch (or_introl eq_refl))
      as (Hshape & Hnd & sub1 & Hl1 & Hs1).
    destruct (pair_schema_fields sch "discordHandle" Hsch (or_intror (or_introl eq_refl)))
      as (_ & _ & sub2 & Hl2 & Hs2).
    rewrite Hshape.
    destruct (cast_object_is_obj host m (spec_of sch) (fields_of sch) o) as (o' & Ho').
    exists o'. split; [exact Ho'|]. rewrite <- Ho'.
    rewrite (cast_object_get host m _ _ _ _ _ Hnd Hl1),
            (cast_object_get host m _ _ _ _ _ Hnd Hl2).
    split; now apply cast_pair_member. }
  destruct HV as (o' & -> & Hi' & Hh').
  rewrite validate_at_here_iff by reflexivity.
  rewrite pair_rule_own by exact Hsch.
  rewrite bothRequired_xor by reflexivity.
  now rewrite Hi', Hh'.
Qed.

(** *** Arrays *)

Lemma indexed_from_In {A} (l : list A) : forall start i x,
  In (i, x) (combine (seq start (List.length l)) l) <->
  start <= i /\ nth_error l (i - start) = Some x.
Proof.
  induction l as [|y l IH]; intros start i x; simpl.
  - split; [contradiction|]. intros [_ H]. now destruct (i - start).
  - rewrite IH. split.
    + intros [Heq|[Hle Hn]].
      * injection Heq as -> ->. split; [lia|]. now rewrite Nat.sub_diag.
      * split; [lia|]. replace (i - start) with (S (i - S start)) by lia. exact Hn.
    + intros [Hle Hn]. destruct (i - start) as [|n] eqn:Hd.
      * left. simpl in Hn. injection Hn as ->. f_equal. lia.
      * right. split; [lia|]. simpl in Hn. replace (i - S start) with n by lia. exact Hn.
Qed.

Lemma indexed_In {A} (l : list A) i x :
  In (i, x) (indexed l) <-> nth_error l i = Some x.
Proof.
  unfold indexed. rewrite indexed_from_In, Nat.sub_0_r. intuition lia.
Qed.

Section ArrayFacts.
Variable host : Host.
Variable flag : bool.
Variable method : option Yup.method.

(** The failures an array validation reports under the index [i] are those of
    the item [i]. *)
Lemma array_errors_under sp innerType items p i x e rest :
  nth_error items i = Some x ->
  e_path e = p ++ Index i :: rest ->
  In e (validate_at flag method (SArray sp (Some innerType)) p (VArr items)) <->
  In e (validate_at flag method innerType (p ++ [Index i]) x).
Proof.
  intros Hn Hp. rewrite (validate_at_eq _ _ (SArray sp (Some innerType))).
  rewrite in_app_iff, in_flat_map. split.
  - intros [H|(ix & Hix & He)].
    + apply own_errors_path in H. rewrite H in Hp.
      apply (f_equal (@List.length _)) in Hp. rewrite length_app in Hp. simpl in Hp. lia.
    + destruct (validate_at_prefix _ _ _ _ _ _ He) as (rest' & Hp').
      rewrite Hp, <- app_assoc in Hp'. apply app_inv_head in Hp'.
      injection Hp' as Hii _.
      destruct ix as [i' x']. simpl in *. subst i'.
      apply indexed_In in Hix. rewrite Hn in Hix. now injection Hix as ->.
  - intros He. right. exists (i, x). split; [now apply indexed_In | exact He].
Qed.

(** An array cast gives each position the cast of the item it held. *)
Lemma cast_array_nth sp innerType items :
  exists items',
    fst (cast host method (SArray sp (Some innerType)) (VArr items)) = VArr items'
    /\ forall i, nth_error items' i
                 = option_map (fun x => fst (cast host method innerType x)) (nth_error items i).
Proof.
  simpl.
  destruct (existsb snd (map (cast host method innerType) items)) eqn:Hch; simpl.
  - eexists. split; [reflexivity|]. intros i.
    rewrite nth_error_map, nth_error_map. now destruct (nth_error items i).
  - exists items. split; [reflexivity|]. intros i.
    destruct (nth_error items i) as [x|] eqn:Hn; [|reflexivity]. simpl. f_equal.
    symmetry. apply cast_unchanged.
    destruct (snd (cast host method innerType x)) eqn:Hs; [|reflexivity].
    exfalso. apply not_true_iff_false in Hch. apply Hch.
    apply existsb_exists. exists (cast host method innerType x). split; [|exact Hs].
    apply in_map. now apply nth_error_In in Hn.
Qed.

End ArrayFacts.

(** *** Records and the status enumeration *)

Lemma BountyClaimSchema_shape :
  BountyClaimSchema = SObject (spec_of BountyClaimSchema) (fields_of BountyClaimSchema).
Proof. reflexivity. Qed.

Lemma BountyClaimSchema_nodup : NoDup (map fst (fields_of BountyClaimSchema)).
Proof.
  vm_compute. repeat (constructor; [simpl; intuition discriminate|]). constructor.
Qed.

(** What a record validation reports under the key [k] is what validating the
    field [k] reports, on the property as it is or on its cast. *)
Lemma record_field_errors host flag m (strict : bool) sp fields props k f e rest :
  NoDup (map fst fields) ->
  lookup k fields = Some f ->
  e_path e = Key k :: rest ->
  In e (errors_of (validate host flag m (SObject sp fields) strict (VObj props)))
  <-> In e (validate_at flag m f [Key k]
              (if strict then get_prop (VObj props) k
               else fst (cast host m f (get_prop (VObj props) k)))).
Proof.
  intros Hnd Hl Hp. rewrite errors_of_validate. destruct strict.
  - now apply (object_errors_under flag m sp fields props [] k f e rest).
  - destruct (cast_object_is_obj host m sp fields props) as (props' & Hp').
    pose proof (cast_object_get host m sp fields props k f Hnd Hl) as Hg.
    rewrite Hp' in *. rewrite <- Hg.
    now apply (object_errors_under flag m sp fields props' [] k f e rest).
Qed.

Lemma in_statuses_existsb (x : value) :
  existsb (same_value_zero x) (map VStr statuses) = true <-> in_statuses x.
Proof.
  unfold in_statuses. rewrite existsb_exists. split.
  - intros (y & Hy & Hs). apply in_map_iff in Hy as (s & <- & Hin).
    destruct x; try discriminate. simpl in Hs. apply String.eqb_eq in Hs. subst.
    eauto.
  - intros (s & -> & Hin). exists (VStr s). split; [now apply in_map|].
    simpl. apply String.eqb_refl.
Qed.

Lemma status_own flag m sch p x :
  In sch status_schemas ->
  In (one_of_at p) (own_errors flag (resolve m sch) p x) <->
  x <> VUndefined /\ ~ in_statuses x.
Proof.
  intros Hsch.
  assert (Hinit : initial_errors (resolve m sch) p x
                  = if is_undefined x || existsb (same_value_zero x) (map VStr statuses)
                    then [] else [one_of_at p]).
  { repeat (destruct Hsch as [<-|Hsch];
            [destruct m as [[|]|]; destruct x; reflexivity|]).
    destruct Hsch. }
  unfold own_errors. rewrite Hinit.
  destruct (is_undefined x) eqn:Hu; cbn [orb].
  - destruct x; try discriminate. rewrite test_errors_In. split.
    + intros (t & Ht & _ & He). exfalso. injection He as Hn.
      repeat (destruct Hsch as [<-|Hsch];
        [destruct m as [[|]|]; simpl in Ht;
         repeat (destruct Ht as [<-|Ht]; [discriminate Hn|]); destruct Ht|]).
      destruct Hsch.
    + intros [H _]. congruence.
  - destruct (existsb (same_value_zero x) (map VStr statuses)) eqn:Hex.
    + apply in_statuses_existsb in Hex. rewrite test_errors_In. split.
      * intros (t & Ht & _ & He). exfalso. injection He as Hn.
        repeat (destruct Hsch as [<-|Hsch];
          [destruct m as [[|]|]; simpl in Ht;
           repeat (destruct Ht as [<-|Ht]; [discriminate Hn|]); destruct Ht|]).
        destruct Hsch.
      * intros [_ H]. contradiction.
    + split.
      * intros _. split; [intros ->; discriminate|].
        intros H. apply in_statuses_existsb in H. congruence.
      * intros _. now left.
Qed.

Lemma cast_status host m sch x :
  In sch status_schemas -> fst (cast host m sch x) = x.
Proof.
  intros Hsch.
  repeat (destruct Hsch as [<-|Hsch]; [destruct m as [[|]|]; destruct x; reflexivity|]).
  destruct Hsch.
Qed.

(** The status of a record. *)
Lemma status_field_enumeration host flag m strict sch props :
  In sch [BountySchema; BountyClaimSchema] ->
  In (one_of_at [Key "status"])
     (errors_of (validate host flag m sch strict (VObj props)))
  <-> get_prop (VObj props) "status" <> VUndefined
      /\ ~ in_statuses (get_prop (VObj props) "status").
Proof.
  intros Hsch.
  assert (H : exists f, sch = SObject (spec_of sch) (fields_of sch)
                        /\ NoDup (map fst (fields_of sch))
                        /\ lookup "status" (fields_of sch) = Some f
                        /\ In f status_schemas).
  { destruct Hsch as [<-|[<-|[]]]; eexists;
      (split; [reflexivity|]); (split; [first [apply BountySchema_nodup | apply BountyClaimSchema_nodup]|]);
      (split; [reflexivity|]); simpl; auto. }
  destruct H as (f & Hshape & Hnd & Hl & Hf).
  rewrite Hshape.
  rewrite (record_field_errors host flag m strict _ _ props "status" f _ [] Hnd Hl)
    by reflexivity.
  rewrite (cast_status host m f _ Hf).
  replace (if strict then get_prop (VObj props) "status" else get_prop (VObj props) "status")
    with (get_prop (VObj props) "status") by now destruct strict.
  rewrite validate_at_here_iff by reflexivity.
  now apply status_own.
Qed.

Lemma StatusHistory_nodup : NoDup (map fst (fields_of StatusHistory)).
Proof.
  vm_compute. repeat (constructor; [simpl; intuition discriminate|]). constructor.
Qed.

(** The status of an entry of the status history of a record. *)
Lemma history_entry_enumeration host flag m (strict : bool) sch props items i e :
  In sch [BountySchema; BountyClaimSchema] ->
  get_prop (VObj props) "statusHistory" = VArr items ->
  nth_error items i = Some (VObj e) ->
  In (one_of_at [Key "statusHistory"; Index i; Key "status"])
     (errors_of (validate host flag m sch strict (VObj props)))
  <-> get_prop (VObj e) "status" <> VUndefined
      /\ ~ in_statuses (get_prop (VObj e) "status").
Proof.
  intros Hsch Hget Hnth.
  assert (H : exists spf, sch = SObject (spec_of sch) (fields_of sch)
                /\ NoDup (map fst (fields_of sch))
                /\ lookup "statusHistory" (fields_of sch)
                   = Some (SArray spf (Some StatusHistory))).
  { destruct Hsch as [<-|[<-|[]]]; eexists;
      (split; [reflexivity|]);
      (split; [first [apply BountySchema_nodup | apply BountyClaimSchema_nodup]|]);
      reflexivity. }
  destruct H as (spf & Hshape & Hnd & Hl).
  rewrite Hshape.
  rewrite (record_field_errors host flag m strict _ _ props "statusHistory" _ _
             [Index i; Key "status"] Hnd Hl) by reflexivity.
  rewrite Hget.
  (* the array the field validation sees, and its item [i] *)
  assert (HV : exists items' e',
    (if strict then VArr items
     else fst (cast host m (SArray spf (Some StatusHistory)) (VArr items))) = VArr items'
    /\ nth_error items' i = Some (VObj e')
    /\ get_prop (VObj e') "status" = get_prop (VObj e) "status").
  { destruct strict; [exists items, e; auto|].
    destruct (cast_array_nth host m spf StatusHistory items) as (items' & Hi' & Hn').
    destruct (cast_object_is_obj host m (spec_of StatusHistory) (fields_of StatusHistory) e)
      as (e' & He').
    exists items', e'. split; [exact Hi'|]. split.
    - rewrite Hn', Hnth. simpl. f_equal. exact He'.
    - rewrite <- He'.
      rewrite (cast_object_get host m _ _ e "status" Status StatusHistory_nodup eq_refl).
      apply cast_status. simpl. auto. }
  destruct HV as (items' & e' & -> & Hn' & Hx).
  rewrite (array_errors_under flag m spf StatusHistory items' [Key "statusHistory"] i
             (VObj e') _ [Key "status"] Hn') by reflexivity.
  change StatusHistory with (SObject (spec_of StatusHistory) (fields_of StatusHistory)).
  rewrite (object_errors_under flag m _ _ e' _ "status" Status _ []
             StatusHistory_nodup eq_refl) by reflexivity.
  rewrite validate_at_here_iff by reflexivity.
  rewrite status_own by (simpl; auto).
  now rewrite Hx.
Qed.

(** *** The reward amount *)

(** A double below zero is a number, and zero is not below or equal to it. *)
Lemma negative_number (n : float) :
  PrimFloat.ltb n PrimFloat.zero = true ->
  PrimFloat.is_nan n = false /\ PrimFloat.leb PrimFloat.zero n = false.
Proof.
  unfold PrimFloat.is_nan.
  rewrite ltb_spec, leb_spec, eqb_spec.
  replace (Prim2SF PrimFloat.zero) with (S754_zero false) by reflexivity.
  destruct (Prim2SF n) as [s|s| |s mant e]; try destruct s; simpl; try discriminate; auto.
  - intros _. split; [|reflexivity].
    unfold SFeqb, SFcompare. rewrite Z.compare_refl, Pos.compare_refl. reflexivity.
Qed.

Lemma errors_of_In (r : result) (e : error) :
  In e (errors_of r) -> exists errs, r = Err errs /\ In e errs.
Proof. destruct r; simpl; [contradiction | eauto]. Qed.

Lemma reward_field_shape :
  when_method true Reward
  = SObject (spec_of (when_method true Reward)) (fields_of Reward).
Proof. reflexivity. Qed.

Lemma Reward_nodup : NoDup (map fst (fields_of Reward)).
Proof.
  vm_compute. repeat (constructor; [simpl; intuition discriminate|]). constructor.
Qed.

(** *** Unknown keys *)

Lemma mem_In k ks : mem k ks = true <-> In k ks.
Proof.
  unfold mem. rewrite existsb_exists. split.
  - intros (x & Hx & He). apply String.eqb_eq in He. now subst.
  - intros H. exists k. split; [exact H | apply String.eqb_refl].
Qed.

Lemma unknown_nil s v :
  unknown s v = [] <-> forall k, In k (own_keys v) -> In k (declared s).
Proof.
  unfold unknown, declared. split.
  - intros H k Hk. destruct (mem k (map fst (fields_of s))) eqn:Hm.
    + now apply mem_In.
    + exfalso. assert (Hin : In k []); [|exact Hin].
      rewrite <- H. apply filter_In. split; [exact Hk|]. now rewrite Hm.
  - intros H. destruct (filter _ _) as [|k l] eqn:Hf; [reflexivity|].
    exfalso. assert (Hin : In k (k :: l)) by now left.
    rewrite <- Hf in Hin. apply filter_In in Hin as [Hk Hm].
    apply H, mem_In in Hk. rewrite Hk in Hm. discriminate.
Qed.

Lemma record_own_errors flag m sch p props e :
  In sch [BountySchema; BountyClaimSchema] ->
  e_type e = "noUnknown" ->
  In e (own_errors flag (resolve m sch) p (VObj props)) <->
  e = no_unknown_at p /\ unknown sch (VObj props) <> [].
Proof.
  intros Hsch Hty.
  assert (Hinit : initial_errors (resolve m sch) p (VObj props) = []).
  { destruct Hsch as [<-|[<-|[]]]; destruct m as [[|]|]; reflexivity. }
  assert (Hf : fields_of (resolve m sch) = fields_of sch).
  { destruct Hsch as [<-|[<-|[]]]; destruct m as [[|]|]; reflexivity. }
  unfold own_errors. rewrite Hinit, test_errors_In. split.
  - intros (t & Ht & Hr & ->). simpl in Hty.
    assert (Hfn : t_fn t = TNoUnknown).
    { destruct Hsch as [<-|[<-|[]]]; destruct m as [[|]|]; simpl in Ht;
        repeat (destruct Ht as [<-|Ht]; [first [discriminate Hty | reflexivity]|]);
        destruct Ht. }
    unfold run_test in Hr. rewrite Hfn in Hr. simpl in Hr.
    unfold unknown in *. rewrite Hf in Hr.
    split; [unfold no_unknown_at; now rewrite Hty|].
    intros Hn. rewrite Hn in Hr. discriminate.
  - intros [-> Hu]. exists {| t_name := "noUnknown"; t_fn := TNoUnknown |}.
    split; [destruct Hsch as [<-|[<-|[]]]; destruct m as [[|]|]; simpl; auto|].
    split; [|reflexivity].
    unfold run_test. simpl. unfold unknown in *. rewrite Hf.
    destruct (filter _ _); [congruence | reflexivity].
Qed.

Lemma known_of_keys nodes k :
  In k (map fst (known_of nodes)) -> In k (map fst nodes).
Proof.
  unfold known_of. induction nodes as [|[k' [x c]] nodes IH]; simpl; [tauto|].
  rewrite map_app, in_app_iff. intros [H|H]; [|right; now apply IH].
  destruct (is_undefined x); simpl in H; [contradiction|]. left. tauto.
Qed.

(** After a stripping cast, a key the schema does not declare survives only
    when the value held [undefined] under it. *)
Lemma loop_strips casted props k :
  In k (own_keys (fst (cast_object_loop true casted (VObj props)))) ->
  ~ In k (map fst casted) ->
  In k (own_keys (VObj props)) /\ get_prop (VObj props) k = VUndefined.
Proof.
  unfold cast_object_loop. cbn [andb].
  destruct (existsb (fun kc => snd (snd kc)) (rev casted)
            || existsb (fun k0 => negb (is_undefined (get_prop (VObj props) k0)))
                 (filter (fun k0 => negb (mem k0 (map fst casted))) (own_keys (VObj props))))
    eqn:Hch; cbn [fst].
  - intros Hk Hn. exfalso. apply Hn. cbn [own_keys] in Hk.
    apply nodup_In in Hk. rewrite app_nil_r in Hk.
    apply known_of_keys in Hk. rewrite map_rev in Hk. now apply in_rev in Hk.
  - intros Hk Hn. split; [exact Hk|].
    apply orb_false_iff in Hch as [_ Hch].
    destruct (is_undefined (get_prop (VObj props) k)) eqn:Hu.
    + destruct (get_prop (VObj props) k); try discriminate. reflexivity.
    + exfalso. apply not_true_iff_false in Hch. apply Hch.
      apply existsb_exists. exists k. split; [|now rewrite Hu].
      apply filter_In. split; [exact Hk|].
      apply negb_true_iff, not_true_iff_false. intros Hm. now apply mem_In in Hm.
Qed.

(** *** Omitted keys *)

Lemma lookup_set_prop k x props k' :
  lookup k' (set_prop k x props) = if String.eqb k' k then Some x else lookup k' props.
Proof.
  induction props as [|[k0 y] props IH]; simpl.
  - reflexivity.
  - destruct (String.eqb_spec k k0) as [->|Hne]; simpl.
    + now destruct (String.eqb k' k0).
    + rewrite IH. destruct (String.eqb_spec k' k0) as [->|Hne'].
      * apply not_eq_sym, String.eqb_neq in Hne. now rewrite Hne.
      * reflexivity.
Qed.

Lemma assign_other target source f :
  ~ In f (own_keys source) ->
  get_prop (assign target source) f = get_prop target f.
Proof.
  intros Hf. unfold assign.
  assert (H : forall ks acc, ~ In f ks ->
            lookup f (fold_left (fun acc k => set_prop k (get_prop source k) acc) ks acc)
            = lookup f acc).
  { induction ks as [|k ks IH]; intros acc Hn; simpl; [reflexivity|].
    rewrite IH by (intros H; apply Hn; now right).
    rewrite lookup_set_prop.
    destruct (String.eqb_spec f k) as [->|Hne]; [|reflexivity].
    exfalso. apply Hn. now left. }
  simpl. rewrite (H _ _ Hf). now destruct target.
Qed.

Lemma known_of_In nodes k :
  In k (map fst (known_of nodes)) ->
  exists x c, In (k, (x, c)) nodes /\ is_undefined x = false.
Proof.
  unfold known_of. induction nodes as [|[k' [x c]] nodes IH]; simpl; [tauto|].
  rewrite map_app, in_app_iff. intros [H|H].
  - destruct (is_undefined x) eqn:Hu; simpl in H; [contradiction|].
    destruct H as [<-|[]]. exists x, c. auto.
  - destruct (IH H) as (x' & c' & Hin & Hu). exists x', c'. auto.
Qed.

(** A key the value does not have, and whose field casts no value to a value,
    is not in the cast object either. *)
Lemma loop_absent_key strip casted props f :
  ~ In f (own_keys (VObj props)) ->
  (forall x c, In (f, (x, c)) casted -> x = VUndefined) ->
  ~ In f (own_keys (fst (cast_object_loop strip casted (VObj props)))).
Proof.
  intros Hf Hc. unfold cast_object_loop.
  destruct (existsb _ _ || _); cbn [fst]; [|exact Hf].
  cbn [own_keys]. rewrite nodup_In, map_app, in_app_iff. intros [H|H].
  - apply known_of_In in H as (x & c & Hin & Hu).
    apply in_rev in Hin. rewrite (Hc x c Hin) in Hu. discriminate.
  - destruct strip; [contradiction|].
    rewrite map_map in H. simpl in H. rewrite map_id in H.
    apply filter_In in H as [H _]. now apply Hf.
Qed.

Lemma get_prop_absent props f :
  ~ In f (own_keys (VObj props)) -> get_prop (VObj props) f = VUndefined.
Proof.
  intros Hf. simpl in *. rewrite nodup_In in Hf.
  apply lookup_None in Hf. now rewrite Hf.
Qed.

Lemma update_field_absent host f sf :
  In (f, sf) (fields_of BountySchema) ->
  fst (cast host (Some PATCH) sf VUndefined) = VUndefined.
Proof.
  intros H. simpl in H.
  repeat (destruct H as [H|H]; [injection H as <- <-; reflexivity|]).
  destruct H.
Qed.

Lemma validate_Ok host flag m s (strict : bool) v out :
  validate host flag m s strict v = Ok out ->
  out = (if strict then v else fst (cast host m s v))
  /\ validate_at flag m s [] out = [].
Proof.
  unfold validate.
  destruct (validate_at flag m s [] (if strict then v else fst (cast host m s v))) eqn:Hv;
    [|discriminate].
  intros H. assert (Ho : out = (if strict then v else fst (cast host m s v))) by congruence.
  split; [exact Ho|]. now rewrite Ho.
Qed.

(** *** Missing fields *)

Lemma lookup_remove_prop f props k :
  lookup k (remove_prop f props) = if String.eqb k f then None else lookup k props.
Proof.
  unfold remove_prop. revert k. induction props as [|[k' x] props IH]; intros k; simpl.
  - now destruct (String.eqb k f).
  - destruct (String.eqb_spec k' f) as [->|Hne]; simpl.
    + rewrite IH. now destruct (String.eqb_spec k f).
    + rewrite IH. destruct (String.eqb_spec k k') as [->|Hne'].
      * apply String.eqb_neq in Hne. now rewrite Hne.
      * reflexivity.
Qed.

Lemma get_prop_remove_other f props k :
  k <> f -> get_prop (VObj (remove_prop f props)) k = get_prop (VObj props) k.
Proof.
  intros Hne. simpl. rewrite lookup_remove_prop.
  apply String.eqb_neq in Hne. now rewrite Hne.
Qed.

Lemma get_prop_remove_same f props :
  get_prop (VObj (remove_prop f props)) f = VUndefined.
Proof. simpl. now rewrite lookup_remove_prop, String.eqb_refl. Qed.

Lemma own_keys_remove f props k :
  In k (own_keys (VObj (remove_prop f props))) -> In k (own_keys (VObj props)).
Proof.
  simpl. rewrite !nodup_In, !in_map_iff. intros (kv & Hk & Hin).
  apply filter_In in Hin as [Hin _]. eauto.
Qed.

Lemma holds_values_remove f props :
  holds_values props = true -> holds_values (remove_prop f props) = true.
Proof.
  unfold holds_values, remove_prop. rewrite !forallb_forall.
  intros H kv Hin. apply filter_In in Hin as [Hin _]. now apply H.
Qed.

Lemma holds_values_get props k :
  holds_values props = true -> In k (own_keys (VObj props)) ->
  get_prop (VObj props) k <> VUndefined.
Proof.
  intros Hv Hk. simpl in *. rewrite nodup_In in Hk.
  destruct (lookup k props) as [x|] eqn:Hl.
  - apply lookup_In in Hl. unfold holds_values in Hv. rewrite forallb_forall in Hv.
    specialize (Hv _ Hl). simpl in Hv. now destruct x.
  - apply lookup_None in Hl. contradiction.
Qed.

Lemma flat_map_nil {A B} (g : A -> list B) l :
  flat_map g l = [] <-> forall a, In a l -> g a = [].
Proof.
  induction l as [|a l IH]; simpl.
  - tauto.
  - split.
    + intros H. apply app_eq_nil in H as [Ha Hl]. intros b [<-|Hb]; [exact Ha|].
      now apply IH.
    + intros H. rewrite (H a) by now left. simpl. apply IH. intros b Hb. apply H. now right.
Qed.

(** When one field alone reports failures, they are the failures of the
    record's fields. *)
Lemma flat_map_single {B} (g : string * schema -> list B) fields f sf :
  NoDup (map fst fields) ->
  In (f, sf) fields ->
  (forall kf, In kf fields -> fst kf <> f -> g kf = []) ->
  flat_map g fields = g (f, sf).
Proof.
  induction fields as [|[k s] fields IH]; simpl; [contradiction|].
  intros Hnd Hin Hother. inversion Hnd as [|? ? Hnotin Hnd']; subst.
  destruct Hin as [Heq|Hin].
  - injection Heq as -> ->.
    assert (Hrest : flat_map g fields = []).
    { apply flat_map_nil. intros kf Hkf. apply Hother; [now right|].
      intros Heq. apply Hnotin. rewrite <- Heq. now apply in_map. }
    now rewrite Hrest, app_nil_r.
  - rewrite (Hother (k, s)); [|now left|].
    + simpl. apply IH; auto.
    + simpl. intros ->. apply Hnotin. change f with (fst (f, sf)). now apply in_map.
Qed.

Lemma bounty_own_nil flag m props :
  own_errors flag (resolve m BountySchema) [] (VObj props) = [] <->
  unknown BountySchema (VObj props) = [].
Proof.
  split.
  - intros H. destruct (list_eq_dec string_dec (unknown BountySchema (VObj props)) [])
      as [Hu|Hu]; [exact Hu|exfalso].
    assert (Hin : In (no_unknown_at [])
                    (own_errors flag (resolve m BountySchema) [] (VObj props))).
    { apply (record_own_errors flag m BountySchema [] props (no_unknown_at []));
        simpl; auto. }
    rewrite H in Hin. exact Hin.
  - intros Hu. destruct m as [[|]|]; unfold own_errors; simpl;
      unfold test_errors, run_test; simpl;
      unfold unknown in *; simpl in *; now rewrite Hu.
Qed.

Lemma create_scalar_absent flag f sf :
  In f create_required_scalars ->
  lookup f (fields_of BountySchema) = Some sf ->
  validate_at flag (Some POST) sf [Key f] VUndefined = [defined_at [Key f]]
  /\ forall host, fst (cast host (Some POST) sf VUndefined) = VUndefined.
Proof.
  intros Hf. simpl in Hf.
  repeat (destruct Hf as [<-|Hf]; [intros [= <-]; split; reflexivity|]).
  destruct Hf.
Qed.

(** *** The reward *)

Lemma amount_field_ok flag m p a :
  validate_at flag m amount_field p a = [] <->
  (is_POST m = false /\ a = VUndefined) \/ nonneg_number a = true.
Proof.
  destruct m as [[|]|]; destruct a; simpl;
    unfold own_errors, initial_errors, test_errors, run_test; simpl;
    try (destruct (PrimFloat.is_nan n); simpl);
    try (destruct (PrimFloat.leb PrimFloat.zero n); simpl);
    intuition congruence.
Qed.

Lemma number_field_ok flag m p sch a :
  In sch [scale_field; plain_number_field] ->
  validate_at flag m sch p a = [] <->
  (is_POST m = false /\ a = VUndefined) \/ is_number a = true.
Proof.
  intros [<-|[<-|[]]]; destruct m as [[|]|]; destruct a; simpl;
    unfold own_errors, initial_errors, test_errors, run_test; simpl;
    try (destruct (PrimFloat.is_nan n); simpl);
    intuition congruence.
Qed.

Lemma currency_field_ok flag m p a :
  validate_at flag m currency_field p a = [] <->
  (is_POST m = false /\ a = VUndefined) \/ (exists s, a = VStr s).
Proof.
  destruct m as [[|]|]; destruct a; simpl;
    unfold own_errors, initial_errors, test_errors, run_test; simpl;
    split; intros H; try discriminate; try (right; eauto; fail);
    try (left; auto; fail); try reflexivity;
    destruct H as [[H1 H2]|[s' H]]; congruence.
Qed.

Lemma reward_own_nil flag m p r :
  own_errors flag (resolve m (when_method true Reward)) p (VObj r) = [] <->
  rewardAllDefined (VObj r) = true.
Proof.
  destruct m as [[|]|]; unfold own_errors, initial_errors, test_errors, run_test; simpl;
    destruct (rewardAllDefined (VObj r)); simpl; intuition congruence.
Qed.

Lemma rewardAllDefined_object r :
  rewardAllDefined (VObj r)
  = present_number (get_prop (VObj r) "amount")
    && present_number (get_prop (VObj r) "scale")
    && present_number (get_prop (VObj r) "amountWithoutScale")
    && truthy (get_prop (VObj r) "currency").
Proof. reflexivity. Qed.

Lemma present_nonneg m a :
  present_number a = true
  /\ ((is_POST m = false /\ a = VUndefined) \/ nonneg_number a = true)
  <-> nonneg_number a = true.
Proof.
  unfold present_number. split.
  - intros [Hp [[_ ->]|H]]; [discriminate | exact H].
  - intros H. split; [|now right].
    destruct a; try discriminate. simpl in *.
    apply andb_true_iff in H as [Hn _]. apply negb_true_iff in Hn. rewrite Hn.
    now destruct (PrimFloat.eqb n PrimFloat.zero).
Qed.

Lemma present_is_number m a :
  present_number a = true
  /\ ((is_POST m = false /\ a = VUndefined) \/ is_number a = true)
  <-> is_number a = true.
Proof.
  unfold present_number. split.
  - intros [Hp [[_ ->]|H]]; [discriminate | exact H].
  - intros H. split; [|now right].
    destruct a; try discriminate. simpl in *.
    apply negb_true_iff in H. rewrite H.
    now destruct (PrimFloat.eqb n PrimFloat.zero).
Qed.

Lemma present_currency m c :
  truthy c = true
  /\ ((is_POST m = false /\ c = VUndefined) \/ (exists s, c = VStr s))
  <-> nonempty_string c = true.
Proof.
  split.
  - intros [Hp [[_ ->]|[s ->]]]; [discriminate | exact Hp].
  - intros H. destruct c; try discriminate. split; [exact H | right; eauto].
Qed.

Lemma reward_fields_eq :
  fields_of (when_method true Reward)
  = [("amount", amount_field); ("currency", currency_field);
     ("scale", scale_field); ("amountWithoutScale", plain_number_field)].
Proof. reflexivity. Qed.

Lemma reward_object_ok flag m p r :
  validate_at flag m (when_method true Reward) p (VObj r) = [] <->
  reward_complete (VObj r) = true.
Proof.
  rewrite reward_field_shape, validate_at_eq. rewrite <- reward_field_shape.
  change (fields_of Reward) with (fields_of (when_method true Reward)).
  rewrite reward_fields_eq. cbn [isObject flat_map fst snd]. rewrite app_nil_r.
  pose proof (reward_own_nil flag m p r) as Hown.
  pose proof (amount_field_ok flag m (p ++ [Key "amount"]) (get_prop (VObj r) "amount")) as Ha.
  pose proof (currency_field_ok flag m (p ++ [Key "currency"]) (get_prop (VObj r) "currency")) as Hc.
  pose proof (number_field_ok flag m (p ++ [Key "scale"]) scale_field
                (get_prop (VObj r) "scale") (or_introl eq_refl)) as Hs.
  pose proof (number_field_ok flag m (p ++ [Key "amountWithoutScale"]) plain_number_field
                (get_prop (VObj r) "amountWithoutScale") (or_intror (or_introl eq_refl))) as Hw.
  pose proof (present_nonneg m (get_prop (VObj r) "amount")) as Pa.
  pose proof (present_currency m (get_prop (VObj r) "currency")) as Pc.
  pose proof (present_is_number m (get_prop (VObj r) "scale")) as Ps.
  pose proof (present_is_number m (get_prop (VObj r) "amountWithoutScale")) as Pw.
  rewrite rewardAllDefined_object in Hown.
  unfold reward_complete. cbn [isObject andb].
  rewrite !andb_true_iff in *.
  split.
  - intros H. apply app_eq_nil in H as [H0 H]. apply app_eq_nil in H as [H1 H].
    apply app_eq_nil in H as [H2 H]. apply app_eq_nil in H as [H3 H4].
    tauto.
  - intros H.
    assert (E0 : own_errors flag (resolve m (when_method true Reward)) p (VObj r) = []) by tauto.
    assert (E1 : validate_at flag m amount_field (p ++ [Key "amount"])
                   (get_prop (VObj r) "amount") = []) by tauto.
    assert (E2 : validate_at flag m currency_field (p ++ [Key "currency"])
                   (get_prop (VObj r) "currency") = []) by tauto.
    assert (E3 : validate_at flag m scale_field (p ++ [Key "scale"])
                   (get_prop (VObj r) "scale") = []) by tauto.
    assert (E4 : validate_at flag m plain_number_field (p ++ [Key "amountWithoutScale"])
                   (get_prop (VObj r) "amountWithoutScale") = []) by tauto.
    now rewrite E0, E1, E2, E3, E4.
Qed.

(** The reward, validated as it is. *)
Lemma reward_field_ok_strict flag m p x :
  validate_at flag m (when_method true Reward) p x = [] <->
  (is_POST m = false /\ x = VUndefined) \/ reward_complete x = true.
Proof.
  assert (Hbad : forall y, isObject y = false -> y <> VUndefined ->
            validate_at flag m (when_method true Reward) p y <> []).
  { intros y Hy Hu. destruct m as [[|]|]; destruct y; try discriminate; try congruence;
      simpl; unfold own_errors, initial_errors; simpl; discriminate. }
  destruct x as [| | | | |r|].
  - destruct m as [[|]|]; simpl;
      unfold own_errors, initial_errors, test_errors, run_test; simpl;
      (split; [first [discriminate | intros _; left; auto]
              | first [reflexivity | intros [[H _]|H]; discriminate]]).
  - split; [intros H; now apply Hbad in H | intros [[_ H]|H]; discriminate].
  - split; [intros H; now apply Hbad in H | intros [[_ H]|H]; discriminate].
  - split; [intros H; now apply Hbad in H | intros [[_ H]|H]; discriminate].
  - split; [intros H; now apply Hbad in H | intros [[_ H]|H]; discriminate].
  - rewrite reward_object_ok. split; [now right | intros [[_ H]|H]; [discriminate | exact H]].
  - split; [intros H; now apply Hbad in H | intros [[_ H]|H]; discriminate].
Qed.

Lemma cast_amount_typed host m a :
  number_or_undefined a = true ->
  nonneg_number (fst (cast host m amount_field a)) = nonneg_number a.
Proof.
  destruct a; try discriminate; intros _; destruct m as [[|]|]; simpl;
    try reflexivity; unfold base_cast; simpl;
    destruct (PrimFloat.is_nan n) eqn:Hn; simpl; rewrite ?Hn; reflexivity.
Qed.

Lemma cast_plain_number_typed host m a :
  number_or_undefined a = true ->
  is_number (fst (cast host m plain_number_field a)) = is_number a.
Proof.
  destruct a; try discriminate; intros _; destruct m as [[|]|]; simpl;
    try reflexivity; unfold base_cast; simpl;
    destruct (PrimFloat.is_nan n) eqn:Hn; simpl; rewrite ?Hn; reflexivity.
Qed.

Lemma cast_scale_typed host m a :
  number_or_undefined a = true ->
  is_number (fst (cast host m scale_field a)) = is_undefined a || is_number a.
Proof.
  destruct a; try discriminate; intros _; destruct m as [[|]|]; simpl;
    try reflexivity; unfold base_cast; simpl;
    destruct (PrimFloat.is_nan n) eqn:Hn; simpl; rewrite ?Hn; reflexivity.
Qed.

Lemma cast_currency_typed host m a :
  string_or_undefined a = true ->
  nonempty_string (fst (cast host m currency_field a))
  = is_undefined a || nonempty_string a.
Proof.
  destruct a; try discriminate; intros _; destruct m as [[|]|]; reflexivity.
Qed.

(** The reward, validated after its cast. *)
Lemma reward_field_ok_cast host flag m p x :
  reward_typed x = true ->
  validate_at flag m (when_method true Reward) p
    (fst (cast host m (when_method true Reward) x)) = [] <->
  (is_POST m = false /\ x = VUndefined) \/ reward_complete_by_default x = true.
Proof.
  intros Ht. destruct x as [| | | | |r|]; try discriminate.
  - destruct m as [[|]|]; simpl;
      unfold own_errors, initial_errors, test_errors, run_test; simpl;
      (split; [first [discriminate | intros _; left; auto]
              | first [reflexivity | intros [[H _]|H]; discriminate]]).
  - unfold reward_typed in Ht. rewrite !andb_true_iff in Ht.
    destruct Ht as [[[Ta Tc] Ts] Tw].
    rewrite reward_field_shape.
    destruct (cast_object_is_obj host m (spec_of (when_method true Reward))
                (fields_of Reward) r) as (r' & Hr').
    assert (Hg : forall k f, lookup k (fields_of Reward) = Some f ->
              get_prop (VObj r') k = fst (cast host m f (get_prop (VObj r) k))).
    { intros k f Hk. rewrite <- Hr'. now apply cast_object_get; [apply Reward_nodup|]. }
    rewrite Hr', <- reward_field_shape, reward_object_ok.
    unfold reward_complete, reward_complete_by_default. cbn [isObject andb].
    rewrite (Hg "amount" amount_field eq_refl),
            (Hg "currency" currency_field eq_refl),
            (Hg "scale" scale_field eq_refl),
            (Hg "amountWithoutScale" plain_number_field eq_refl).
    rewrite (cast_amount_typed host m _ Ta), (cast_currency_typed host m _ Tc),
            (cast_scale_typed host m _ Ts), (cast_plain_number_typed host m _ Tw).
    split; [now right | intros [[_ H]|H]; [discriminate | exact H]].
Qed.

Lemma nil_iff_no_member {A} (l : list A) : l = [] <-> forall a, ~ In a l.
Proof.
  split; [intros -> a H; exact H|].
  destruct l as [|a l]; [reflexivity|]. intros H. exfalso. apply (H a). now left.
Qed.

(** A record validation reports nothing under the key [k] exactly when the
    validation of the field [k] reports nothing. *)
Lemma record_field_valid host flag m (strict : bool) sp fields props k f :
  NoDup (map fst fields) ->
  lookup k fields = Some f ->
  filter (under k) (errors_of (validate host flag m (SObject sp fields) strict (VObj props)))
  = [] <->
  validate_at flag m f [Key k]
    (if strict then get_prop (VObj props) k
     else fst (cast host m f (get_prop (VObj props) k))) = [].
Proof.
  intros Hnd Hl. rewrite !nil_iff_no_member. split.
  - intros H e He.
    destruct (validate_at_prefix flag m _ _ _ _ He) as (rest & Hp). simpl in Hp.
    apply (H e). apply filter_In. split.
    + now apply (record_field_errors host flag m strict sp fields props k f e rest Hnd Hl Hp).
    + unfold under. rewrite Hp. apply String.eqb_refl.
  - intros H e He. apply filter_In in He as [He Hu].
    unfold under in Hu. destruct (e_path e) as [|[k'|i] rest] eqn:Hp; try discriminate.
    apply String.eqb_eq in Hu. subst k'.
    apply (H e).
    now apply (record_field_errors host flag m strict sp fields props k f e rest Hnd Hl Hp).
Qed.

(** *** The claim *)

(** A required field of the claim that holds no value is reported. *)
Lemma claim_required_absent host flag m (strict : bool) props k f x :
  lookup k (fields_of BountyClaimSchema) = Some f ->
  In (k, x) [("submissionNotes", VUndefined); ("submissionNotes", VStr "");
             ("status", VUndefined); ("statusHistory", VUndefined)] ->
  get_prop (VObj props) k = x ->
  In (required_at [Key k])
     (errors_of (validate host flag m BountyClaimSchema strict (VObj props))).
Proof.
  intros Hl Hk Hx. rewrite BountyClaimSchema_shape.
  apply (record_field_errors host flag m strict _ _ props k f (required_at [Key k]) []
           BountyClaimSchema_nodup Hl eq_refl).
  rewrite Hx. simpl in Hk.
  repeat (destruct Hk as [Hk|Hk];
    [injection Hk as <- <-; injection Hl as <-;
     destruct strict; destruct m as [[|]|]; vm_compute; tauto|]).
  destruct Hk.
Qed.

(** *** The policy *)

Lemma resolve_when m b s :
  resolve m (when_method b s) = requiredForPost m (resolve m s) b.
Proof.
  unfold resolve.
  replace (sp_conditions (spec_of (when_method b s)))
    with (sp_conditions (spec_of s) ++ [WhenMethodRequiredForPost b])
    by (destruct s; reflexivity).
  rewrite fold_left_app. simpl.
  replace (with_spec (set_conditions []) (when_method b s))
    with (with_spec (set_conditions []) s) by (destruct s; reflexivity).
  reflexivity.
Qed.

Lemma cast_no_default host m s :
  getDefault m s = VUndefined -> fst (cast host m s VUndefined) = VUndefined.
Proof.
  intros H.
  assert (Hb : forall t, base_cast m s t VUndefined = (VUndefined, false)).
  { intros t. unfold base_cast. now rewrite H. }
  destruct s as [sp|sp|sp|sp fields|sp inner]; cbn [cast]; rewrite Hb; reflexivity.
Qed.

Lemma defined_rejects_undefined flag s p :
  In (defined_at p) (own_errors flag (defined s) p VUndefined).
Proof.
  unfold own_errors.
  assert (Hi : initial_errors (defined s) p VUndefined = []).
  { unfold initial_errors. simpl. now destruct (sp_whitelist (spec_of (defined s))). }
  rewrite Hi. apply test_errors_In.
  exists {| t_name := "defined"; t_fn := TDefined |}.
  split; [|split; reflexivity].
  destruct s; simpl; apply in_or_app; right; now left.
Qed.

Lemma policy_update_composite_default m s :
  is_POST m = false ->
  getDefault m (when_method true s) = VUndefined.
Proof.
  intros Hm.
  assert (H : sp_default (spec_of (resolve m (when_method true s))) = Some VUndefined).
  { rewrite resolve_when. unfold requiredForPost. rewrite Hm.
    now destruct (resolve m s). }
  destruct s; cbn [getDefault when_method with_spec]; cbn [when_method with_spec] in H;
    now rewrite H.
Qed.

(* ================================================================= *)
(** ** The claims *)

(** *** C1: the mode-aware policy *)

(** C1, as the code has it.  [requiredForPost] makes a governed field
    [defined] on Create: validating no value reports [defined] whenever the
    tests see no value, that is under strict validation, and under casting
    validation when the field has no default to cast to; the file's two
    governed composites fail on Create as well when absent.  A governed scalar
    that declares a default ([currency], [scale]) is accepted on Create under
    casting validation, the default standing in.  On Update a governed scalar
    with no value validates to no value (to its default, if it declares one,
    under casting validation), and a governed composite with no value is cast
    to [undefined] and validates to [undefined]. *)
Theorem mode_aware_policy host flag :
  (* Create: the value the tests see must be defined *)
  (forall s b (strict : bool),
     strict = true \/ getDefault (Some POST) (when_method b s) = VUndefined ->
     In (defined_at [])
        (errors_of (validate host flag (Some POST) (when_method b s) strict VUndefined)))
  /\ (forall g, In g governed_composites ->
        exists errs,
          validate host flag (Some POST) (when_method true g) false VUndefined = Err errs)
  (* Create, casting: a declared default stands in for the absent value *)
  /\ (forall s d, In s governed_scalars -> sp_default (spec_of s) = Some d ->
        validate host flag (Some POST) (when_method false s) false VUndefined = Ok d)
  (* Update, scalar: no value is no change *)
  /\ (forall s (strict : bool), In s governed_scalars ->
        validate host flag (Some PATCH) (when_method false s) strict VUndefined
        = Ok (if strict then VUndefined else declared_default s))
  (* Update, composite: no value stays no value *)
  /\ (forall s, fst (cast host (Some PATCH) (when_method true s) VUndefined) = VUndefined)
  /\ (forall g (strict : bool), In g governed_composites ->
        validate host flag (Some PATCH) (when_method true g) strict VUndefined
        = Ok VUndefined).
Proof.
  split; [|split; [|split; [|split; [|split]]]].
  - intros s b strict Hs. rewrite errors_of_validate.
    assert (Hv : (if strict then VUndefined
                  else fst (cast host (Some POST) (when_method b s) VUndefined))
                 = VUndefined).
    { destruct strict; [reflexivity|]. destruct Hs as [Hs|Hs]; [discriminate|].
      now apply cast_no_default. }
    rewrite Hv. apply own_in_validate_at. rewrite resolve_when.
    apply defined_rejects_undefined.
  - intros g Hg. simpl in Hg.
    repeat (destruct Hg as [<-|Hg]; [eexists; vm_compute; reflexivity|]). destruct Hg.
  - intros s d Hs Hd. simpl in Hs.
    repeat (destruct Hs as [<-|Hs];
            [first [discriminate Hd | injection Hd as <-; reflexivity]|]).
    destruct Hs.
  - intros s strict Hs. simpl in Hs.
    repeat (destruct Hs as [<-|Hs]; [destruct strict; reflexivity|]). destruct Hs.
  - intros s. apply cast_no_default. now apply policy_update_composite_default.
  - intros g strict Hg. simpl in Hg.
    repeat (destruct Hg as [<-|Hg]; [destruct strict; reflexivity|]). destruct Hg.
Qed.

Lemma mode_aware_policy_witness :
  In (defined_at [])
     (errors_of (validate inert_host false (Some POST) (when_method false string_) true
                   VUndefined))
  /\ validate inert_host false (Some PATCH) (when_method true Reward) false VUndefined
     = Ok VUndefined.
Proof.
  destruct (mode_aware_policy inert_host false) as (Hcreate & _ & _ & _ & _ & Hupdate).
  split.
  - apply Hcreate. now left.
  - apply Hupdate. now left.
Defined.

(** C1 as stated fails: [currency] is governed by the policy, and on Create
    under casting validation its absence is no error -- the cast supplies
    ['BANK'], in the field alone and in a whole posted bounty. *)
Lemma create_absent_currency_accepted :
  lookup "currency" (fields_of Reward) = Some currency_field
  /\ validate inert_host false (Some POST) currency_field false VUndefined
     = Ok (VStr "BANK")
  /\ get_prop (get_prop bounty_reward_by_default "reward") "currency" = VUndefined
  /\ exists out,
       validate inert_host false (Some POST) BountySchema false bounty_reward_by_default
       = Ok out
       /\ get_prop (get_prop out "reward") "currency" = VStr "BANK".
Proof.
  split; [reflexivity|]. split; [reflexivity|]. split; [reflexivity|].
  eexists. split; vm_compute; reflexivity.
Qed.

(** *** C2: the reward as a unit *)

(** C2, as the code has it.  Under strict validation a record reports nothing
    under [reward] exactly when the reward is absent (and the mode is not
    Create) or is an object whose amount is a number not below zero, whose
    currency is a non-empty string and whose scale and amountWithoutScale are
    numbers, zero included.  Under casting validation of a well-typed reward
    the same holds with an absent currency or scale filled by its default.
    The all-zero reward is valid; the reward with only a currency is reported
    by the composite test. *)
Theorem reward_composite host flag m strict props :
  let x := get_prop (VObj props) "reward" in
  let errors := errors_of (validate host flag m BountySchema strict (VObj props)) in
  (strict = true ->
   (filter (under "reward") errors = [] <->
    (is_POST m = false /\ x = VUndefined) \/ reward_complete x = true))
  /\ (strict = false -> reward_typed x = true ->
      (filter (under "reward") errors = [] <->
       (is_POST m = false /\ x = VUndefined) \/ reward_complete_by_default x = true))
  /\ (x = zero_reward -> filter (under "reward") errors = [])
  /\ (x = only_currency -> In (is_optional_at [Key "reward"]) errors).
Proof.
  intros x errors. subst x errors.
  rewrite BountySchema_shape.
  pose proof (record_field_valid host flag m strict (spec_of BountySchema)
                (fields_of BountySchema) props "reward" (when_method true Reward)
                BountySchema_nodup eq_refl) as Hv.
  split; [|split; [|split]].
  - intros ->. rewrite Hv. apply reward_field_ok_strict.
  - intros -> Ht. rewrite Hv. now apply reward_field_ok_cast.
  - intros Hx. rewrite Hv, Hx.
    destruct strict.
    + apply reward_field_ok_strict. now right.
    + apply reward_field_ok_cast; [reflexivity | now right].
  - intros Hx.
    apply (record_field_errors host flag m strict (spec_of BountySchema)
             (fields_of BountySchema) props "reward" (when_method true Reward)
             (is_optional_at [Key "reward"]) [] BountySchema_nodup eq_refl eq_refl).
    rewrite Hx. destruct strict; destruct m as [[|]|]; vm_compute; tauto.
Qed.

Lemma reward_composite_witness :
  get_prop (VObj [("reward", zero_reward)]) "reward" = zero_reward
  /\ filter (under "reward")
       (errors_of (validate inert_host false (Some PATCH) BountySchema true
                     (VObj [("reward", zero_reward)]))) = [].
Proof.
  split; [reflexivity|].
  destruct (reward_composite inert_host false (Some PATCH) true [("reward", zero_reward)])
    as (_ & _ & Hzero & _).
  apply Hzero. reflexivity.
Defined.

(** C2 as stated fails: a reward with all four fields is refused when its
    amount is below zero, strictly or not; and under casting validation a
    reward with two of the four fields is accepted. *)
Lemma reward_negative_amount_rejected :
  forallb (fun k => negb (is_undefined (get_prop (VObj negative_reward_props) k)))
    ["amount"; "currency"; "scale"; "amountWithoutScale"] = true
  /\ validate inert_host false (Some PATCH) BountySchema true
       (VObj [("reward", VObj negative_reward_props)])
     = Err [min_at [Key "reward"; Key "amount"]]
  /\ validate inert_host false (Some PATCH) BountySchema false
       (VObj [("reward", VObj negative_reward_props)])
     = Err [min_at [Key "reward"; Key "amount"]]
  /\ get_prop half_reward "currency" = VUndefined
  /\ exists out,
       validate inert_host false (Some PATCH) BountySchema false
         (VObj [("reward", half_reward)]) = Ok out.
Proof.
  split; [reflexivity|]. split; [vm_compute; reflexivity|].
  split; [vm_compute; reflexivity|]. split; [reflexivity|].
  eexists. vm_compute. reflexivity.
Qed.

(** *** C3: the paired identity *)

(** C3.  For each of the four identity pairs of a bounty, in either mode and
    whether validation is strict or casts, the pairing test reports the pair
    exactly when one of discordId and discordHandle is present and the other
    is not -- present as the test itself decides it, by truthiness (C10).
    Casting validation converts a field that is not a string before the test
    sees it, so there the pair is taken as its type declares it: each field a
    string or absent. *)
Theorem paired_identity_rule host flag m strict props f o :
  In f pair_fields ->
  get_prop (VObj props) f = VObj o ->
  strict = true
  \/ (string_or_undefined (get_prop (VObj o) "discordId") = true
      /\ string_or_undefined (get_prop (VObj o) "discordHandle") = true) ->
  In (is_optional_at [Key f])
     (errors_of (validate host flag m BountySchema strict (VObj props)))
  <-> xorb (truthy (get_prop (VObj o) "discordId"))
           (truthy (get_prop (VObj o) "discordHandle")) = true.
Proof.
  intros Hf Hget Htyped. rewrite errors_of_validate.
  assert (Hfield : exists sch, lookup f (fields_of BountySchema) = Some sch
                               /\ In sch pair_schemas).
  { repeat (destruct Hf as [<-|Hf];
            [eexists; split; [reflexivity|]; simpl; auto|]).
    destruct Hf. }
  destruct Hfield as (sch & Hl & Hsch).
  rewrite <- (pair_field_errors host flag m strict sch [Key f] o Hsch Htyped).
  destruct strict.
  - rewrite BountySchema_shape at 1.
    rewrite (object_errors_under flag m _ _ props [] f sch _ [] BountySchema_nodup Hl)
      by reflexivity.
    now rewrite Hget.
  - rewrite BountySchema_shape at 1 2.
    destruct (cast_object_is_obj host m (spec_of BountySchema) (fields_of BountySchema) props)
      as (props' & Hp').
    pose proof (cast_object_get host m (spec_of BountySchema) _ props f sch
                  BountySchema_nodup Hl) as Hg.
    rewrite Hp' in *.
    rewrite (object_errors_under flag m _ _ props' [] f sch _ [] BountySchema_nodup Hl)
      by reflexivity.
    now rewrite Hg, Hget.
Qed.

Lemma paired_identity_rule_witness :
  In "createdBy" pair_fields
  /\ get_prop (VObj bounty_creator_id_only) "createdBy" = VObj [("discordId", VStr "1")]
  /\ In (is_optional_at [Key "createdBy"])
       (errors_of (validate inert_host false (Some POST) BountySchema false
                     (VObj bounty_creator_id_only))).
Proof.
  split; [now left|]. split; [reflexivity|].
  apply (proj2 (paired_identity_rule inert_host false (Some POST) false
                  bounty_creator_id_only "createdBy" [("discordId", VStr "1")]
                  (or_introl eq_refl) eq_refl (or_intror (conj eq_refl eq_refl)))).
  reflexivity.
Defined.

(** *** C4: the closed schema *)

(** C4, as the code has it.  For the record validator and the claim
    validator, in every mode: strict validation reports a key the schema does
    not declare; casting validation does not report such a key when it holds
    a value, it leaves it out of what it returns; and either way the keys of
    what validation returns are declared keys. *)
Theorem closed_schema host flag m strict sch props :
  In sch [BountySchema; BountyClaimSchema] ->
  let r := validate host flag m sch strict (VObj props) in
  (* strict validation reports a key outside the shape *)
  (strict = true ->
   forall k, In k (own_keys (VObj props)) -> ~ In k (declared sch) ->
   exists errs, r = Err errs /\ In (no_unknown_at []) errs)
  (* casting validation drops it instead *)
  /\ (strict = false ->
      (forall k, In k (own_keys (VObj props)) -> ~ In k (declared sch) ->
                 get_prop (VObj props) k <> VUndefined) ->
      ~ In (no_unknown_at []) (errors_of r))
  (* either way, what validation accepts has declared keys only *)
  /\ (forall out, r = Ok out ->
      forall k, In k (own_keys out) -> In k (declared sch)).
Proof.
  intros Hsch r. subst r. split; [|split].
  - intros -> k Hk Hn. apply errors_of_In. rewrite errors_of_validate.
    apply own_in_validate_at.
    apply (record_own_errors flag m sch [] props (no_unknown_at []) Hsch eq_refl).
    split; [reflexivity|]. intros Hu.
    apply Hn. now apply (proj1 (unknown_nil sch (VObj props)) Hu).
  - intros -> Hdef Hin. rewrite errors_of_validate in Hin.
    apply validate_at_here in Hin; [|reflexivity].
    assert (Hshape : sch = SObject (spec_of sch) (fields_of sch)
                     /\ sp_noUnknown (spec_of (resolve m sch)) = true).
    { destruct Hsch as [<-|[<-|[]]]; destruct m as [[|]|]; split; reflexivity. }
    destruct Hshape as [Hshape Hstrip].
    destruct (cast_object_is_obj host m (spec_of sch) (fields_of sch) props) as (props' & Hp').
    rewrite <- Hshape in Hp'. rewrite Hp' in Hin.
    apply (record_own_errors flag m sch [] props' (no_unknown_at []) Hsch eq_refl) in Hin as [_ Hu].
    apply Hu. apply unknown_nil. intros k Hk.
    destruct (in_dec string_dec k (declared sch)) as [Hd|Hd]; [exact Hd|exfalso].
    rewrite <- Hp' in Hk. rewrite Hshape, cast_object_eq in Hk.
    rewrite <- Hshape, Hstrip in Hk.
    apply loop_strips in Hk as [Hk Hun].
    + now apply (Hdef k).
    + now rewrite map_fst_map.
  - intros out Hok k Hk.
    unfold validate in Hok.
    destruct (validate_at flag m sch [] (if strict then VObj props
                                        else fst (cast host m sch (VObj props)))) eqn:Hv;
      [|discriminate].
    injection Hok as Hout. rewrite Hout in Hv.
    assert (Hobj : exists props', out = VObj props').
    { destruct out; simpl in Hk; try contradiction. eauto. }
    destruct Hobj as (props' & ->).
    destruct (list_eq_dec string_dec (unknown sch (VObj props')) []) as [Hu|Hu].
    + now apply (proj1 (unknown_nil sch (VObj props')) Hu).
    + exfalso.
      assert (Hin : In (no_unknown_at []) (validate_at flag m sch [] (VObj props'))).
      { apply own_in_validate_at.
        apply (record_own_errors flag m sch [] props' (no_unknown_at []) Hsch eq_refl). auto. }
      rewrite Hv in Hin. exact Hin.
Qed.

Lemma closed_schema_witness :
  In "priority" (own_keys (VObj bounty_with_extra_key))
  /\ exists errs,
       validate inert_host false (Some POST) BountySchema true (VObj bounty_with_extra_key)
       = Err errs
       /\ In (no_unknown_at []) errs.
Proof.
  assert (Hk : In "priority" (own_keys (VObj bounty_with_extra_key))).
  { vm_compute. tauto. }
  split; [exact Hk|].
  destruct (closed_schema inert_host false (Some POST) true BountySchema
              bounty_with_extra_key (or_introl eq_refl)) as (Hstrict & _ & _).
  apply (Hstrict eq_refl "priority" Hk).
  vm_compute. intuition discriminate.
Defined.

(** C4 as stated fails: under casting validation a posted bounty with a key
    the schema does not declare is accepted, and the key is left out of the
    result without a report. *)
Lemma unknown_key_stripped :
  In "priority" (own_keys (VObj bounty_with_extra_key))
  /\ ~ In "priority" (declared BountySchema)
  /\ exists out,
       validate inert_host false (Some POST) BountySchema false (VObj bounty_with_extra_key)
       = Ok out
       /\ ~ In "priority" (own_keys out).
Proof.
  split; [vm_compute; tauto|].
  split; [vm_compute; intuition discriminate|].
  eexists. split; [vm_compute; reflexivity|].
  vm_compute. intuition discriminate.
Qed.

(** *** C5: the claim validator *)

(** C5, as the code has it.  The claim validator gives the same result in
    every mode.  It reports submissionNotes when missing or empty, status when
    missing, statusHistory when missing, and a claimedBy object with exactly
    one of discordId and discordHandle set; under strict validation it reports
    a missing claimedBy. *)
Theorem claim_validator_fixed host flag m strict props :
  let r := validate host flag m BountyClaimSchema strict (VObj props) in
  (forall m', validate host flag m' BountyClaimSchema strict (VObj props) = r)
  /\ (get_prop (VObj props) "submissionNotes" = VUndefined
      \/ get_prop (VObj props) "submissionNotes" = VStr "" ->
      In (required_at [Key "submissionNotes"]) (errors_of r))
  /\ (get_prop (VObj props) "status" = VUndefined ->
      In (required_at [Key "status"]) (errors_of r))
  /\ (get_prop (VObj props) "statusHistory" = VUndefined ->
      In (required_at [Key "statusHistory"]) (errors_of r))
  /\ (forall o,
        get_prop (VObj props) "claimedBy" = VObj o ->
        strict = true
        \/ (string_or_undefined (get_prop (VObj o) "discordId") = true
            /\ string_or_undefined (get_prop (VObj o) "discordHandle") = true) ->
        (In (is_optional_at [Key "claimedBy"]) (errors_of r)
         <-> xorb (truthy (get_prop (VObj o) "discordId"))
                  (truthy (get_prop (VObj o) "discordHandle")) = true))
  /\ (strict = true ->
      get_prop (VObj props) "claimedBy" = VUndefined ->
      In (required_at [Key "claimedBy"]) (errors_of r)).
Proof.
  intros r. subst r.
  split; [intros m'; reflexivity|].
  split; [|split; [|split; [|split]]].
  - intros [H|H];
      eapply (claim_required_absent host flag m strict props "submissionNotes" _ _ eq_refl);
      [| exact H | | exact H]; simpl; auto.
  - intros H.
    eapply (claim_required_absent host flag m strict props "status" _ _ eq_refl);
      [| exact H]; simpl; auto.
  - intros H.
    eapply (claim_required_absent host flag m strict props "statusHistory" _ _ eq_refl);
      [| exact H]; simpl; auto 6.
  - intros o Ho Htyped. rewrite BountyClaimSchema_shape.
    rewrite (record_field_errors host flag m strict _ _ props "claimedBy"
               (required DiscordUser) (is_optional_at [Key "claimedBy"]) []
               BountyClaimSchema_nodup eq_refl eq_refl).
    rewrite Ho.
    apply (pair_field_errors host flag m strict (required DiscordUser) [Key "claimedBy"] o);
      auto. simpl. auto.
  - intros -> H. rewrite BountyClaimSchema_shape.
    apply (record_field_errors host flag m true _ _ props "claimedBy"
             (required DiscordUser) (required_at [Key "claimedBy"]) []
             BountyClaimSchema_nodup eq_refl eq_refl).
    rewrite H. destruct m as [[|]|]; vm_compute; tauto.
Qed.

Lemma claim_validator_fixed_witness :
  get_prop (VObj [("submissionNotes", VStr "done")]) "status" = VUndefined
  /\ In (required_at [Key "status"])
       (errors_of (validate inert_host false (Some PATCH) BountyClaimSchema true
                     (VObj [("submissionNotes", VStr "done")]))).
Proof.
  split; [reflexivity|].
  destruct (claim_validator_fixed inert_host false (Some PATCH) true
              [("submissionNotes", VStr "done")]) as (_ & _ & Hstatus & _).
  apply Hstatus. reflexivity.
Defined.

(** C5 as stated fails: a claim whose claimedBy is the empty object, with
    neither discordId nor discordHandle, is accepted, strictly or not; and
    under casting validation so is a claim with no claimedBy at all. *)
Lemma claim_accepts_empty_identity :
  get_prop claim_with_empty_identity "claimedBy" = VObj []
  /\ validate inert_host false (Some PATCH) BountyClaimSchema true claim_with_empty_identity
     = Ok claim_with_empty_identity
  /\ validate inert_host false (Some PATCH) BountyClaimSchema false claim_with_empty_identity
     = Ok claim_with_empty_identity
  /\ get_prop claim_without_identity "claimedBy" = VUndefined
  /\ exists out,
       validate inert_host false (Some PATCH) BountyClaimSchema false claim_without_identity
       = Ok out.
Proof.
  split; [reflexivity|]. split; [vm_compute; reflexivity|].
  split; [vm_compute; reflexivity|]. split; [reflexivity|].
  eexists. vm_compute. reflexivity.
Qed.

(** *** C6: a scalar missing on Create *)

(** A record without a scalar required on Create reports it. *)
Lemma missing_scalar_reported host flag (strict : bool) props f :
  In f create_required_scalars ->
  In (defined_at [Key f])
     (errors_of (validate host flag (Some POST) BountySchema strict
                   (VObj (remove_prop f props)))).
Proof.
  intros Hf.
  assert (Hfield : exists sf, lookup f (fields_of BountySchema) = Some sf).
  { simpl in Hf. repeat (destruct Hf as [<-|Hf]; [eexists; reflexivity|]). destruct Hf. }
  destruct Hfield as (sf & Hl).
  destruct (create_scalar_absent flag f sf Hf Hl) as [Hmiss Hcast].
  rewrite BountySchema_shape.
  apply (record_field_errors host flag (Some POST) strict _ _ (remove_prop f props) f sf
           (defined_at [Key f]) [] BountySchema_nodup Hl eq_refl).
  rewrite get_prop_remove_same.
  destruct strict; rewrite ?Hcast, Hmiss; now left.
Qed.

(** A record that validates, once it loses a scalar required on Create,
    fails with the report of that field and nothing else. *)
Lemma missing_scalar_only host flag strict props f out :
  In f create_required_scalars ->
  (strict = false -> holds_values props = true) ->
  validate host flag (Some POST) BountySchema strict (VObj props) = Ok out ->
  validate host flag (Some POST) BountySchema strict (VObj (remove_prop f props))
  = Err [defined_at [Key f]].
Proof.
  intros Hf Hvals Hok.
  assert (Hfield : exists sf, lookup f (fields_of BountySchema) = Some sf).
  { simpl in Hf. repeat (destruct Hf as [<-|Hf]; [eexists; reflexivity|]). destruct Hf. }
  destruct Hfield as (sf & Hl).
  destruct (create_scalar_absent flag f sf Hf Hl) as [Hmiss Hcast].
  apply validate_Ok in Hok as [Hout Hnil].
  (* the values validated: the record, and the record without [f] *)
  assert (HU : exists U U',
    out = VObj U
    /\ (if strict then VObj (remove_prop f props)
        else fst (cast host (Some POST) BountySchema (VObj (remove_prop f props)))) = VObj U'
    /\ (forall k sk, lookup k (fields_of BountySchema) = Some sk -> k <> f ->
          get_prop (VObj U') k = get_prop (VObj U) k)
    /\ get_prop (VObj U') f = VUndefined
    /\ unknown BountySchema (VObj U') = []).
  { destruct strict.
    - exists props, (remove_prop f props). split; [exact Hout|]. split; [reflexivity|].
      split; [intros k sk _ Hne; now apply get_prop_remove_other|].
      split; [apply get_prop_remove_same|].
      rewrite Hout, BountySchema_shape, validate_at_eq in Hnil.
      apply app_eq_nil in Hnil as [Hown _].
      rewrite <- BountySchema_shape in Hown. apply bounty_own_nil in Hown.
      apply unknown_nil. intros k Hk. apply own_keys_remove in Hk.
      now apply (proj1 (unknown_nil BountySchema (VObj props)) Hown).
    - destruct (cast_object_is_obj host (Some POST) (spec_of BountySchema)
                  (fields_of BountySchema) props) as (U & HU).
      destruct (cast_object_is_obj host (Some POST) (spec_of BountySchema)
                  (fields_of BountySchema) (remove_prop f props)) as (U' & HU').
      rewrite <- BountySchema_shape in HU, HU'.
      exists U, U'. split; [congruence|]. split; [exact HU'|].
      split; [|split].
      + intros k sk Hk Hne. rewrite <- HU, <- HU'. rewrite BountySchema_shape.
        rewrite !(cast_object_get host (Some POST) _ _ _ k sk BountySchema_nodup Hk).
        now rewrite get_prop_remove_other.
      + rewrite <- HU'. rewrite BountySchema_shape.
        rewrite (cast_object_get host (Some POST) _ _ _ f sf BountySchema_nodup Hl).
        rewrite get_prop_remove_same. apply Hcast.
      + apply unknown_nil. intros k Hk.
        destruct (in_dec string_dec k (declared BountySchema)) as [Hd|Hd]; [exact Hd|exfalso].
        rewrite <- HU' in Hk. rewrite BountySchema_shape, cast_object_eq in Hk.
        apply loop_strips in Hk as [Hk Hun]; [|now rewrite map_fst_map].
        revert Hun. apply holds_values_get; [apply holds_values_remove; now apply Hvals | exact Hk]. }
  destruct HU as (U & U' & -> & HU' & Hsame & Hgone & Hunk).
  unfold validate. rewrite HU'.
  assert (Herrs : validate_at flag (Some POST) BountySchema [] (VObj U')
                  = [defined_at [Key f]]).
  { rewrite BountySchema_shape, validate_at_eq in Hnil |- *.
    apply app_eq_nil in Hnil as [_ Hkids]. cbn [isObject] in Hkids |- *.
    rewrite <- BountySchema_shape.
    rewrite (proj2 (bounty_own_nil flag (Some POST) U') Hunk). cbn [app].
    rewrite (flat_map_single _ _ f sf BountySchema_nodup (lookup_In _ _ _ Hl)).
    - cbn [fst snd app]. now rewrite Hgone.
    - intros [k sk] Hin Hne. cbn [fst snd] in *.
      rewrite (Hsame k sk (In_lookup _ _ _ BountySchema_nodup Hin) Hne).
      exact (proj1 (flat_map_nil _ _) Hkids (k, sk) Hin). }
  now rewrite Herrs.
Qed.

(** C6.  On Create, a record from which one of title, description, criteria,
    customerId, status, dueAt, createdAt is missing fails with the [defined]
    report at the path of that field; and when the record was valid before it
    lost the field, that report is the only one.  (Under casting validation
    the record is one whose properties hold values, as JSON gives them: a key
    outside the schema that holds [undefined] is the one thing a cast leaves
    in place to be reported.) *)
Theorem create_missing_scalar host flag strict props f :
  In f create_required_scalars ->
  let missing := VObj (remove_prop f props) in
  In (defined_at [Key f])
     (errors_of (validate host flag (Some POST) BountySchema strict missing))
  /\ ((strict = false -> holds_values props = true) ->
      forall out,
        validate host flag (Some POST) BountySchema strict (VObj props) = Ok out ->
        validate host flag (Some POST) BountySchema strict missing
        = Err [defined_at [Key f]]).
Proof.
  intros Hf missing. subst missing. split.
  - now apply missing_scalar_reported.
  - intros Hvals out Hok. now apply (missing_scalar_only host flag strict props f out).
Qed.

Lemma create_missing_scalar_witness :
  In "title" create_required_scalars
  /\ validate inert_host false (Some POST) BountySchema true (VObj posted_bounty_props)
     = Ok (VObj posted_bounty_props)
  /\ validate inert_host false (Some POST) BountySchema true
       (VObj (remove_prop "title" posted_bounty_props))
     = Err [defined_at [Key "title"]].
Proof.
  assert (Hok : validate inert_host false (Some POST) BountySchema true
                  (VObj posted_bounty_props) = Ok (VObj posted_bounty_props)).
  { vm_compute. reflexivity. }
  split; [now left|]. split; [exact Hok|].
  apply (proj2 (create_missing_scalar inert_host false true posted_bounty_props "title"
                  (or_introl eq_refl)) (fun _ => eq_refl) (VObj posted_bounty_props) Hok).
Defined.

(** *** C7: omission on Update *)

(** What casting validation on Update returns under a field of the reward the
    candidate holds. *)
Lemma update_reward_field host flag props r out k f :
  validate host flag (Some PATCH) BountySchema false (VObj props) = Ok out ->
  get_prop (VObj props) "reward" = VObj r ->
  lookup k (fields_of Reward) = Some f ->
  get_prop (get_prop out "reward") k
  = fst (cast host (Some PATCH) f (get_prop (VObj r) k)).
Proof.
  intros Hok Hr Hk. apply validate_Ok in Hok as [-> _].
  rewrite BountySchema_shape.
  rewrite (cast_object_get host (Some PATCH) (spec_of BountySchema) (fields_of BountySchema)
             props "reward" (when_method true Reward) BountySchema_nodup eq_refl).
  rewrite Hr, reward_field_shape.
  now apply cast_object_get; [exact Reward_nodup|].
Qed.

(** What validation on Update returns under a member of an identity the
    candidate holds. *)
Lemma update_identity_member host flag (strict : bool) props f o out k :
  validate host flag (Some PATCH) BountySchema strict (VObj props) = Ok out ->
  In f pair_fields ->
  get_prop (VObj props) f = VObj o ->
  In k ["discordId"; "discordHandle"] ->
  get_prop (VObj o) k = VUndefined ->
  get_prop (get_prop out f) k = VUndefined.
Proof.
  intros Hok Hf Ho Hk Hu. apply validate_Ok in Hok as [-> _].
  destruct strict; [now rewrite Ho|].
  assert (Hl : exists sch, lookup f (fields_of BountySchema) = Some sch
                           /\ In sch pair_schemas).
  { simpl in Hf. destruct Hf as [<-|[<-|[<-|[<-|[]]]]]; eexists;
      (split; [reflexivity | simpl; auto]). }
  destruct Hl as (sch & Hl & Hsch).
  rewrite BountySchema_shape.
  rewrite (cast_object_get host (Some PATCH) (spec_of BountySchema) (fields_of BountySchema)
             props f sch BountySchema_nodup Hl), Ho.
  destruct (pair_schema_fields sch k Hsch Hk) as (Hshape & Hnd & sub & Hsub & Hin).
  rewrite Hshape, (cast_object_get host (Some PATCH) _ _ o k sub Hnd Hsub), Hu.
  destruct Hin as [<-|[<-|[]]]; reflexivity.
Qed.

(** A reward that validation accepts holds its two amounts: a candidate
    cannot omit them. *)
Lemma accepted_reward_amounts host flag m (strict : bool) props r out k f :
  validate host flag m BountySchema strict (VObj props) = Ok out ->
  get_prop (VObj props) "reward" = VObj r ->
  In (k, f) [("amount", amount_field); ("amountWithoutScale", plain_number_field)] ->
  get_prop (VObj r) k <> VUndefined.
Proof.
  intros Hok Hr Hk Hu.
  assert (Hnil : filter (under "reward")
                   (errors_of (validate host flag m BountySchema strict (VObj props))) = []).
  { now rewrite Hok. }
  rewrite BountySchema_shape in Hnil.
  apply (record_field_valid host flag m strict _ _ props "reward" (when_method true Reward)
           BountySchema_nodup eq_refl) in Hnil.
  rewrite Hr in Hnil.
  assert (Hl : lookup k (fields_of Reward) = Some f).
  { destruct Hk as [H|[H|[]]]; injection H as <- <-; reflexivity. }
  assert (Hc : exists r',
             (if strict then VObj r
              else fst (cast host m (when_method true Reward) (VObj r))) = VObj r'
             /\ get_prop (VObj r') k = VUndefined).
  { destruct strict.
    - exists r. auto.
    - rewrite reward_field_shape.
      destruct (cast_object_is_obj host m (spec_of (when_method true Reward))
                  (fields_of Reward) r) as (r' & Hr').
      exists r'. split; [exact Hr'|].
      rewrite <- Hr', (cast_object_get host m _ _ r k f Reward_nodup Hl), Hu.
      destruct Hk as [H|[H|[]]]; injection H as <- <-; destruct m as [[|]|]; reflexivity. }
  destruct Hc as (r' & Hr' & Hu'). rewrite Hr' in Hnil.
  apply reward_object_ok in Hnil. unfold reward_complete in Hnil.
  rewrite !andb_true_iff in Hnil. destruct Hnil as [[[[_ Ha] _] _] Hw].
  destruct Hk as [H|[H|[]]]; injection H as <- <-; rewrite Hu' in *; discriminate.
Qed.

(** C7, as the code has it.  On Update, a key of the record that the candidate
    omits -- any key, so every optional scalar field of the record -- is
    absent from what validation returns, so assigning the result over a stored
    record leaves the stored value of the key as it was; and a member of an
    identity that the candidate omits is absent from the identity returned.
    Under strict validation nothing at all is filled in: the result is the
    candidate.  Of the fields of a reward, amount and amountWithoutScale
    cannot be omitted: validation refuses the reward.  Under casting
    validation the two optional scalars that declare a default are filled in:
    a reward that omits currency comes back with ['BANK'], one that omits
    scale with [0]. *)
Theorem update_omission_preserves host flag strict props out :
  validate host flag (Some PATCH) BountySchema strict (VObj props) = Ok out ->
  (* a key of the record *)
  (forall f, ~ In f (own_keys (VObj props)) ->
     ~ In f (own_keys out)
     /\ forall stored, get_prop (assign stored out) f = get_prop stored f)
  (* a member of an identity *)
  /\ (forall f o k,
        In f pair_fields -> get_prop (VObj props) f = VObj o ->
        In k ["discordId"; "discordHandle"] -> get_prop (VObj o) k = VUndefined ->
        get_prop (get_prop out f) k = VUndefined)
  (* strict validation returns the candidate *)
  /\ (strict = true -> out = VObj props)
  (* a reward cannot omit its amounts *)
  /\ (forall r, get_prop (VObj props) "reward" = VObj r ->
        get_prop (VObj r) "amount" <> VUndefined
        /\ get_prop (VObj r) "amountWithoutScale" <> VUndefined)
  (* casting validation fills the defaults of the reward *)
  /\ (strict = false ->
      forall r, get_prop (VObj props) "reward" = VObj r ->
        (get_prop (VObj r) "currency" = VUndefined ->
         get_prop (get_prop out "reward") "currency" = VStr "BANK")
        /\ (get_prop (VObj r) "scale" = VUndefined ->
            get_prop (get_prop out "reward") "scale" = VNum PrimFloat.zero)).
Proof.
  intros Hok. split; [|split; [|split; [|split]]].
  - intros f Hf.
    assert (Hout : ~ In f (own_keys out)).
    { apply validate_Ok in Hok as [-> _].
      destruct strict; [exact Hf|].
      rewrite BountySchema_shape, cast_object_eq.
      apply loop_absent_key; [exact Hf|].
      intros x c Hin. apply in_map_iff in Hin as ([k sf] & Heq & Hin).
      cbn [fst snd] in Heq. injection Heq as -> Hcast.
      pose proof (get_prop_absent props f Hf) as Hg. unfold get_prop in Hg.
      rewrite Hg in Hcast.
      pose proof (update_field_absent host f sf Hin) as Hu.
      rewrite Hcast in Hu. exact Hu. }
    split; [exact Hout|]. intros stored. now apply assign_other.
  - intros f o k. now apply (update_identity_member host flag strict props).
  - intros ->. now apply validate_Ok in Hok as [-> _].
  - intros r Hr. split.
    + apply (accepted_reward_amounts host flag (Some PATCH) strict props r out
               "amount" amount_field Hok Hr). simpl. auto.
    + apply (accepted_reward_amounts host flag (Some PATCH) strict props r out
               "amountWithoutScale" plain_number_field Hok Hr). simpl. auto.
  - intros -> r Hr. split; intros Hu.
    + rewrite (update_reward_field host flag props r out "currency" currency_field Hok Hr
                 eq_refl), Hu.
      reflexivity.
    + rewrite (update_reward_field host flag props r out "scale" scale_field Hok Hr
                 eq_refl), Hu.
      reflexivity.
Qed.

Lemma update_omission_preserves_witness :
  validate inert_host false (Some PATCH) BountySchema false
    (VObj [("title", VStr "New title")]) = Ok (VObj [("title", VStr "New title")])
  /\ get_prop (assign (VObj posted_bounty_props) (VObj [("title", VStr "New title")]))
       "description"
     = VStr "Crash on save".
Proof.
  assert (Hok : validate inert_host false (Some PATCH) BountySchema false
                  (VObj [("title", VStr "New title")])
                = Ok (VObj [("title", VStr "New title")])).
  { vm_compute. reflexivity. }
  split; [exact Hok|].
  assert (Hf : ~ In "description" (own_keys (VObj [("title", VStr "New title")]))).
  { vm_compute. intuition discriminate. }
  exact (proj2 (proj1 (update_omission_preserves inert_host false false
                         [("title", VStr "New title")]
                         (VObj [("title", VStr "New title")]) Hok)
                  "description" Hf)
           (VObj posted_bounty_props)).
Defined.

(** C7 as stated fails: currency is an optional scalar field on Update, and a
    candidate whose reward omits it is returned, under casting validation,
    with ['BANK'] in its place; assigning the result over a stored bounty paid
    in another currency stores ['BANK']. *)
Lemma update_omitted_currency_filled :
  lookup "currency" (fields_of Reward) = Some currency_field
  /\ get_prop half_reward "currency" = VUndefined
  /\ get_prop (get_prop stored_bounty_in_eth "reward") "currency" = VStr "ETH"
  /\ validate inert_host false (Some PATCH) currency_field false VUndefined
     = Ok (VStr "BANK")
  /\ exists out,
       validate inert_host false (Some PATCH) BountySchema false
         (VObj [("reward", half_reward)]) = Ok out
       /\ get_prop (get_prop out "reward") "currency" = VStr "BANK"
       /\ get_prop (get_prop (assign stored_bounty_in_eth out) "reward") "currency"
          = VStr "BANK".
Proof.
  split; [reflexivity|]. split; [reflexivity|]. split; [reflexivity|].
  split; [reflexivity|].
  eexists. split; [vm_compute; reflexivity|]. split; vm_compute; reflexivity.
Qed.

(** *** C8: the status enumeration *)

(** The values of the enumeration, one by one. *)
Lemma in_statuses_six (v : value) :
  in_statuses v <->
  In v [VStr "Draft"; VStr "Open"; VStr "In-Progress"; VStr "In-Review";
        VStr "Completed"; VStr "Deleted"].
Proof.
  unfold in_statuses, statuses. split.
  - intros (s & -> & Hs). simpl in Hs. simpl.
    repeat (destruct Hs as [<-|Hs]; [tauto|]). destruct Hs.
  - intros Hv. simpl in Hv.
    repeat (destruct Hv as [<-|Hv]; [eexists; split; [reflexivity|simpl; tauto]|]).
    destruct Hv.
Qed.

(** A status of the enumeration passes every test of the status field. *)
Lemma status_of_six_passes host flag m (strict : bool) sch props :
  In sch [BountySchema; BountyClaimSchema] ->
  In (get_prop (VObj props) "status")
     [VStr "Draft"; VStr "Open"; VStr "In-Progress"; VStr "In-Review";
      VStr "Completed"; VStr "Deleted"] ->
  filter (under "status") (errors_of (validate host flag m sch strict (VObj props))) = [].
Proof.
  intros Hsch Hv.
  assert (Hf : exists f, lookup "status" (fields_of sch) = Some f
                         /\ In f status_schemas
                         /\ NoDup (map fst (fields_of sch))
                         /\ sch = SObject (spec_of sch) (fields_of sch)).
  { destruct Hsch as [<-|[<-|[]]]; eexists; (split; [reflexivity|]);
      (split; [simpl; auto|]); split;
      first [exact BountySchema_nodup | exact BountyClaimSchema_nodup | reflexivity]. }
  destruct Hf as (f & Hl & Hf & Hnd & Hshape).
  rewrite Hshape. apply (record_field_valid host flag m strict _ _ props "status" f Hnd Hl).
  assert (Hcast : (if strict then get_prop (VObj props) "status"
                   else fst (cast host m f (get_prop (VObj props) "status")))
                  = get_prop (VObj props) "status").
  { destruct strict; [reflexivity|]. now apply cast_status. }
  rewrite Hcast. revert Hv. generalize (get_prop (VObj props) "status"). intros x Hx.
  simpl in Hx, Hf.
  repeat (destruct Hx as [<-|Hx];
          [destruct Hf as [<-|[<-|[<-|[]]]]; destruct m as [[|]|]; reflexivity|]).
  destruct Hx.
Qed.

(** C8.  The status is a closed enumeration.  For the record validator and the
    claim validator, in every mode and whether validation is strict or casts:
    the [oneOf] report at [status] appears exactly when status holds a value
    outside Draft, Open, In-Progress, In-Review, Completed, Deleted; a status
    that is one of the six is reported by no test at all; and the [oneOf]
    report of an entry of statusHistory appears, at the path of the entry,
    exactly when the status of the entry holds a value outside the six. *)
Theorem status_enumeration host flag m strict sch props :
  In sch [BountySchema; BountyClaimSchema] ->
  let errors := errors_of (validate host flag m sch strict (VObj props)) in
  let six := [VStr "Draft"; VStr "Open"; VStr "In-Progress"; VStr "In-Review";
              VStr "Completed"; VStr "Deleted"] in
  (In (one_of_at [Key "status"]) errors
   <-> get_prop (VObj props) "status" <> VUndefined
       /\ ~ In (get_prop (VObj props) "status") six)
  /\ (In (get_prop (VObj props) "status") six -> filter (under "status") errors = [])
  /\ (forall items i e,
        get_prop (VObj props) "statusHistory" = VArr items ->
        nth_error items i = Some (VObj e) ->
        In (one_of_at [Key "statusHistory"; Index i; Key "status"]) errors
        <-> get_prop (VObj e) "status" <> VUndefined
            /\ ~ In (get_prop (VObj e) "status") six).
Proof.
  intros Hsch errors six. split; [|split].
  - unfold six. rewrite <- in_statuses_six. now apply status_field_enumeration.
  - now apply status_of_six_passes.
  - intros items i e Hitems He. unfold six. rewrite <- in_statuses_six.
    now apply (history_entry_enumeration host flag m strict sch props items i e).
Qed.

Lemma status_enumeration_witness :
  In BountySchema [BountySchema; BountyClaimSchema]
  /\ In (one_of_at [Key "status"])
       (errors_of (validate inert_host false (Some PATCH) BountySchema true
                     (VObj [("status", VStr "Archived")])))
  /\ filter (under "status")
       (errors_of (validate inert_host false (Some POST) BountySchema true
                     (VObj [("status", VStr "Deleted")]))) = []
  /\ ~ In (one_of_at [Key "statusHistory"; Index 0; Key "status"])
         (errors_of (validate inert_host false (Some PATCH) BountyClaimSchema false
                       claim_with_empty_identity)).
Proof.
  split; [now left|]. split; [|split].
  - apply (proj1 (status_enumeration inert_host false (Some PATCH) true BountySchema
                    [("status", VStr "Archived")] (or_introl eq_refl))).
    split; [discriminate|]. simpl. intuition discriminate.
  - apply (proj1 (proj2 (status_enumeration inert_host false (Some POST) true BountySchema
                           [("status", VStr "Deleted")] (or_introl eq_refl)))).
    simpl. tauto.
  - intros H.
    apply (proj2 (proj2 (status_enumeration inert_host false (Some PATCH) false
                           BountyClaimSchema
                           [("submissionNotes", VStr "done"); ("claimedBy", VObj []);
                            ("status", VStr "In-Review");
                            ("statusHistory", review_history)]
                           (or_intror (or_introl eq_refl))))
             [VObj [("status", VStr "In-Review"); ("modifiedAt", VStr "2024-02-01")]]
             0 [("status", VStr "In-Review"); ("modifiedAt", VStr "2024-02-01")]
             eq_refl eq_refl) in H.
    destruct H as [_ H]. apply H. simpl. tauto.
Defined.

(** *** C9: the lower bound of the reward amount *)

(** C9.  A record whose reward holds an amount below zero fails, with the
    [min] report at reward.amount, in every mode and whether validation is
    strict or casts, whatever else the reward holds. *)
Theorem reward_amount_lower_bound host flag m strict props r n :
  get_prop (VObj props) "reward" = VObj r ->
  get_prop (VObj r) "amount" = VNum n ->
  PrimFloat.ltb n PrimFloat.zero = true ->
  exists errs,
    validate host flag m BountySchema strict (VObj props) = Err errs
    /\ In (min_at [Key "reward"; Key "amount"]) errs.
Proof.
  intros Hr Ha Hneg. apply errors_of_In.
  destruct (negative_number n Hneg) as [Hnan Hle].
  rewrite BountySchema_shape.
  rewrite (record_field_errors host flag m strict _ _ props "reward" _ _ [Key "amount"]
             BountySchema_nodup eq_refl) by reflexivity.
  rewrite Hr, reward_field_shape.
  assert (HV : exists r',
    (if strict then VObj r
     else fst (cast host m (SObject (spec_of (when_method true Reward)) (fields_of Reward))
                 (VObj r))) = VObj r'
    /\ get_prop (VObj r') "amount" = VNum n).
  { destruct strict; [exists r; auto|].
    destruct (cast_object_is_obj host m (spec_of (when_method true Reward))
                (fields_of Reward) r) as (r' & Hr').
    exists r'. split; [exact Hr'|]. rewrite <- Hr'.
    rewrite (cast_object_get host m _ _ r "amount" _ Reward_nodup eq_refl), Ha.
    destruct m as [[|]|]; simpl; unfold base_cast; simpl; now rewrite Hnan. }
  destruct HV as (r' & -> & Ha').
  rewrite (object_errors_under flag m _ _ r' [Key "reward"] "amount" _ _ []
             Reward_nodup eq_refl) by reflexivity.
  rewrite Ha'. apply own_in_validate_at.
  unfold own_errors.
  assert (Hinit : forall s, In s [resolve m (when_method false (min_ PrimFloat.zero number))] ->
            initial_errors s [Key "reward"; Key "amount"] (VNum n) = []).
  { intros s [<-|[]]. destruct m as [[|]|]; unfold initial_errors; simpl; now rewrite Hnan. }
  rewrite Hinit by (simpl; auto).
  apply test_errors_In.
  exists {| t_name := "min"; t_fn := TMin PrimFloat.zero |}.
  split; [destruct m as [[|]|]; simpl; auto|].
  split; [|reflexivity].
  unfold run_test. simpl. exact Hle.
Qed.

Lemma reward_amount_lower_bound_witness :
  PrimFloat.ltb (PrimFloat.opp PrimFloat.one) PrimFloat.zero = true
  /\ exists errs,
       validate inert_host false (Some POST) BountySchema true
         (VObj [("reward", VObj negative_reward_props)]) = Err errs
       /\ In (min_at [Key "reward"; Key "amount"]) errs.
Proof.
  split; [reflexivity|].
  exact (reward_amount_lower_bound inert_host false (Some POST) true
           [("reward", VObj negative_reward_props)] negative_reward_props
           (PrimFloat.opp PrimFloat.one) eq_refl eq_refl eq_refl).
Defined.

(** *** C10: presence in the pairing test *)

(** C10.  The pairing test decides presence by truthiness: a pair with one
    field a non-empty string and the other the empty string is refused, a pair
    of two empty strings passes -- for the function itself and for both
    identity schemas, in every mode, strictly or not. *)
Theorem pairing_presence_is_truthiness host flag m strict c s :
  let nonempty := VStr (String c s) in
  let empty := VStr "" in
  let reported sch pair :=
    In (is_optional_at []) (errors_of (validate host flag m sch strict pair)) in
  (bothRequiredIfOneRequired (discordUser nonempty empty) = false
   /\ bothRequiredIfOneRequired (discordUser empty nonempty) = false
   /\ bothRequiredIfOneRequired (discordUser empty empty) = true)
  /\ (reported DiscordUser (discordUser nonempty empty)
      /\ reported DiscordUser (discordUser empty nonempty)
      /\ ~ reported DiscordUser (discordUser empty empty))
  /\ (reported RequiredDiscordUser (discordUser nonempty empty)
      /\ reported RequiredDiscordUser (discordUser empty nonempty)
      /\ ~ reported RequiredDiscordUser (discordUser empty empty)).
Proof.
  intros nonempty empty reported. subst nonempty empty reported. cbv beta.
  split; [repeat split; reflexivity|].
  split; destruct m as [[|]|]; destruct strict; vm_compute; intuition congruence.
Qed.

(* ================================================================= *)
(** ** Lemmas on the kinds of fields *)

(** *** A context without [$method] *)

Lemma resolve_no_method s : resolve None s = resolve (Some PATCH) s.
Proof. reflexivity. Qed.

Lemma getDefault_no_method s : getDefault None s = getDefault (Some PATCH) s.
Proof. destruct s as [sp|sp|sp|sp [|f fs]|sp i]; reflexivity. Qed.

Lemma base_cast_no_method s t v :
  base_cast None s t v = base_cast (Some PATCH) s t v.
Proof. unfold base_cast. now rewrite getDefault_no_method. Qed.

Lemma cast_no_method host s : forall v,
  cast host None s v = cast host (Some PATCH) s v.
Proof.
  induction s as [sp|sp|sp|sp fields IH|sp|sp innerType IH] using schema_ind'; intros v;
    cbn [cast]; rewrite base_cast_no_method; try reflexivity.
  - destruct (base_cast (Some PATCH) (SObject sp fields) (transform_object host) v)
      as [value changed].
    destruct value; try reflexivity.
    replace (map (fun kf => (fst kf, cast host None (snd kf)
                                      (get_prop (VObj props) (fst kf)))) fields)
      with (map (fun kf => (fst kf, cast host (Some PATCH) (snd kf)
                                      (get_prop (VObj props) (fst kf)))) fields).
    + reflexivity.
    + apply map_ext_in. intros kf Hin.
      rewrite Forall_forall in IH. now rewrite (IH kf Hin).
  - destruct (base_cast (Some PATCH) (SArray sp (Some innerType)) (transform_array host) v)
      as [value changed].
    destruct value; try reflexivity.
    replace (map (cast host None innerType) items)
      with (map (cast host (Some PATCH) innerType) items); [reflexivity|].
    apply map_ext. intros x. symmetry. apply IH.
Qed.

Lemma validate_at_no_method flag s : forall p v,
  validate_at flag None s p v = validate_at flag (Some PATCH) s p v.
Proof.
  induction s as [sp|sp|sp|sp fields IH|sp|sp innerType IH] using schema_ind'; intros p v;
    rewrite !validate_at_eq; reflexivity.
Qed.

Lemma BountySchema_kinds :
  fields_of BountySchema = map (fun kc => (fst kc, kind_schema (snd kc))) bounty_kinds.
Proof. reflexivity. Qed.

Lemma BountyClaimSchema_kinds :
  fields_of BountyClaimSchema = map (fun kc => (fst kc, kind_schema (snd kc))) claim_kinds.
Proof. reflexivity. Qed.

Ltac run_tests :=
  simpl; unfold own_errors, initial_errors, test_errors, run_test, status_value; simpl.

Ltac split_eqbs :=
  repeat match goal with
         | |- context [String.eqb ?a ?b] => destruct (String.eqb a b); simpl
         end.

Lemma plain_string_ok flag m p x :
  validate_at flag m (kind_schema PlainString) p x = [] <->
  kind_ok flag m PlainString x = true.
Proof.
  destruct m as [[|]|]; destruct x; run_tests; split; congruence.
Qed.

Lemma policy_string_ok flag m p x :
  validate_at flag m (kind_schema PolicyString) p x = [] <->
  kind_ok flag m PolicyString x = true.
Proof.
  destruct m as [[|]|]; destruct x; run_tests; split; congruence.
Qed.

Lemma required_string_ok flag m p x :
  validate_at flag m (kind_schema RequiredString) p x = [] <->
  kind_ok flag m RequiredString x = true.
Proof.
  destruct m as [[|]|]; destruct x; run_tests; try (split; congruence);
    destruct s; simpl; split; congruence.
Qed.

Lemma policy_status_ok flag m p x :
  validate_at flag m (kind_schema PolicyStatus) p x = [] <->
  kind_ok flag m PolicyStatus x = true.
Proof.
  destruct m as [[|]|]; destruct x; run_tests; try (split; congruence);
    split_eqbs; split; congruence.
Qed.

Lemma required_status_ok flag m p x :
  validate_at flag m (kind_schema RequiredStatus) p x = [] <->
  kind_ok flag m RequiredStatus x = true.
Proof.
  destruct m as [[|]|]; destruct x; run_tests; try (split; congruence);
    split_eqbs; split; congruence.
Qed.

Lemma plain_status_ok flag m p x :
  validate_at flag m Status p x = [] <->
  is_undefined x || status_value x = true.
Proof.
  destruct m as [[|]|]; destruct x; run_tests; try (split; congruence);
    unfold status_value; simpl; split_eqbs; split; congruence.
Qed.

Lemma policy_reward_ok flag m p x :
  validate_at flag m (kind_schema PolicyReward) p x = [] <->
  kind_ok flag m PolicyReward x = true.
Proof.
  cbn [kind_schema kind_ok]. rewrite reward_field_ok_strict.
  rewrite orb_true_iff, andb_true_iff, negb_true_iff. split.
  - intros [[H ->]|H]; [left; auto | now right].
  - intros [[H Hx]|H]; [left; split; [exact H|now destruct x] | now right].
Qed.

Lemma bare_string_ok flag m p x :
  validate_at flag m string_ p x = [] <-> string_or_undefined x = true.
Proof.
  destruct m as [[|]|]; destruct x; run_tests; split; congruence.
Qed.

Lemma app_nil_iff {A} (a b : list A) : a ++ b = [] <-> a = [] /\ b = [].
Proof.
  split; [apply app_eq_nil | intros [-> ->]; reflexivity].
Qed.

Lemma entry_ok_iff flag m p e :
  validate_at flag m StatusHistory p e = [] <-> entry_ok e = true.
Proof.
  destruct e as [| | | | |o|];
    try (destruct m as [[|]|]; run_tests; split; congruence).
  unfold StatusHistory, object. rewrite validate_at_eq.
  replace (own_errors flag (resolve m (SObject empty_spec
             [("status", Status); ("modifiedAt", string_)])) p (VObj o))
    with (@nil error) by (destruct m as [[|]|]; reflexivity).
  cbn [isObject flat_map fst snd app]. rewrite app_nil_r, app_nil_iff.
  rewrite plain_status_ok, bare_string_ok.
  unfold entry_ok. now rewrite andb_true_iff.
Qed.

Lemma items_ok_iff flag m p items :
  flat_map (fun ix => validate_at flag m StatusHistory (p ++ [Index (fst ix)]) (snd ix))
    (indexed items) = [] <->
  forallb entry_ok items = true.
Proof.
  rewrite flat_map_nil, forallb_forall. split.
  - intros H x Hx. apply In_nth_error in Hx as (i & Hi).
    apply indexed_In in Hi. specialize (H _ Hi). now apply entry_ok_iff in H.
  - intros H [i x] Hix. apply indexed_In, nth_error_In in Hix.
    apply entry_ok_iff. now apply H.
Qed.

Lemma history_kind_ok flag m p x :
  validate_at flag m (kind_schema History) p x = [] <->
  kind_ok flag m History x = true.
Proof.
  destruct x as [| | | | | |items];
    try (destruct m as [[|]|]; run_tests; split; congruence).
  cbn [kind_schema kind_ok is_undefined orb history_ok].
  rewrite <- (items_ok_iff flag m p items).
  change (optional (array StatusHistory))
    with (SArray (spec_of (optional (array StatusHistory))) (Some StatusHistory)).
  rewrite (validate_at_eq flag m (SArray _ (Some StatusHistory))).
  replace (own_errors flag (resolve m (SArray (spec_of (optional (array StatusHistory)))
             (Some StatusHistory))) p (VArr items))
    with (@nil error) by (destruct m as [[|]|]; reflexivity).
  reflexivity.
Qed.

Lemma required_history_ok flag m p x :
  validate_at flag m (kind_schema RequiredHistory) p x = [] <->
  kind_ok flag m RequiredHistory x = true.
Proof.
  destruct x as [| | | | | |items];
    try (destruct m as [[|]|]; run_tests; split; congruence).
  cbn [kind_schema kind_ok history_ok].
  change (required (array StatusHistory))
    with (SArray (spec_of (required (array StatusHistory))) (Some StatusHistory)).
  rewrite (validate_at_eq flag m (SArray _ (Some StatusHistory))).
  rewrite app_nil_iff, items_ok_iff, andb_true_iff, negb_true_iff.
  assert (Hown : own_errors flag (resolve m (SArray (spec_of (required (array StatusHistory)))
                   (Some StatusHistory))) p (VArr items) = [] <->
                 flag && match items with [] => true | _ => false end = false).
  { destruct m as [[|]|]; destruct flag; destruct items; run_tests; split; congruence. }
  rewrite Hown. tauto.
Qed.

Lemma pair_own_nil flag m sch p o :
  In sch pair_schemas ->
  own_errors flag (resolve m sch) p (VObj o) = [] <->
  bothRequiredIfOneRequired (VObj o) = true.
Proof.
  intros Hsch.
  repeat (destruct Hsch as [<-|Hsch];
    [destruct m as [[|]|]; unfold own_errors, initial_errors, test_errors, run_test; simpl;
     destruct (bothRequiredIfOneRequired (VObj o)); simpl; split; congruence|]).
  destruct Hsch.
Qed.

Lemma plain_pair_object_ok flag m sch p o :
  In sch [default_ VUndefined (optional DiscordUser); required DiscordUser] ->
  validate_at flag m sch p (VObj o) = [] <-> pair_ok string_or_undefined (VObj o) = true.
Proof.
  intros Hsch.
  assert (Hshape : sch = SObject (spec_of sch)
                     [("discordHandle", optional string_); ("discordId", optional string_)]).
  { destruct Hsch as [<-|[<-|[]]]; reflexivity. }
  assert (Hp : In sch pair_schemas).
  { destruct Hsch as [<-|[<-|[]]]; simpl; auto. }
  pose proof (pair_own_nil flag m sch p o Hp) as Hown.
  rewrite Hshape, validate_at_eq. rewrite <- Hshape.
  cbn [isObject flat_map fst snd app]. rewrite app_nil_r, !app_nil_iff, Hown.
  rewrite (plain_string_ok flag m (p ++ [Key "discordHandle"])),
          (plain_string_ok flag m (p ++ [Key "discordId"])).
  unfold pair_ok. cbn [kind_ok]. rewrite !andb_true_iff. tauto.
Qed.

Lemma plain_pair_ok flag m p x :
  validate_at flag m (kind_schema PlainPair) p x = [] <->
  kind_ok flag m PlainPair x = true.
Proof.
  destruct x as [| | | | |o|];
    try (destruct m as [[|]|]; run_tests; split; congruence).
  cbn [kind_schema kind_ok is_undefined orb].
  apply plain_pair_object_ok. simpl. auto.
Qed.

Lemma required_pair_ok flag m p x :
  validate_at flag m (kind_schema RequiredPair) p x = [] <->
  kind_ok flag m RequiredPair x = true.
Proof.
  destruct x as [| | | | |o|];
    try (destruct m as [[|]|]; run_tests; split; congruence).
  cbn [kind_schema kind_ok].
  apply plain_pair_object_ok. simpl. auto.
Qed.

Lemma policy_pair_ok flag m p x :
  validate_at flag m (kind_schema PolicyPair) p x = [] <->
  kind_ok flag m PolicyPair x = true.
Proof.
  destruct x as [| | | | |o|];
    try (destruct m as [[|]|]; run_tests; split; congruence).
  cbn [kind_schema kind_ok is_undefined]. rewrite andb_false_r. cbn [orb].
  pose proof (pair_own_nil flag m (when_method true RequiredDiscordUser) p o
                (or_introl eq_refl)) as Hown.
  change (when_method true RequiredDiscordUser)
    with (SObject (spec_of (when_method true RequiredDiscordUser))
            [("discordId", kind_schema PolicyString);
             ("discordHandle", kind_schema PolicyString)]) at 1.
  rewrite validate_at_eq.
  change (SObject (spec_of (when_method true RequiredDiscordUser))
            [("discordId", kind_schema PolicyString);
             ("discordHandle", kind_schema PolicyString)])
    with (when_method true RequiredDiscordUser).
  cbn [isObject flat_map fst snd app]. rewrite app_nil_r, !app_nil_iff, Hown.
  rewrite (policy_string_ok flag m (p ++ [Key "discordId"])),
          (policy_string_ok flag m (p ++ [Key "discordHandle"])).
  unfold pair_ok. cbn [kind_ok]. rewrite !andb_true_iff. tauto.
Qed.

(** Strict validation of a field accepts what its kind describes. *)
Lemma kind_ok_iff flag m c p x :
  validate_at flag m (kind_schema c) p x = [] <-> kind_ok flag m c x = true.
Proof.
  destruct c.
  - apply plain_string_ok.
  - apply policy_string_ok.
  - apply policy_status_ok.
  - apply policy_reward_ok.
  - apply history_kind_ok.
  - apply policy_pair_ok.
  - apply plain_pair_ok.
  - apply required_string_ok.
  - apply required_pair_ok.
  - apply required_status_ok.
  - apply required_history_ok.
Qed.

Lemma record_table_fields sch kinds :
  In (sch, kinds) record_tables ->
  fields_of sch = map (fun kc => (fst kc, kind_schema (snd kc))) kinds.
Proof.
  intros [H|[H|[]]]; injection H as <- <-; reflexivity.
Qed.

Lemma record_table_schema sch kinds :
  In (sch, kinds) record_tables -> In sch [BountySchema; BountyClaimSchema].
Proof.
  intros [H|[H|[]]]; injection H as <- <-; simpl; auto.
Qed.

Lemma record_own_nil flag m sch p props :
  In sch [BountySchema; BountyClaimSchema] ->
  own_errors flag (resolve m sch) p (VObj props) = [] <->
  unknown sch (VObj props) = [].
Proof.
  intros Hsch. split.
  - intros H. destruct (list_eq_dec string_dec (unknown sch (VObj props)) [])
      as [Hu|Hu]; [exact Hu|exfalso].
    assert (Hin : In (no_unknown_at p) (own_errors flag (resolve m sch) p (VObj props))).
    { apply (record_own_errors flag m sch p props (no_unknown_at p)); auto. }
    rewrite H in Hin. exact Hin.
  - intros Hu. destruct Hsch as [<-|[<-|[]]]; destruct m as [[|]|]; unfold own_errors; simpl;
      unfold test_errors, run_test; simpl;
      unfold unknown in *; simpl in *; now rewrite Hu.
Qed.

Lemma record_strict_nil flag m sch kinds v :
  In (sch, kinds) record_tables ->
  validate_at flag m sch [] v = [] <-> record_accepts kinds flag m v = true.
Proof.
  intros Htab.
  pose proof (record_table_fields sch kinds Htab) as Hf.
  pose proof (record_table_schema sch kinds Htab) as Hsch.
  destruct v as [| | | | |props|];
    try (destruct Hsch as [<-|[<-|[]]]; destruct Htab as [H|[H|[]]];
         injection H as <-; destruct m as [[|]|]; run_tests; split; congruence).
  assert (Hshape : sch = SObject (spec_of sch) (fields_of sch)).
  { destruct Hsch as [<-|[<-|[]]]; reflexivity. }
  rewrite Hshape, validate_at_eq, <- Hshape.
  cbn [isObject record_accepts]. rewrite app_nil_iff, andb_true_iff.
  rewrite (record_own_nil flag m sch [] props Hsch), unknown_nil.
  rewrite forallb_forall. unfold declared. rewrite Hf, map_map. cbn [fst].
  rewrite flat_map_nil, forallb_forall.
  split; intros [Hu Hk]; split.
  - intros k Hin. apply mem_In. auto.
  - intros kc Hkc. apply (kind_ok_iff flag m (snd kc) ([] ++ [Key (fst kc)])).
    apply (Hk (fst kc, kind_schema (snd kc))).
    apply in_map_iff. exists kc. auto.
  - intros k Hin. apply mem_In. auto.
  - intros kf Hkf. apply in_map_iff in Hkf as (kc & <- & Hkc). cbn [fst snd].
    apply kind_ok_iff. auto.
Qed.

Lemma record_accepts_object kinds flag m props :
  record_accepts kinds flag m (VObj props) = true <->
  (forall k, In k (own_keys (VObj props)) -> In k (map fst kinds))
  /\ (forall k c, In (k, c) kinds -> kind_ok flag m c (get_prop (VObj props) k) = true).
Proof.
  cbn [record_accepts]. rewrite andb_true_iff, !forallb_forall. split.
  - intros [Hk Hc]. split.
    + intros k Hin. apply mem_In. auto.
    + intros k c Hin. apply (Hc (k, c) Hin).
  - intros [Hk Hc]. split.
    + intros k Hin. apply mem_In. auto.
    + intros [k c] Hin. apply (Hc k c Hin).
Qed.

Lemma strict_Ok host flag m sch kinds v :
  In (sch, kinds) record_tables ->
  validate host flag m sch true v = Ok v <-> record_accepts kinds flag m v = true.
Proof.
  intros Htab. rewrite <- (record_strict_nil flag m sch kinds v Htab).
  unfold validate. destruct (validate_at flag m sch [] v); split; congruence.
Qed.

Lemma pair_ok_weaken (f g : value -> bool) x :
  (forall y, f y = true -> g y = true) -> pair_ok f x = true -> pair_ok g x = true.
Proof.
  intros Hfg. destruct x; simpl; try discriminate.
  rewrite !andb_true_iff. intros [[H1 H2] H3]. auto.
Qed.

(** What Create accepts for a field, Update accepts. *)
Lemma kind_ok_create_update flag c x :
  kind_ok flag (Some POST) c x = true -> kind_ok flag (Some PATCH) c x = true.
Proof.
  destruct c; cbn [kind_ok is_POST negb andb orb]; auto; intros H;
    try (rewrite H; apply orb_true_r).
  apply orb_true_iff. right. revert H. apply pair_ok_weaken.
  intros y Hy. simpl in *. rewrite Hy. apply orb_true_r.
Qed.

(** On Update every field of a bounty may be absent. *)
Lemma kind_ok_update_absent flag k c :
  In (k, c) bounty_kinds -> kind_ok flag (Some PATCH) c VUndefined = true.
Proof.
  intros H. simpl in H.
  repeat (destruct H as [H|H]; [injection H as <- <-; reflexivity|]). destruct H.
Qed.

(** No field of a bounty or of a claim takes [null]. *)
Lemma kind_ok_null flag m c : kind_ok flag m c VNull = false.
Proof. destruct c; destruct m as [[|]|]; reflexivity. Qed.

Lemma kind_ok_string flag m c s :
  In c [PlainString; PolicyString] -> kind_ok flag m c (VStr s) = true.
Proof.
  intros [<-|[<-|[]]]; destruct m as [[|]|]; reflexivity.
Qed.

(** What a claim field accepts, the bounty field of the same name accepts on
    Update. *)
Lemma claim_kind_in_bounty flag m k c x :
  In (k, c) claim_kinds ->
  kind_ok flag m c x = true ->
  exists c', lookup k bounty_kinds = Some c' /\ kind_ok flag (Some PATCH) c' x = true.
Proof.
  intros H Hok. simpl in H.
  destruct H as [H|[H|[H|[H|[]]]]]; injection H as <- <-; eexists; (split; [reflexivity|]);
    cbn [kind_ok is_POST negb andb] in *.
  - destruct x; try discriminate. reflexivity.
  - rewrite Hok. apply orb_true_r.
  - rewrite Hok. apply orb_true_r.
  - apply andb_true_iff in Hok as [Hok _]. rewrite Hok. apply orb_true_r.
Qed.

Lemma bounty_kinds_nodup : NoDup (map fst bounty_kinds).
Proof.
  simpl. repeat (constructor; [simpl; intuition discriminate|]). constructor.
Qed.

Lemma own_keys_set_prop k x props k' :
  In k' (own_keys (VObj (set_prop k x props))) ->
  k' = k \/ In k' (own_keys (VObj props)).
Proof.
  simpl. rewrite !nodup_In. induction props as [|[k0 y] props IH]; simpl.
  - intros [<-|[]]. now left.
  - destruct (String.eqb_spec k k0) as [->|Hne]; simpl.
    + intros [<-|H]; auto.
    + intros [<-|H]; auto. destruct (IH H); auto.
Qed.

Lemma get_prop_set_prop k x props k' :
  get_prop (VObj (set_prop k x props)) k'
  = if String.eqb k' k then x else get_prop (VObj props) k'.
Proof.
  simpl. rewrite lookup_set_prop. now destruct (String.eqb k' k).
Qed.

Lemma existsb_false {A} (f : A -> bool) l :
  existsb f l = false <-> forall a, In a l -> f a = false.
Proof.
  induction l as [|a l IH]; simpl.
  - split; [intros _ a []|reflexivity].
  - rewrite orb_false_iff, IH. split.
    + intros [Ha Hl] b [<-|Hb]; auto.
    + intros H. split; [apply H; now left | intros b Hb; apply H; now right].
Qed.

(** The loop of an object cast returns the value itself when no field cast
    changed anything and no key is there to strip. *)
Lemma loop_fixed strip casted v :
  (forall kc, In kc casted -> snd (snd kc) = false) ->
  (strip = true -> forall k, In k (own_keys v) ->
                   In k (map fst casted) \/ get_prop v k = VUndefined) ->
  cast_object_loop strip casted v = (v, false).
Proof.
  intros Hc Hs. unfold cast_object_loop.
  assert (H1 : existsb (fun kc : string * (value * bool) => snd (snd kc)) (rev casted) = false).
  { apply existsb_false. intros kc Hin. apply Hc. now apply in_rev. }
  assert (H2 : strip && existsb (fun k => negb (is_undefined (get_prop v k)))
                  (filter (fun k => negb (mem k (map fst casted))) (own_keys v)) = false).
  { destruct strip; [|reflexivity]. simpl. apply existsb_false.
    intros k Hk. apply filter_In in Hk as [Hk Hm].
    destruct (Hs eq_refl k Hk) as [Hin|Hu].
    - apply mem_In in Hin. rewrite Hin in Hm. discriminate.
    - now rewrite Hu. }
  now rewrite H1, H2.
Qed.

Lemma object_cast_fixed host m sp fields props :
  (forall k f, In (k, f) fields ->
     cast host m f (get_prop (VObj props) k) = (get_prop (VObj props) k, false)) ->
  (sp_noUnknown (spec_of (resolve m (SObject sp fields))) = true ->
   forall k, In k (own_keys (VObj props)) ->
     In k (map fst fields) \/ get_prop (VObj props) k = VUndefined) ->
  cast host m (SObject sp fields) (VObj props) = (VObj props, false).
Proof.
  intros Hf Hs. rewrite cast_object_eq. apply loop_fixed.
  - intros kc Hin. apply in_map_iff in Hin as ([k f] & <- & Hin). cbn [fst snd].
    now rewrite (Hf k f Hin).
  - intros Hstrip k Hk. rewrite map_map. cbn [fst]. now apply Hs.
Qed.

Lemma string_kind_fixed host flag m c x :
  In c [PlainString; PolicyString; RequiredString; PolicyStatus; RequiredStatus] ->
  kind_ok flag m c x = true ->
  cast host m (kind_schema c) x = (x, false).
Proof.
  intros Hc. simpl in Hc.
  repeat (destruct Hc as [<-|Hc];
          [destruct m as [[|]|]; destruct x; simpl; try discriminate; reflexivity|]).
  destruct Hc.
Qed.

Lemma member_fixed host m sub x :
  In sub [optional string_; when_method false string_; string_; Status] ->
  (match sub with SMixed _ => true | _ => string_or_undefined x end) = true ->
  cast host m sub x = (x, false).
Proof.
  intros Hs. simpl in Hs.
  repeat (destruct Hs as [<-|Hs];
          [destruct m as [[|]|]; destruct x; simpl; try discriminate; reflexivity|]).
  destruct Hs.
Qed.

Lemma reward_fixed host m o :
  reward_complete (VObj o) = true ->
  cast host m (when_method true Reward) (VObj o) = (VObj o, false).
Proof.
  unfold reward_complete. rewrite !andb_true_iff.
  intros [[[[_ Ha] Hc] Hs] Hw].
  change (when_method true Reward)
    with (SObject (spec_of (when_method true Reward)) (fields_of Reward)).
  apply object_cast_fixed.
  - intros k f Hin. simpl in Hin.
    destruct Hin as [H|[H|[H|[H|[]]]]]; injection H as <- <-.
    + destruct (get_prop (VObj o) "amount") as [| | |n| | |]; try discriminate.
      simpl in Ha. apply andb_true_iff in Ha as [Hn _]. apply negb_true_iff in Hn.
      destruct m as [[|]|]; simpl; now rewrite Hn.
    + destruct (get_prop (VObj o) "currency"); try discriminate.
      destruct m as [[|]|]; reflexivity.
    + destruct (get_prop (VObj o) "scale") as [| | |n| | |]; try discriminate.
      simpl in Hs. apply negb_true_iff in Hs.
      destruct m as [[|]|]; simpl; now rewrite Hs.
    + destruct (get_prop (VObj o) "amountWithoutScale") as [| | |n| | |]; try discriminate.
      simpl in Hw. apply negb_true_iff in Hw.
      destruct m as [[|]|]; simpl; now rewrite Hw.
  - intros Hstrip. destruct m as [[|]|]; discriminate Hstrip.
Qed.

Lemma pair_fixed host m sch (g : value -> bool) o :
  In sch [when_method true RequiredDiscordUser;
          default_ VUndefined (optional DiscordUser); required DiscordUser] ->
  (forall y, g y = true -> string_or_undefined y = true) ->
  pair_ok g (VObj o) = true ->
  cast host m sch (VObj o) = (VObj o, false).
Proof.
  intros Hsch Hg. unfold pair_ok. rewrite !andb_true_iff. intros [[Hi Hh] _].
  apply Hg in Hi, Hh.
  assert (Hshape : sch = SObject (spec_of sch) (fields_of sch)).
  { destruct Hsch as [<-|[<-|[<-|[]]]]; reflexivity. }
  rewrite Hshape. apply object_cast_fixed.
  - intros k f Hin.
    assert (Hkf : (k = "discordId" \/ k = "discordHandle")
                  /\ In f [optional string_; when_method false string_; string_; Status]
                  /\ (match f with SMixed _ => false | _ => true end) = true).
    { destruct Hsch as [<-|[<-|[<-|[]]]]; simpl in Hin;
        destruct Hin as [H|[H|[]]]; injection H as <- <-; simpl; auto. }
    destruct Hkf as (Hk & Hf & Hnm). apply member_fixed; [exact Hf|].
    destruct f; try discriminate; destruct Hk as [->| ->]; assumption.
  - intros Hstrip. exfalso.
    destruct Hsch as [<-|[<-|[<-|[]]]]; destruct m as [[|]|]; discriminate Hstrip.
Qed.

Lemma entry_fixed host m e :
  entry_ok e = true -> is_undefined e = false ->
  cast host m StatusHistory e = (e, false).
Proof.
  destruct e as [| | | | |o|]; try discriminate. intros Hok _.
  unfold entry_ok in Hok. apply andb_true_iff in Hok as [_ Hm].
  unfold StatusHistory, object. apply object_cast_fixed.
  - intros k f Hin. simpl in Hin.
    destruct Hin as [H|[H|[]]]; injection H as <- <-.
    + apply member_fixed; simpl; auto.
    + apply member_fixed; simpl; auto.
  - intros Hstrip. destruct m as [[|]|]; discriminate Hstrip.
Qed.

Lemma history_fixed host m sch items :
  In sch [optional (array StatusHistory); required (array StatusHistory)] ->
  forallb entry_ok items = true ->
  entries_defined (VArr items) = true ->
  cast host m sch (VArr items) = (VArr items, false).
Proof.
  intros Hsch Hok Hd. simpl in Hd.
  assert (Hshape : sch = SArray (spec_of sch) (Some StatusHistory)).
  { destruct Hsch as [<-|[<-|[]]]; reflexivity. }
  rewrite Hshape. cbn [cast base_cast transform_array].
  assert (He : existsb snd (map (cast host m StatusHistory) items) = false).
  { apply existsb_false. intros r Hr. apply in_map_iff in Hr as (e & <- & He).
    rewrite forallb_forall in Hok, Hd.
    rewrite entry_fixed; auto. apply negb_true_iff. auto. }
  now rewrite He.
Qed.

(** A field that strict validation accepts is a fixed point of the cast. *)
Lemma kind_fixed host flag m c x :
  kind_ok flag m c x = true ->
  entries_defined x = true ->
  cast host m (kind_schema c) x = (x, false).
Proof.
  intros Hok Hd.
  destruct c;
    try (apply (string_kind_fixed host flag); [simpl; tauto | exact Hok]).
  - (* reward *)
    cbn [kind_ok kind_schema] in *. destruct x; try (destruct m as [[|]|]; discriminate).
    + destruct m as [[|]|]; try discriminate; reflexivity.
    + apply reward_fixed. destruct m as [[|]|]; exact Hok.
  - (* history *)
    cbn [kind_ok kind_schema] in *. destruct x; try discriminate; [reflexivity|].
    apply history_fixed; simpl; auto.
  - (* creator *)
    cbn [kind_ok kind_schema] in *. destruct x; try (destruct m as [[|]|]; discriminate).
    + destruct m as [[|]|]; try discriminate; reflexivity.
    + assert (Hp : pair_ok (fun y => negb (is_POST m) && is_undefined y || is_string y)
                     (VObj props) = true).
      { destruct (negb (is_POST m)); exact Hok. }
      revert Hp. apply pair_fixed; [simpl; auto|].
      intros y. destruct y; simpl; rewrite ?andb_false_r; auto.
  - (* identity *)
    cbn [kind_ok kind_schema] in *. destruct x; try discriminate; [reflexivity|].
    revert Hok. apply pair_fixed; [simpl; auto|auto].
  - (* identity of a claim *)
    cbn [kind_ok kind_schema] in *. destruct x; try discriminate.
    revert Hok. apply pair_fixed; [simpl; auto|auto].
  - (* history of a claim *)
    cbn [kind_ok kind_schema] in *. destruct x; try discriminate.
    apply andb_true_iff in Hok as [Hok _].
    apply history_fixed; simpl; auto.
Qed.

Lemma record_table_shape sch kinds :
  In (sch, kinds) record_tables ->
  sch = SObject (spec_of sch) (fields_of sch)
  /\ NoDup (map fst (fields_of sch))
  /\ NoDup (map fst kinds)
  /\ map fst (fields_of sch) = map fst kinds
  /\ forall m, sp_noUnknown (spec_of (resolve m sch)) = true.
Proof.
  intros [H|[H|[]]]; injection H as <- <-.
  - split; [reflexivity|]. split; [exact BountySchema_nodup|].
    split; [exact bounty_kinds_nodup|]. split; [reflexivity|].
    intros [[|]|]; reflexivity.
  - split; [reflexivity|]. split; [exact BountyClaimSchema_nodup|].
    split; [exact BountyClaimSchema_nodup|]. split; [reflexivity|].
    intros [[|]|]; reflexivity.
Qed.

Lemma record_table_lookup sch kinds k c :
  In (sch, kinds) record_tables ->
  In (k, c) kinds ->
  lookup k (fields_of sch) = Some (kind_schema c).
Proof.
  intros Htab Hin.
  destruct (record_table_shape sch kinds Htab) as (_ & Hnd & _).
  apply In_lookup; [exact Hnd|].
  rewrite (record_table_fields sch kinds Htab).
  apply in_map_iff. exists (k, c). auto.
Qed.

(** The fields of what a record cast returns, and its keys when the record
    came from JSON. *)
Lemma record_cast_output host m sch kinds props :
  In (sch, kinds) record_tables ->
  exists o',
    fst (cast host m sch (VObj props)) = VObj o'
    /\ (forall k c, In (k, c) kinds ->
          get_prop (VObj o') k
          = fst (cast host m (kind_schema c) (get_prop (VObj props) k)))
    /\ (holds_values props = true ->
        forall k, In k (own_keys (VObj o')) -> In k (map fst kinds)).
Proof.
  intros Htab.
  destruct (record_table_shape sch kinds Htab) as (Hshape & Hnd & _ & Hkeys & Hstrip).
  destruct (cast_object_is_obj host m (spec_of sch) (fields_of sch) props) as (o' & Ho').
  rewrite <- Hshape in Ho'. exists o'. split; [exact Ho'|]. split.
  - intros k c Hin. rewrite <- Ho', Hshape.
    apply cast_object_get; [exact Hnd|].
    now apply (record_table_lookup sch kinds).
  - intros Hv k Hk.
    pose proof (cast_object_eq host m (spec_of sch) (fields_of sch) props) as Heq.
    rewrite <- Hshape in Heq. rewrite <- Ho', Heq, Hstrip in Hk.
    destruct (in_dec string_dec k (map fst kinds)) as [Hin|Hout]; [exact Hin|exfalso].
    apply loop_strips in Hk as [Hk Hu].
    + now apply (holds_values_get props k Hv Hk).
    + rewrite map_fst_map, Hkeys. exact Hout.
Qed.

(** Casting validation of a record from JSON: each declared field, once cast,
    is what its kind describes; the other keys play no part. *)
Lemma casting_Ok host flag m sch kinds props out :
  In (sch, kinds) record_tables ->
  holds_values props = true ->
  validate host flag m sch false (VObj props) = Ok out <->
  out = fst (cast host m sch (VObj props))
  /\ forall k c, In (k, c) kinds ->
       kind_ok flag m c (fst (cast host m (kind_schema c) (get_prop (VObj props) k))) = true.
Proof.
  intros Htab Hv.
  destruct (record_cast_output host m sch kinds props Htab) as (o' & Ho' & Hget & Hkeys).
  specialize (Hkeys Hv).
  assert (Hacc : validate_at flag m sch [] (VObj o') = [] <->
                 forall k c, In (k, c) kinds ->
                   kind_ok flag m c
                     (fst (cast host m (kind_schema c) (get_prop (VObj props) k))) = true).
  { rewrite (record_strict_nil flag m sch kinds (VObj o') Htab), record_accepts_object.
    split.
    - intros [_ Hc] k c Hin. rewrite <- (Hget k c Hin). auto.
    - intros Hc. split; [exact Hkeys|]. intros k c Hin. rewrite (Hget k c Hin). auto. }
  unfold validate. rewrite Ho'.
  destruct (validate_at flag m sch [] (VObj o')) as [|e errs].
  - split.
    + intros H. split; [congruence|]. now apply Hacc.
    + intros [-> _]. reflexivity.
  - split; [discriminate|]. intros [_ Hc]. apply Hacc in Hc. discriminate.
Qed.

Lemma kind_entries_defined flag m c x :
  kind_ok flag m c x = true ->
  In c [History; RequiredHistory] \/ entries_defined x = true.
Proof.
  destruct c; auto; try (left; simpl; tauto);
    destruct x; auto; destruct m as [[|]|]; discriminate.
Qed.

(** A record that strict validation accepts is a fixed point of the cast. *)
Lemma record_fixed host flag m sch kinds props :
  In (sch, kinds) record_tables ->
  record_accepts kinds flag m (VObj props) = true ->
  entries_defined (get_prop (VObj props) "statusHistory") = true ->
  cast host m sch (VObj props) = (VObj props, false).
Proof.
  intros Htab Hacc Hd.
  destruct (record_table_shape sch kinds Htab) as (Hshape & Hnd & _ & Hkeys & Hstrip).
  apply record_accepts_object in Hacc as [Hk Hc].
  rewrite Hshape. apply object_cast_fixed.
  - intros k f Hin. rewrite (record_table_fields sch kinds Htab) in Hin.
    apply in_map_iff in Hin as ([k' c] & Heq & Hin). cbn [fst snd] in Heq.
    injection Heq as -> <-.
    specialize (Hc k c Hin). apply (kind_fixed host flag); [exact Hc|].
    destruct (kind_entries_defined flag m c _ Hc) as [Hh|Hx]; [|exact Hx].
    assert (Hname : k = "statusHistory").
    { destruct Htab as [H|[H|[]]]; injection H as <- <-; simpl in Hin;
        repeat (destruct Hin as [Hin|Hin];
                [injection Hin as <- <-;
                 first [reflexivity | destruct Hh as [Hh|[Hh|[]]]; discriminate Hh]|]);
        destruct Hin. }
    now rewrite Hname.
  - intros _ k Hin. left. rewrite Hkeys. auto.
Qed.

(** The cast of an array leaves no entry without a value. *)
Lemma history_cast_defined host m sch x :
  In sch [optional (array StatusHistory); required (array StatusHistory)] ->
  entries_defined (fst (cast host m sch x)) = true.
Proof.
  intros Hsch.
  assert (Hshape : sch = SArray (spec_of sch) (Some StatusHistory)).
  { destruct Hsch as [<-|[<-|[]]]; reflexivity. }
  assert (Hentry : forall e, is_undefined e = true ->
                     snd (cast host m StatusHistory e) = true
                     /\ is_undefined (fst (cast host m StatusHistory e)) = false).
  { intros e He. destruct e; try discriminate. destruct m as [[|]|]; split; reflexivity. }
  assert (Hkeep : forall e, is_undefined e = false ->
                    is_undefined (fst (cast host m StatusHistory e)) = false).
  { intros e He. destruct e as [| | | |s|o|]; try discriminate; try reflexivity.
    - unfold StatusHistory, object. cbn [cast base_cast transform_object].
      destruct (jsonParse host s); try reflexivity.
      match goal with |- context [cast_object_loop ?a ?b ?c] =>
        unfold cast_object_loop; destruct (existsb _ _ || _); reflexivity end.
    - unfold StatusHistory, object.
      destruct (cast_object_is_obj host m empty_spec
                  [("status", Status); ("modifiedAt", string_)] o) as (o' & ->).
      reflexivity. }
  rewrite Hshape. cbn [cast].
  destruct (base_cast m (SArray (spec_of sch) (Some StatusHistory)) (transform_array host) x)
    as [value changed].
  destruct value as [| | | | | |items]; try reflexivity.
  destruct (existsb snd (map (cast host m StatusHistory) items)) eqn:Hex; cbn [fst].
  - simpl. apply forallb_forall. intros e He.
    apply in_map_iff in He as (r & <- & Hr). apply in_map_iff in Hr as (e & <- & He).
    apply negb_true_iff. destruct (is_undefined e) eqn:Hu.
    + now apply Hentry.
    + now apply Hkeep.
  - simpl. apply forallb_forall. intros e He. apply negb_true_iff.
    destruct (is_undefined e) eqn:Hu; [exfalso|reflexivity].
    apply not_true_iff_false in Hex. apply Hex. apply existsb_exists.
    exists (cast host m StatusHistory e). split; [now apply in_map|].
    now apply Hentry.
Qed.

(** A cast by an object schema is that of an object value, or gives no
    object. *)
Lemma transform_object_result host v value changed :
  v <> VUndefined ->
  transform_object host v = (value, changed) ->
  isObject value = true \/ value = VNull.
Proof.
  intros Hv H. destruct v as [| | | |s| |]; simpl in H;
    try contradiction; try (injection H as <- _; auto; fail).
  destruct (jsonParse host s); injection H as <- _; auto.
Qed.

Lemma cast_root host m sp fields v :
  (exists props, fst (cast host m (SObject sp fields) v)
                 = fst (cast host m (SObject sp fields) (VObj props)))
  \/ isObject (fst (cast host m (SObject sp fields) v)) = false
     /\ (v <> VUndefined -> fst (cast host m (SObject sp fields) v) = VNull).
Proof.
  cbn [cast].
  destruct (base_cast m (SObject sp fields) (transform_object host) v) as [value changed] eqn:Hb.
  assert (Hres : v <> VUndefined -> isObject value = true \/ value = VNull).
  { intros Hv. apply (transform_object_result host v value changed Hv).
    destruct v; try contradiction; exact Hb. }
  destruct value as [| | | | |props|];
    try (right; split; [reflexivity|]; intros Hv;
         destruct (Hres Hv) as [H|H]; [discriminate H | exact H]).
  left. exists props. cbn [base_cast transform_object].
  match goal with |- context [cast_object_loop ?a ?b ?c] =>
    destruct (cast_object_loop a b c) end. reflexivity.
Qed.

Lemma kinds_of_table sch :
  In sch [BountySchema; BountyClaimSchema] -> In (sch, kinds_of sch) record_tables.
Proof.
  intros [<-|[<-|[]]]; simpl; auto.
Qed.

Lemma kinds_of_declared sch :
  In sch [BountySchema; BountyClaimSchema] -> declared sch = map fst (kinds_of sch).
Proof.
  intros [<-|[<-|[]]]; reflexivity.
Qed.

Lemma history_kind sch :
  In sch [BountySchema; BountyClaimSchema] ->
  exists c, In ("statusHistory", c) (kinds_of sch)
            /\ In (kind_schema c)
                 [optional (array StatusHistory); required (array StatusHistory)].
Proof.
  intros [<-|[<-|[]]]; [exists History | exists RequiredHistory]; simpl; intuition.
Qed.

Lemma validate_strict host flag m s v out :
  validate host flag m s true v = Ok out <-> out = v /\ validate_at flag m s [] v = [].
Proof.
  unfold validate. destruct (validate_at flag m s [] v); split.
  - intros H. split; congruence.
  - intros [-> _]. reflexivity.
  - discriminate.
  - intros [_ H]. discriminate.
Qed.

Lemma validate_casting host flag m s v out :
  validate host flag m s false v = Ok out <->
  out = fst (cast host m s v) /\ validate_at flag m s [] out = [].
Proof.
  unfold validate. destruct (validate_at flag m s [] (fst (cast host m s v))) eqn:Hv; split.
  - intros H. assert (out = fst (cast host m s v)) by congruence. subst. auto.
  - intros [-> _]. reflexivity.
  - discriminate.
  - intros [-> H]. congruence.
Qed.

Lemma fixed_validates host flag m s v :
  cast host m s v = (v, false) ->
  validate host flag m s false v = validate host flag m s true v.
Proof.
  intros H. unfold validate. now rewrite H.
Qed.

(** What a record cast returns is an object, whatever it was given. *)
Lemma record_cast_root host m sch v :
  In sch [BountySchema; BountyClaimSchema] ->
  exists props, fst (cast host m sch v) = fst (cast host m sch (VObj props))
                \/ fst (cast host m sch v) = VNull.
Proof.
  intros Hsch.
  destruct (record_table_shape sch _ (kinds_of_table sch Hsch)) as (Hshape & _).
  destruct (cast_root host m (spec_of sch) (fields_of sch) v) as [(props & H)|[Hn H]];
    rewrite <- Hshape in *.
  - exists props. now left.
  - destruct v; try (exists []; right; apply H; discriminate).
    exfalso. clear H. revert Hn.
    assert (Hd : exists d, getDefault m sch = VObj d).
    { destruct Hsch as [<-|[<-|[]]]; destruct m as [[|]|]; eexists; reflexivity. }
    destruct Hd as (d & Hd).
    rewrite Hshape. cbn [cast base_cast]. rewrite <- Hshape, Hd. cbn [is_undefined negb].
    unfold cast_object_loop. destruct (existsb _ _ || _); discriminate.
Qed.

(** A field whose cast Create accepts is cast alike on Update. *)
Lemma kind_cast_create_update host flag c x :
  kind_ok flag (Some POST) c (fst (cast host (Some POST) (kind_schema c) x)) = true ->
  cast host (Some PATCH) (kind_schema c) x = cast host (Some POST) (kind_schema c) x.
Proof.
  destruct c; destruct x; try reflexivity; intros H; discriminate H.
Qed.

Lemma cast_via_base host m sp fields v :
  cast host m (SObject sp fields) v
  = let '(value, changed) := base_cast m (SObject sp fields) (transform_object host) v in
    match value with
    | VObj props =>
        (fst (cast host m (SObject sp fields) (VObj props)),
         changed || snd (cast host m (SObject sp fields) (VObj props)))
    | _ => (value, changed)
    end.
Proof.
  cbn [cast].
  destruct (base_cast m (SObject sp fields) (transform_object host) v) as [value changed].
  destruct value; try reflexivity.
  cbn [base_cast transform_object].
  match goal with |- context [cast_object_loop ?a ?b ?c] =>
    destruct (cast_object_loop a b c) end.
  reflexivity.
Qed.

Lemma record_cast_create_update host flag sch props :
  In sch [BountySchema; BountyClaimSchema] ->
  validate_at flag (Some POST) sch [] (fst (cast host (Some POST) sch (VObj props))) = [] ->
  cast host (Some PATCH) sch (VObj props) = cast host (Some POST) sch (VObj props).
Proof.
  intros Hsch Hnil.
  pose proof (kinds_of_table sch Hsch) as Htab.
  destruct (record_table_shape sch _ Htab) as (Hshape & _ & _ & _ & Hstrip).
  destruct (record_cast_output host (Some POST) sch _ props Htab) as (o' & Ho' & Hget & _).
  rewrite Ho' in Hnil.
  apply (record_strict_nil flag (Some POST) sch _ _ Htab), record_accepts_object in Hnil
    as [_ Hok].
  pose proof (cast_object_eq host (Some POST) (spec_of sch) (fields_of sch) props) as Hpost.
  pose proof (cast_object_eq host (Some PATCH) (spec_of sch) (fields_of sch) props) as Hpatch.
  rewrite <- Hshape in Hpost, Hpatch. rewrite Hpost, Hpatch, !Hstrip.
  f_equal. apply map_ext_in. intros [k f] Hin. cbn [fst snd]. f_equal.
  rewrite (record_table_fields sch _ Htab) in Hin.
  apply in_map_iff in Hin as ([k' c] & Heq & Hin). cbn [fst snd] in Heq.
  injection Heq as -> <-.
  apply (kind_cast_create_update host flag). rewrite <- (Hget k c Hin). auto.
Qed.

Lemma record_cast_via_base host m sch v :
  In sch [BountySchema; BountyClaimSchema] ->
  fst (cast host m sch v)
  = match fst (base_cast m sch (transform_object host) v) with
    | VObj props => fst (cast host m sch (VObj props))
    | x => x
    end.
Proof.
  intros Hsch.
  destruct (record_table_shape sch _ (kinds_of_table sch Hsch)) as (Hshape & _).
  pose proof (cast_via_base host m (spec_of sch) (fields_of sch) v) as H.
  rewrite <- Hshape in H. rewrite H.
  destruct (base_cast m sch (transform_object host) v) as [value changed].
  now destruct value.
Qed.

Lemma record_accepts_create_update flag v :
  record_accepts bounty_kinds flag (Some POST) v = true ->
  record_accepts bounty_kinds flag (Some PATCH) v = true.
Proof.
  destruct v; try discriminate; [reflexivity|].
  rewrite !record_accepts_object. intros [Hk Hc]. split; [exact Hk|].
  intros k c Hin. apply kind_ok_create_update. auto.
Qed.

Lemma string_field_kind f :
  In f string_fields ->
  exists c, In (f, c) bounty_kinds /\ In c [PlainString; PolicyString].
Proof.
  intros H. simpl in H.
  repeat (destruct H as [<-|H];
          [first [exists PlainString; simpl; intuition congruence; fail
                 | exists PolicyString; simpl; intuition congruence]|]).
  destruct H.
Qed.

Lemma holds_values_set_prop k x props :
  is_undefined x = false -> holds_values props = true ->
  holds_values (set_prop k x props) = true.
Proof.
  intros Hx. unfold holds_values. induction props as [|[k' y] props IH]; simpl.
  - now rewrite Hx.
  - destruct (String.eqb k k'); simpl.
    + rewrite Hx. intros H. apply andb_true_iff in H as [_ H]. exact H.
    + intros H. apply andb_true_iff in H as [Hy H]. rewrite Hy. simpl. auto.
Qed.

Lemma kinds_in_or_absent (kinds : list (string * field_kind)) props k :
  (forall k', In k' (own_keys (VObj props)) -> In k' (map fst kinds)) ->
  (exists c, In (k, c) kinds) \/ get_prop (VObj props) k = VUndefined.
Proof.
  intros Hk. destruct (in_dec string_dec k (map fst kinds)) as [Hin|Hout].
  - left. apply in_map_iff in Hin as ([k' c] & <- & Hin). eauto.
  - right. apply get_prop_absent. auto.
Qed.

(** When a record changes under one key to a value its field takes as it
    is, what validation accepted stays accepted, and the result changes under
    that key alone. *)
Lemma field_replaced host flag m (strict : bool) props props' f x out :
  (strict = false -> holds_values props = true /\ holds_values props' = true) ->
  (forall k, get_prop (VObj props') k
             = if String.eqb k f then x else get_prop (VObj props) k) ->
  (forall k, In k (own_keys (VObj props')) ->
             In k (map fst bounty_kinds) \/ In k (own_keys (VObj props))) ->
  (forall c, In (f, c) bounty_kinds ->
     kind_ok flag m c x = true /\ fst (cast host m (kind_schema c) x) = x) ->
  (In f (map fst bounty_kinds) \/ x = VUndefined) ->
  validate host flag m BountySchema strict (VObj props) = Ok out ->
  exists out',
    validate host flag m BountySchema strict (VObj props') = Ok out'
    /\ forall k, get_prop out' k = if String.eqb k f then x else get_prop out k.
Proof.
  intros Hv Hget Hkeys Hx Hf Hok.
  assert (Htab : In (BountySchema, bounty_kinds) record_tables) by (simpl; auto).
  destruct strict.
  - apply validate_strict in Hok as [-> Hnil].
    exists (VObj props'). split; [|exact Hget].
    apply validate_strict. split; [reflexivity|].
    apply (record_strict_nil flag m _ _ _ Htab), record_accepts_object in Hnil as [Hk Hc].
    apply (record_strict_nil flag m _ _ _ Htab), record_accepts_object. split.
    + intros k Hin. destruct (Hkeys k Hin) as [Hd|Hin']; auto.
    + intros k c Hin. rewrite Hget. destruct (String.eqb_spec k f) as [->|Hne]; auto.
      now apply Hx.
  - destruct (Hv eq_refl) as [Hv1 Hv2].
    apply (casting_Ok host flag m _ _ props out Htab Hv1) in Hok as [Hout Hc].
    destruct (record_cast_output host m _ _ props Htab) as (o & Ho & Hgo & Hko).
    destruct (record_cast_output host m _ _ props' Htab) as (o' & Ho' & Hgo' & Hko').
    exists (VObj o'). split.
    + apply (casting_Ok host flag m _ _ props' _ Htab Hv2). split; [now rewrite Ho'|].
      intros k c Hin. rewrite Hget. destruct (String.eqb_spec k f) as [->|Hne]; auto.
      destruct (Hx c Hin) as [H1 H2]. now rewrite H2.
    + intros k. rewrite Hout, Ho.
      destruct (kinds_in_or_absent bounty_kinds o' k (Hko' Hv2)) as [(c & Hin)|Hu2].
      * rewrite (Hgo k c Hin), (Hgo' k c Hin), Hget.
        destruct (String.eqb_spec k f) as [->|Hne]; [|reflexivity].
        now apply Hx.
      * rewrite Hu2.
        destruct (kinds_in_or_absent bounty_kinds o k (Hko Hv1)) as [(c & Hin)|Hu1].
        -- rewrite (Hgo' k c Hin) in Hu2. rewrite (Hgo k c Hin).
           rewrite Hget in Hu2.
           destruct (String.eqb_spec k f) as [->|Hne]; [|now rewrite Hu2].
           destruct (Hx c Hin) as [_ H2]. congruence.
        -- rewrite Hu1. destruct (String.eqb_spec k f) as [->|Hne]; [|reflexivity].
           destruct Hf as [Hf|Hf]; [|now rewrite Hf].
           apply in_map_iff in Hf as ([k' c] & Hk' & Hin). cbn [fst] in Hk'. subst k'.
           rewrite (Hgo' f c Hin), Hget, String.eqb_refl in Hu2.
           destruct (Hx c Hin) as [_ H2]. congruence.
Qed.

Lemma kind_null host flag m c p :
  fst (cast host m (kind_schema c) VNull) = VNull
  /\ In (null_report c p) (validate_at flag m (kind_schema c) p VNull).
Proof.
  destruct c; destruct m as [[|]|]; split; try reflexivity; simpl; auto.
Qed.

Lemma claim_accepts_update flag m v :
  record_accepts claim_kinds flag m v = true ->
  record_accepts bounty_kinds flag (Some PATCH) v = true.
Proof.
  destruct v; try discriminate; [reflexivity|].
  rewrite !record_accepts_object. intros [Hk Hc]. split.
  - intros k Hin. specialize (Hk k Hin). simpl in Hk. simpl. tauto.
  - intros k c Hin.
    destruct (kinds_in_or_absent claim_kinds props k Hk) as [(c0 & Hin0)|Hu].
    + destruct (claim_kind_in_bounty flag m k c0 _ Hin0 (Hc k c0 Hin0)) as (c' & Hl & Hok).
      pose proof (In_lookup k c bounty_kinds bounty_kinds_nodup Hin). congruence.
    + rewrite Hu. now apply (kind_ok_update_absent flag k).
Qed.

Lemma set_tests_tests (f : spec -> list test) s :
  sp_tests (spec_of (with_spec (fun sp => set_tests (f sp) sp) s)) = f (spec_of s).
Proof. now destruct s. Qed.

Lemma requiredForPost_tests m s b t :
  In t (sp_tests (spec_of (requiredForPost m s b))) ->
  In t (sp_tests (spec_of s)) \/ t_name t = "defined".
Proof.
  unfold requiredForPost. destruct (is_POST m).
  - unfold defined, add_exclusive. rewrite set_tests_tests.
    rewrite in_app_iff. intros [H|[<-|[]]]; [|now right].
    apply filter_In in H as [H _]. now left.
  - assert (Ho : In t (sp_tests (spec_of (optional s))) -> In t (sp_tests (spec_of s))).
    { unfold optional. destruct s; simpl; intros H; apply filter_In in H as [H _]; exact H. }
    destruct b; [|auto]. intros H. left. apply Ho. now destruct s.
Qed.

Lemma resolve_tests m s t :
  In t (sp_tests (spec_of (resolve m s))) ->
  In t (sp_tests (spec_of s)) \/ t_name t = "defined".
Proof.
  unfold resolve.
  assert (Hstart : sp_tests (spec_of (with_spec (set_conditions []) s)) = sp_tests (spec_of s)).
  { now destruct s. }
  rewrite <- Hstart. generalize (with_spec (set_conditions []) s) as acc.
  induction (sp_conditions (spec_of s)) as [|c cs IH]; intros acc; cbn [fold_left].
  - auto.
  - intros H. apply IH in H as [H|H]; [|now right].
    destruct c as [b]. cbn [apply_condition] in H.
    now apply requiredForPost_tests in H.
Qed.

Lemma own_errors_types flag m s p v e :
  In e (own_errors flag (resolve m s) p v) ->
  In (e_type e) ("typeError" :: "oneOf" :: "defined" :: map t_name (sp_tests (spec_of s))).
Proof.
  unfold own_errors.
  destruct (initial_errors (resolve m s) p v) as [|e0 errs] eqn:Hi.
  - intros H. apply test_errors_In in H as (t & Ht & _ & ->). cbn [e_type].
    apply resolve_tests in Ht as [Ht| ->]; [|simpl; auto].
    right. right. right. now apply in_map.
  - rewrite <- Hi. unfold initial_errors. rewrite in_app_iff. intros [H|H].
    + destruct (negb (is_undefined v) && negb (isType (resolve m s) v));
        [destruct H as [<-|[]]; simpl; auto | destruct H].
    + destruct (sp_whitelist (spec_of (resolve m s))); [|destruct H].
      destruct (is_undefined v || existsb (same_value_zero v) l);
        [destruct H | destruct H as [<-|[]]; simpl; auto].
Qed.

(** Validation reports nothing but the type check, the enumeration, [defined]
    and the tests its schemas carry. *)
Lemma validate_at_types flag m s : forall p v e,
  In e (validate_at flag m s p v) -> In (e_type e) (report_types s).
Proof.
  unfold report_types.
  induction s as [sp|sp|sp|sp fields IH|sp|sp inner IH] using schema_ind';
    intros p v e; rewrite validate_at_eq, in_app_iff; cbn [test_names];
    try (rewrite app_nil_r; intros [H|[]]; now apply own_errors_types in H).
  - intros [H|H].
    + apply own_errors_types in H. simpl in *. rewrite in_app_iff. tauto.
    + destruct (isObject v); [|destruct H].
      apply in_flat_map in H as (kf & Hkf & H).
      rewrite Forall_forall in IH. apply (IH kf Hkf) in H.
      simpl in *. rewrite in_app_iff, in_flat_map.
      destruct H as [H|[H|[H|H]]]; auto. right. right. right. right. eauto.
  - intros [H|H].
    + apply own_errors_types in H. simpl in *. rewrite in_app_iff. tauto.
    + destruct v; try destruct H.
      apply in_flat_map in H as (ix & _ & H). apply IH in H.
      simpl in *. rewrite in_app_iff. tauto.
Qed.

Lemma lookup_tabulate {A} (g : string -> A) (k : string) (l : list string) :
  lookup k (map (fun k0 => (k0, g k0)) l) = if mem k l then Some (g k) else None.
Proof.
  unfold mem. induction l as [|k0 l IH]; simpl; [reflexivity|].
  destruct (String.eqb_spec k k0) as [->|Hne]; simpl; [reflexivity|exact IH].
Qed.

(** A cast that does not strip leaves what the object held under a key its
    schema does not declare. *)
Lemma loop_keeps_extra casted props k :
  ~ In k (map fst casted) ->
  get_prop (fst (cast_object_loop false casted (VObj props))) k = get_prop (VObj props) k.
Proof.
  intros Hk. unfold cast_object_loop.
  destruct (existsb _ _ || _); [|reflexivity].
  cbn [fst get_prop]. rewrite lookup_app.
  assert (Hknown : lookup k (known_of (rev casted)) = None).
  { apply lookup_None. intros Hin. apply known_of_keys in Hin.
    rewrite map_rev, <- in_rev in Hin. contradiction. }
  rewrite Hknown, lookup_tabulate.
  destruct (mem k _) eqn:Hm; [reflexivity|].
  destruct (lookup k props) eqn:Hl; [exfalso|reflexivity].
  apply not_true_iff_false in Hm. apply Hm. apply mem_In, filter_In. split.
  - simpl. apply nodup_In. apply lookup_In in Hl.
    change k with (fst (k, v)). now apply in_map.
  - apply negb_true_iff. apply not_true_iff_false. intros H. now apply mem_In in H.
Qed.

Lemma object_kind_open host m c o k :
  In c object_kinds ->
  ~ In k (declared (kind_schema c)) ->
  get_prop (fst (cast host m (kind_schema c) (VObj o))) k = get_prop (VObj o) k.
Proof.
  intros Hc Hk.
  assert (Hshape : kind_schema c = SObject (spec_of (kind_schema c)) (fields_of (kind_schema c))
                   /\ sp_noUnknown (spec_of (resolve m (kind_schema c))) = false).
  { simpl in Hc. destruct Hc as [<-|[<-|[<-|[<-|[]]]]]; destruct m as [[|]|];
      split; reflexivity. }
  destruct Hshape as [Hshape Hstrip].
  pose proof (cast_object_eq host m (spec_of (kind_schema c)) (fields_of (kind_schema c)) o)
    as Heq.
  rewrite <- Hshape in Heq. rewrite Heq, Hstrip.
  apply loop_keeps_extra. now rewrite map_fst_map.
Qed.

Lemma loop_holds_values casted props k :
  holds_values props = true ->
  In k (own_keys (fst (cast_object_loop true casted (VObj props)))) ->
  get_prop (fst (cast_object_loop true casted (VObj props))) k <> VUndefined.
Proof.
  intros Hv. unfold cast_object_loop.
  destruct (existsb _ _ || _); cbn [fst]; [|now apply holds_values_get].
  rewrite app_nil_r. intros Hin.
  apply holds_values_get; [|exact Hin].
  unfold holds_values, known_of. apply forallb_forall. intros [k' x] Hx.
  apply in_flat_map in Hx as ([k0 [x0 c0]] & _ & Hx). cbn [fst snd] in Hx.
  destruct (is_undefined x0) eqn:Hu; [destruct Hx|].
  destruct Hx as [Hx|[]]. injection Hx as <- <-. cbn [snd]. now rewrite Hu.
Qed.

Lemma all_undefined_get props k :
  forallb (fun kv : string * value => is_undefined (snd kv)) props = true ->
  get_prop (VObj props) k = VUndefined.
Proof.
  intros H. simpl. destruct (lookup k props) as [x|] eqn:Hl; [|reflexivity].
  apply lookup_In in Hl. rewrite forallb_forall in H. specialize (H _ Hl).
  now destruct x.
Qed.

Lemma plain_identity_ok flag m p x :
  validate_at flag m DiscordUser p x = [] <->
  is_undefined x || pair_ok string_or_undefined x = true.
Proof.
  destruct x as [| | | | |o|];
    try (destruct m as [[|]|]; run_tests; split; congruence).
  cbn [is_undefined orb].
  assert (Hp : In DiscordUser pair_schemas) by (simpl; auto).
  pose proof (pair_own_nil flag m DiscordUser p o Hp) as Hown.
  change DiscordUser
    with (SObject (spec_of DiscordUser)
            [("discordHandle", optional string_); ("discordId", optional string_)]) at 1.
  rewrite validate_at_eq.
  change (SObject (spec_of DiscordUser)
            [("discordHandle", optional string_); ("discordId", optional string_)])
    with DiscordUser.
  cbn [isObject flat_map fst snd app]. rewrite app_nil_r, !app_nil_iff, Hown.
  rewrite (plain_string_ok flag m (p ++ [Key "discordHandle"])),
          (plain_string_ok flag m (p ++ [Key "discordId"])).
  unfold pair_ok. cbn [kind_ok]. rewrite !andb_true_iff. tauto.
Qed.

Lemma policy_identity_ok flag m p x :
  validate_at flag m RequiredDiscordUser p x = [] <->
  is_undefined x || pair_ok (policy_member m) x = true.
Proof.
  destruct x as [| | | | |o|];
    try (destruct m as [[|]|]; run_tests; split; congruence).
  cbn [is_undefined orb].
  assert (Hp : In RequiredDiscordUser pair_schemas) by (simpl; auto 6).
  pose proof (pair_own_nil flag m RequiredDiscordUser p o Hp) as Hown.
  change RequiredDiscordUser
    with (SObject (spec_of RequiredDiscordUser)
            [("discordId", kind_schema PolicyString);
             ("discordHandle", kind_schema PolicyString)]) at 1.
  rewrite validate_at_eq.
  change (SObject (spec_of RequiredDiscordUser)
            [("discordId", kind_schema PolicyString);
             ("discordHandle", kind_schema PolicyString)])
    with RequiredDiscordUser.
  cbn [isObject flat_map fst snd app]. rewrite app_nil_r, !app_nil_iff, Hown.
  rewrite (policy_string_ok flag m (p ++ [Key "discordId"])),
          (policy_string_ok flag m (p ++ [Key "discordHandle"])).
  unfold pair_ok, policy_member. cbn [kind_ok]. rewrite !andb_true_iff. tauto.
Qed.

Lemma plain_reward_ok flag m p x :
  validate_at flag m Reward p x = [] <-> is_undefined x || reward_complete x = true.
Proof.
  destruct x as [| | | | |r|];
    try (destruct m as [[|]|]; run_tests; unfold reward_complete; simpl; split; congruence).
  cbn [is_undefined orb]. rewrite <- (reward_object_ok flag m p r).
  assert (Heq : validate_at flag m Reward p (VObj r)
                = validate_at flag m (when_method true Reward) p (VObj r)).
  { change Reward with (SObject (spec_of Reward) (fields_of Reward)) at 1.
    change (when_method true Reward)
      with (SObject (spec_of (when_method true Reward)) (fields_of Reward)).
    rewrite !validate_at_eq. f_equal.
    destruct m as [[|]|]; unfold own_errors, initial_errors, test_errors, run_test; simpl;
      destruct (rewardAllDefined (VObj r)); reflexivity. }
  now rewrite Heq.
Qed.

Lemma status_value_string x : status_value x = true -> is_string x = true.
Proof.
  destruct x; try reflexivity; unfold status_value; simpl; discriminate.
Qed.

Lemma kind_ok_typed flag m c x :
  kind_ok flag m c x = true ->
  is_undefined x
  || of_type (match c with
              | PlainString | PolicyString | RequiredString
              | PolicyStatus | RequiredStatus => String_
              | History | RequiredHistory => Array_
              | _ => Object_
              end) x = true.
Proof.
  destruct x; try reflexivity; destruct c; destruct m as [[|]|];
    try reflexivity; try discriminate;
    cbn [kind_ok is_POST negb andb orb is_undefined]; intros H;
    try (apply status_value_string in H; discriminate H);
    try discriminate H.
Qed.

Lemma accepted_is_fixed host flag m sch props :
  In sch [BountySchema; BountyClaimSchema] ->
  entries_defined (get_prop (VObj props) "statusHistory") = true ->
  validate_at flag m sch [] (VObj props) = [] ->
  cast host m sch (VObj props) = (VObj props, false).
Proof.
  intros Hsch Hd Hnil.
  pose proof (kinds_of_table sch Hsch) as Htab.
  apply (record_fixed host flag m sch (kinds_of sch)); auto.
  now apply (record_strict_nil flag m sch (kinds_of sch)).
Qed.

(* ================================================================= *)
(** ** Further properties of the validators *)

(** *** What strict validation accepts *)

(** X1.  Strict validation by [BountySchema] accepts a candidate, and resolves
    with it, exactly when the candidate is no body at all or an object with no
    key outside the twenty declared ones whose every field is what the table
    [bounty_kinds] says of it: a plain string field absent or a string; a
    string under the policy a string, or absent when the mode is not Create;
    status one of the six values, or absent when the mode is not Create; reward
    complete, or absent when the mode is not Create; statusHistory absent or an
    array of entries; createdBy an identity whose members follow the policy
    and the pairing test; the other identities absent or a pair of strings
    that passes the pairing test. *)
Theorem bounty_strict_acceptance host flag m v :
  validate host flag m BountySchema true v = Ok v <->
  record_accepts bounty_kinds flag m v = true.
Proof.
  rewrite <- (record_strict_nil flag m BountySchema bounty_kinds v) by (simpl; auto).
  unfold validate. destruct (validate_at flag m BountySchema [] v); split; congruence.
Qed.

(** X2.  Strict validation by [BountyClaimSchema] accepts a candidate exactly
    when it is no body at all or an object with no key outside the four
    declared ones, whose submissionNotes is a non-empty string, whose claimedBy
    is an object of two members that are strings or absent and pass the
    pairing test, whose status is one of the six values, and whose
    statusHistory is an array of entries (not the empty array, in the releases
    of the engine where [required] looks at the length). *)
Theorem claim_strict_acceptance host flag m v :
  validate host flag m BountyClaimSchema true v = Ok v <->
  record_accepts claim_kinds flag m v = true.
Proof.
  rewrite <- (record_strict_nil flag m BountyClaimSchema claim_kinds v) by (simpl; auto).
  unfold validate. destruct (validate_at flag m BountyClaimSchema [] v); split; congruence.
Qed.

(** X3.  The schemas the file exports beside the two validators, under strict
    validation: [Status] accepts nothing or one of the six values;
    [StatusHistory] nothing or an object whose status is absent or one of the
    six and whose modifiedAt is absent or a string; [DiscordUser] nothing or
    an object of two members, strings or absent, that passes the pairing test;
    [RequiredDiscordUser] the same with both members strings on Create;
    [Reward] nothing -- in every mode -- or a complete reward. *)
Theorem exported_schemas_strict host flag m v :
  (validate host flag m Status true v = Ok v
   <-> is_undefined v || status_value v = true)
  /\ (validate host flag m StatusHistory true v = Ok v <-> entry_ok v = true)
  /\ (validate host flag m DiscordUser true v = Ok v
      <-> is_undefined v || pair_ok string_or_undefined v = true)
  /\ (validate host flag m RequiredDiscordUser true v = Ok v
      <-> is_undefined v || pair_ok (policy_member m) v = true)
  /\ (validate host flag m Reward true v = Ok v
      <-> is_undefined v || reward_complete v = true).
Proof.
  assert (Hs : forall s, validate host flag m s true v = Ok v
                         <-> validate_at flag m s [] v = []).
  { intros s. rewrite validate_strict. tauto. }
  rewrite !Hs.
  split; [apply plain_status_ok|].
  split; [apply entry_ok_iff|].
  split; [apply plain_identity_ok|].
  split; [apply policy_identity_ok|apply plain_reward_ok].
Qed.

(** *** What validation resolves with *)

(** X4.  Whatever either validator resolves with, in any mode and whether it
    casts or not, is a record as the table of kinds describes it: validation
    never hands on a field of the wrong type, a status outside the
    enumeration, an incomplete reward or an inconsistent pair. *)
Theorem accepted_output_sound host flag m (strict : bool) sch v out :
  In sch [BountySchema; BountyClaimSchema] ->
  validate host flag m sch strict v = Ok out ->
  record_accepts (kinds_of sch) flag m out = true.
Proof.
  intros Hsch H. apply validate_Ok in H as [_ H].
  now apply (record_strict_nil flag m sch (kinds_of sch) out (kinds_of_table sch Hsch)).
Qed.

Lemma accepted_output_sound_witness :
  exists out,
    validate inert_host false (Some POST) BountySchema false bounty_reward_by_default
    = Ok out
    /\ record_accepts (kinds_of BountySchema) false (Some POST) out = true.
Proof.
  eexists. split; [vm_compute; reflexivity|].
  apply (accepted_output_sound inert_host false (Some POST) false BountySchema
           bounty_reward_by_default); [simpl; auto | vm_compute; reflexivity].
Defined.

(** X5.  Casting validation of a record whose properties all hold values, as
    JSON gives them, succeeds exactly when every declared field, once cast, is
    what its kind describes.  The keys the schema does not declare play no
    part: the cast strips them. *)
Theorem casting_accepts_by_fields host flag m sch props :
  In sch [BountySchema; BountyClaimSchema] ->
  holds_values props = true ->
  (exists out, validate host flag m sch false (VObj props) = Ok out)
  <-> forall k c, In (k, c) (kinds_of sch) ->
        kind_ok flag m c (fst (cast host m (kind_schema c) (get_prop (VObj props) k))) = true.
Proof.
  intros Hsch Hv. pose proof (kinds_of_table sch Hsch) as Htab. split.
  - intros (out & H). now apply (casting_Ok host flag m sch _ props out Htab Hv) in H.
  - intros H. eexists. apply (casting_Ok host flag m sch _ props _ Htab Hv). eauto.
Qed.

Lemma casting_accepts_by_fields_witness :
  holds_values bounty_with_extra_key = true
  /\ kind_ok false (Some POST) PolicyString
       (fst (cast inert_host (Some POST) (kind_schema PolicyString)
               (get_prop (VObj bounty_with_extra_key) "title"))) = true.
Proof.
  split; [reflexivity|].
  assert (Hok : exists out,
            validate inert_host false (Some POST) BountySchema false
              (VObj bounty_with_extra_key) = Ok out).
  { eexists. vm_compute. reflexivity. }
  apply (proj1 (casting_accepts_by_fields inert_host false (Some POST) BountySchema
                  bounty_with_extra_key (or_introl eq_refl) eq_refl) Hok
           "title" PolicyString).
  simpl. auto.
Defined.

(** X6.  A record that strict validation accepts, and whose statusHistory has
    no hole, is a fixed point of the cast, so casting validation accepts it
    too and resolves with the same record. *)
Theorem strict_valid_is_cast_valid host flag m sch props :
  In sch [BountySchema; BountyClaimSchema] ->
  entries_defined (get_prop (VObj props) "statusHistory") = true ->
  validate host flag m sch true (VObj props) = Ok (VObj props) ->
  cast host m sch (VObj props) = (VObj props, false)
  /\ validate host flag m sch false (VObj props) = Ok (VObj props).
Proof.
  intros Hsch Hd Hv. apply validate_strict in Hv as [_ Hnil].
  pose proof (accepted_is_fixed host flag m sch props Hsch Hd Hnil) as Hfix.
  split; [exact Hfix|].
  rewrite (fixed_validates host flag m sch _ Hfix). apply validate_strict. auto.
Qed.

Lemma strict_valid_is_cast_valid_witness :
  validate inert_host false (Some POST) BountySchema true (VObj posted_bounty_props)
  = Ok (VObj posted_bounty_props)
  /\ validate inert_host false (Some POST) BountySchema false (VObj posted_bounty_props)
     = Ok (VObj posted_bounty_props).
Proof.
  assert (Hok : validate inert_host false (Some POST) BountySchema true
                  (VObj posted_bounty_props) = Ok (VObj posted_bounty_props)).
  { vm_compute. reflexivity. }
  split; [exact Hok|].
  exact (proj2 (strict_valid_is_cast_valid inert_host false (Some POST) BountySchema
                  posted_bounty_props (or_introl eq_refl) eq_refl Hok)).
Defined.

(** X7.  Validating a validated record again changes nothing: what casting
    validation resolves with, whatever it was given, is accepted unchanged by
    casting validation and by strict validation. *)
Theorem validated_is_stable host flag m sch v out :
  In sch [BountySchema; BountyClaimSchema] ->
  validate host flag m sch false v = Ok out ->
  validate host flag m sch false out = Ok out
  /\ validate host flag m sch true out = Ok out.
Proof.
  intros Hsch Hv.
  pose proof (kinds_of_table sch Hsch) as Htab.
  apply validate_casting in Hv as [Hout Hnil].
  assert (Hstrict : validate host flag m sch true out = Ok out).
  { apply validate_strict. auto. }
  split; [|exact Hstrict].
  destruct (record_cast_root host m sch v Hsch) as (props & [Hc|Hc]).
  - destruct (record_cast_output host m sch (kinds_of sch) props Htab)
      as (o' & Ho' & Hget & _).
    assert (Hobj : out = VObj o') by congruence.
    destruct (history_kind sch Hsch) as (c & Hin & Hks).
    assert (Hd : entries_defined (get_prop (VObj o') "statusHistory") = true).
    { rewrite (Hget _ c Hin). now apply history_cast_defined. }
    rewrite Hobj in *.
    rewrite (fixed_validates host flag m sch _
               (accepted_is_fixed host flag m sch o' Hsch Hd Hnil)).
    exact Hstrict.
  - exfalso. rewrite <- Hout in Hc. rewrite Hc in Hnil.
    apply (record_strict_nil flag m sch (kinds_of sch) VNull Htab) in Hnil.
    discriminate Hnil.
Qed.

Lemma validated_is_stable_witness :
  exists out,
    validate inert_host false (Some POST) BountySchema false (VObj bounty_with_extra_key)
    = Ok out
    /\ validate inert_host false (Some POST) BountySchema false out = Ok out
    /\ validate inert_host false (Some POST) BountySchema true out = Ok out.
Proof.
  eexists. split; [vm_compute; reflexivity|].
  apply (validated_is_stable inert_host false (Some POST) BountySchema
           (VObj bounty_with_extra_key)); [simpl; auto | vm_compute; reflexivity].
Defined.

(** *** The two modes *)

(** X8.  A context that carries no [$method] is an Update: [requiredForPost]
    tests [method === 'POST'] and nothing else, so every schema validates
    every value as under [PATCH]. *)
Theorem no_method_is_update host flag s strict v :
  validate host flag None s strict v = validate host flag (Some PATCH) s strict v.
Proof.
  unfold validate. rewrite cast_no_method.
  now rewrite validate_at_no_method.
Qed.

(** X9.  What Create accepts Update accepts, with the same result, whether
    validation is strict or casts: the policy only adds a demand on Create. *)
Theorem create_valid_is_update_valid host flag (strict : bool) v out :
  validate host flag (Some POST) BountySchema strict v = Ok out ->
  validate host flag (Some PATCH) BountySchema strict v = Ok out.
Proof.
  assert (Hsch : In BountySchema [BountySchema; BountyClaimSchema]) by (simpl; auto).
  assert (Htab : In (BountySchema, bounty_kinds) record_tables) by (simpl; auto).
  assert (Hmono : forall x, validate_at flag (Some POST) BountySchema [] x = [] ->
                            validate_at flag (Some PATCH) BountySchema [] x = []).
  { intros x Hx. apply (record_strict_nil flag _ _ _ x Htab).
    apply record_accepts_create_update.
    now apply (record_strict_nil flag _ _ _ x Htab). }
  destruct strict.
  - rewrite !validate_strict. intros [-> H]. auto.
  - rewrite !validate_casting. intros [Hout Hnil].
    assert (Hcast : fst (cast host (Some PATCH) BountySchema v)
                    = fst (cast host (Some POST) BountySchema v)).
    { rewrite Hout in Hnil. revert Hnil.
      rewrite !(record_cast_via_base host _ BountySchema v Hsch).
      assert (Hb : base_cast (Some PATCH) BountySchema (transform_object host) v
                   = base_cast (Some POST) BountySchema (transform_object host) v).
      { destruct v; reflexivity. }
      rewrite Hb.
      destruct (fst (base_cast (Some POST) BountySchema (transform_object host) v));
        try reflexivity.
      intros Hnil.
      now rewrite (record_cast_create_update host flag BountySchema props Hsch Hnil). }
    rewrite Hcast, <- Hout. auto.
Qed.

Lemma create_valid_is_update_valid_witness :
  exists out,
    validate inert_host false (Some POST) BountySchema false bounty_reward_by_default
    = Ok out
    /\ validate inert_host false (Some PATCH) BountySchema false bounty_reward_by_default
       = Ok out.
Proof.
  eexists. split; [vm_compute; reflexivity|].
  apply (create_valid_is_update_valid inert_host false false bounty_reward_by_default).
  vm_compute. reflexivity.
Defined.

(** X10.  On Update, a valid candidate stays valid when it loses a key, any
    key, and the result loses that key and nothing else.  (Under casting
    validation the candidate is one whose properties hold values.) *)
Theorem update_without_a_key host flag (strict : bool) props f out :
  (strict = false -> holds_values props = true) ->
  validate host flag (Some PATCH) BountySchema strict (VObj props) = Ok out ->
  exists out',
    validate host flag (Some PATCH) BountySchema strict (VObj (remove_prop f props))
    = Ok out'
    /\ forall k, get_prop out' k = if String.eqb k f then VUndefined else get_prop out k.
Proof.
  intros Hv. apply field_replaced.
  - intros Hs. split; [auto | apply holds_values_remove; auto].
  - intros k. destruct (String.eqb_spec k f) as [->|Hne].
    + apply get_prop_remove_same.
    + now apply get_prop_remove_other.
  - intros k Hin. right. now apply (own_keys_remove f).
  - intros c Hin. split; [now apply (kind_ok_update_absent flag f)|].
    apply (update_field_absent host f).
    apply lookup_In. apply (record_table_lookup _ bounty_kinds); simpl; auto.
  - now right.
Qed.

Lemma update_without_a_key_witness :
  validate inert_host false (Some PATCH) BountySchema false (VObj posted_bounty_props)
  = Ok (VObj posted_bounty_props)
  /\ exists out',
       validate inert_host false (Some PATCH) BountySchema false
         (VObj (remove_prop "reward" posted_bounty_props)) = Ok out'
       /\ forall k, get_prop out' k
                    = if String.eqb k "reward" then VUndefined
                      else get_prop (VObj posted_bounty_props) k.
Proof.
  assert (Hok : validate inert_host false (Some PATCH) BountySchema false
                  (VObj posted_bounty_props) = Ok (VObj posted_bounty_props)).
  { vm_compute. reflexivity. }
  split; [exact Hok|].
  exact (update_without_a_key inert_host false false posted_bounty_props "reward"
           (VObj posted_bounty_props) (fun _ => eq_refl) Hok).
Defined.

(** X11.  A claim is an update: what the claim validator resolves with, in any
    mode and whether it casts or not, passes the record validator on Update
    unchanged. *)
Theorem claim_is_valid_update host flag m (strict : bool) v out :
  validate host flag m BountyClaimSchema strict v = Ok out ->
  validate host flag (Some PATCH) BountySchema true out = Ok out.
Proof.
  intros H. apply validate_Ok in H as [_ H].
  apply validate_strict. split; [reflexivity|].
  apply (record_strict_nil flag _ BountySchema bounty_kinds); [simpl; auto|].
  apply (claim_accepts_update flag m).
  apply (record_strict_nil flag m BountyClaimSchema claim_kinds); [simpl; auto|exact H].
Qed.

Lemma claim_is_valid_update_witness :
  validate inert_host false (Some POST) BountyClaimSchema false claim_with_empty_identity
  = Ok claim_with_empty_identity
  /\ validate inert_host false (Some PATCH) BountySchema true claim_with_empty_identity
     = Ok claim_with_empty_identity.
Proof.
  assert (Hok : validate inert_host false (Some POST) BountyClaimSchema false
                  claim_with_empty_identity = Ok claim_with_empty_identity).
  { vm_compute. reflexivity. }
  split; [exact Hok|].
  exact (claim_is_valid_update inert_host false (Some POST) false
           claim_with_empty_identity claim_with_empty_identity Hok).
Defined.

(** *** Edges *)

(** X12.  A string field of a bounty takes any string, the empty one included:
    on Create the policy asks that title, description, criteria, customerId,
    dueAt and createdAt be defined, not that they be non-empty.  A valid
    candidate stays valid when one of its string fields is set to any string,
    and the result changes under that key alone. *)
Theorem string_field_takes_any_string host flag m (strict : bool) props f s out :
  In f string_fields ->
  (strict = false -> holds_values props = true) ->
  validate host flag m BountySchema strict (VObj props) = Ok out ->
  exists out',
    validate host flag m BountySchema strict (VObj (set_prop f (VStr s) props)) = Ok out'
    /\ forall k, get_prop out' k = if String.eqb k f then VStr s else get_prop out k.
Proof.
  intros Hf Hv.
  destruct (string_field_kind f Hf) as (c & Hin & Hc).
  apply field_replaced.
  - intros Hs. split; [auto | apply holds_values_set_prop; auto].
  - intros k. apply get_prop_set_prop.
  - intros k Hk. apply own_keys_set_prop in Hk as [->|Hk]; [left|now right].
    apply in_map_iff. exists (f, c). auto.
  - intros c' Hin'.
    assert (c' = c).
    { pose proof (In_lookup f c bounty_kinds bounty_kinds_nodup Hin).
      pose proof (In_lookup f c' bounty_kinds bounty_kinds_nodup Hin'). congruence. }
    subst c'. split; [now apply kind_ok_string|].
    destruct Hc as [<-|[<-|[]]]; destruct m as [[|]|]; reflexivity.
  - left. apply in_map_iff. exists (f, c). auto.
Qed.

Lemma string_field_takes_any_string_witness :
  validate inert_host false (Some POST) BountySchema true (VObj posted_bounty_props)
  = Ok (VObj posted_bounty_props)
  /\ exists out',
       validate inert_host false (Some POST) BountySchema true
         (VObj (set_prop "title" (VStr "") posted_bounty_props)) = Ok out'
       /\ forall k, get_prop out' k
                    = if String.eqb k "title" then VStr ""
                      else get_prop (VObj posted_bounty_props) k.
Proof.
  assert (Hok : validate inert_host false (Some POST) BountySchema true
                  (VObj posted_bounty_props) = Ok (VObj posted_bounty_props)).
  { vm_compute. reflexivity. }
  split; [exact Hok|].
  apply (string_field_takes_any_string inert_host false (Some POST) true
           posted_bounty_props "title" "" (VObj posted_bounty_props)).
  - simpl. auto.
  - discriminate.
  - exact Hok.
Defined.

(** X13.  No declared field takes [null]: a candidate holding [null] under a
    declared key is refused by either validator, in any mode and whether
    validation is strict or casts, with a report at that key -- of the type
    check, or of the enumeration for status, a mixed value the type check
    lets through. *)
Theorem null_field_rejected host flag m sch (strict : bool) props k c :
  In sch [BountySchema; BountyClaimSchema] ->
  In (k, c) (kinds_of sch) ->
  get_prop (VObj props) k = VNull ->
  exists errs,
    validate host flag m sch strict (VObj props) = Err errs
    /\ In (null_report c [Key k]) errs.
Proof.
  intros Hsch Hin Hnull.
  pose proof (kinds_of_table sch Hsch) as Htab.
  destruct (record_table_shape sch _ Htab) as (Hshape & Hnd & _).
  pose proof (record_table_lookup sch _ k c Htab Hin) as Hl.
  destruct (kind_null host flag m c [Key k]) as [Hcast Hrep].
  assert (He : In (null_report c [Key k])
                 (errors_of (validate host flag m sch strict (VObj props)))).
  { rewrite Hshape.
    apply (record_field_errors host flag m strict (spec_of sch) (fields_of sch) props
             k (kind_schema c) (null_report c [Key k]) []); auto.
    - now destruct c.
    - rewrite Hnull, Hcast. now destruct strict. }
  destruct (validate host flag m sch strict (VObj props)) as [out|errs]; [destruct He|].
  exists errs. auto.
Qed.

Lemma null_field_rejected_witness :
  get_prop (VObj [("reward", VNull)]) "reward" = VNull
  /\ exists errs,
       validate inert_host false (Some PATCH) BountySchema false (VObj [("reward", VNull)])
       = Err errs
       /\ In (type_error_at [Key "reward"]) errs.
Proof.
  split; [reflexivity|].
  apply (null_field_rejected inert_host false (Some PATCH) BountySchema false
           [("reward", VNull)] "reward" PolicyReward).
  - simpl. auto.
  - simpl. auto 10.
  - reflexivity.
Defined.

(** X14.  Only the record itself is closed.  The reward and the identities are
    open objects: what validation accepts keeps, inside them, whatever the
    candidate held under a key their schema does not declare -- casting
    validation strips unknown keys at the top and nowhere else. *)
Theorem nested_objects_are_open host flag m sch (strict : bool) props f c o k out :
  In sch [BountySchema; BountyClaimSchema] ->
  In (f, c) (kinds_of sch) ->
  In c object_kinds ->
  get_prop (VObj props) f = VObj o ->
  ~ In k (declared (kind_schema c)) ->
  validate host flag m sch strict (VObj props) = Ok out ->
  get_prop (get_prop out f) k = get_prop (VObj o) k.
Proof.
  intros Hsch Hin Hc Hf Hk Hv.
  pose proof (kinds_of_table sch Hsch) as Htab.
  apply validate_Ok in Hv as [-> _]. destruct strict.
  - now rewrite Hf.
  - destruct (record_cast_output host m sch _ props Htab) as (o' & -> & Hget & _).
    rewrite (Hget f c Hin), Hf. now apply object_kind_open.
Qed.

Lemma nested_objects_are_open_witness :
  exists out,
    validate inert_host false (Some PATCH) BountySchema false (VObj bounty_with_reward_note)
    = Ok out
    /\ get_prop (get_prop out "reward") "note" = VStr "paid on merge".
Proof.
  eexists. split; [vm_compute; reflexivity|].
  apply (nested_objects_are_open inert_host false (Some PATCH) BountySchema false
           bounty_with_reward_note "reward" PolicyReward
           [("amount", VNum 100%float); ("currency", VStr "BANK");
            ("scale", VNum PrimFloat.two); ("amountWithoutScale", VNum PrimFloat.one);
            ("note", VStr "paid on merge")] "note").
  - simpl. auto.
  - simpl. auto 10.
  - simpl. auto.
  - reflexivity.
  - simpl. intuition discriminate.
  - vm_compute. reflexivity.
Defined.

(** X15.  What validation resolves with for a record from JSON has declared
    keys only, and holds a value under each of them: assigning the result
    over a stored record never stores [undefined]. *)
Theorem validated_holds_values host flag m sch (strict : bool) props out k :
  In sch [BountySchema; BountyClaimSchema] ->
  holds_values props = true ->
  validate host flag m sch strict (VObj props) = Ok out ->
  In k (own_keys out) ->
  In k (declared sch) /\ get_prop out k <> VUndefined.
Proof.
  intros Hsch Hv Hok Hk.
  pose proof (kinds_of_table sch Hsch) as Htab.
  destruct (record_table_shape sch _ Htab) as (Hshape & _ & _ & _ & Hstrip).
  apply validate_Ok in Hok as [Hout Hnil]. split.
  - apply (record_strict_nil flag m sch _ out Htab) in Hnil.
    rewrite (kinds_of_declared sch Hsch).
    destruct out; try destruct Hk.
    apply record_accepts_object in Hnil as [Hkeys _]. auto.
  - destruct strict; subst out; [now apply holds_values_get|].
    pose proof (cast_object_eq host m (spec_of sch) (fields_of sch) props) as Heq.
    rewrite <- Hshape in Heq. rewrite Heq, Hstrip in *.
    now apply loop_holds_values.
Qed.

Lemma validated_holds_values_witness :
  exists out,
    validate inert_host false (Some POST) BountySchema false (VObj bounty_with_extra_key)
    = Ok out
    /\ In "title" (own_keys out)
    /\ get_prop out "title" <> VUndefined.
Proof.
  eexists. split; [vm_compute; reflexivity|].
  assert (Hk : In "title"
                 (own_keys (fst (cast inert_host (Some POST) BountySchema
                                   (VObj bounty_with_extra_key))))).
  { vm_compute. tauto. }
  split; [exact Hk|].
  apply (validated_holds_values inert_host false (Some POST) BountySchema false
           bounty_with_extra_key _ "title").
  - simpl. auto.
  - reflexivity.
  - vm_compute. reflexivity.
  - exact Hk.
Defined.

(** X16.  The two validators report nothing but the type check, the
    enumeration, [defined], [required], [min], the two composite tests (both
    named [is-optional]) and [noUnknown]; and [noUnknown] is reported at the
    root only, never for a key inside a reward, an identity or a history
    entry. *)
Theorem report_vocabulary host flag m sch (strict : bool) v e :
  In sch [BountySchema; BountyClaimSchema] ->
  In e (errors_of (validate host flag m sch strict v)) ->
  In (e_type e)
     ["typeError"; "oneOf"; "defined"; "required"; "min"; "is-optional"; "noUnknown"]
  /\ (e_type e = "noUnknown" -> e_path e = []).
Proof.
  intros Hsch He.
  assert (Hin : In e (validate_at flag m sch []
                        (if strict then v else fst (cast host m sch v)))).
  { revert He. unfold validate.
    destruct (validate_at flag m sch [] (if strict then v else fst (cast host m sch v)));
      [intros [] | auto]. }
  clear He. split.
  - apply validate_at_types in Hin. revert Hin. generalize (e_type e). intros t Ht.
    destruct Hsch as [<-|[<-|[]]]; simpl in Ht; simpl; intuition.
  - intros Hty.
    destruct (record_table_shape sch _ (kinds_of_table sch Hsch)) as (Hshape & _).
    rewrite Hshape, validate_at_eq, <- Hshape, in_app_iff in Hin.
    destruct Hin as [Hin|Hin]; [now apply own_errors_path in Hin|exfalso].
    destruct (isObject _); [|destruct Hin].
    apply in_flat_map in Hin as (kf & Hkf & Hin).
    apply validate_at_types in Hin. rewrite Hty in Hin.
    destruct Hsch as [<-|[<-|[]]]; simpl in Hkf;
      repeat (destruct Hkf as [<-|Hkf];
              [simpl in Hin; intuition discriminate|]);
      destruct Hkf.
Qed.

Lemma report_vocabulary_witness :
  In (min_at [Key "reward"; Key "amount"])
     (errors_of (validate inert_host false (Some POST) BountySchema true
                   (VObj [("reward", VObj negative_reward_props)])))
  /\ In "min"
       ["typeError"; "oneOf"; "defined"; "required"; "min"; "is-optional"; "noUnknown"].
Proof.
  assert (He : In (min_at [Key "reward"; Key "amount"])
                 (errors_of (validate inert_host false (Some POST) BountySchema true
                               (VObj [("reward", VObj negative_reward_props)])))).
  { vm_compute. tauto. }
  split; [exact He|].
  exact (proj1 (report_vocabulary inert_host false (Some POST) BountySchema true
                  (VObj [("reward", VObj negative_reward_props)])
                  (min_at [Key "reward"; Key "amount"]) (or_introl eq_refl) He)).
Defined.

(** X17.  No body.  Strict validation lets an absent body through, on Create
    as well, with both validators.  Casting validation puts the default of the
    schema in its place: on Update the record validator accepts it and
    resolves with a record that has every declared key and a value under
    none; on Create it refuses, and the claim validator refuses in every
    mode. *)
Theorem absent_body host flag m :
  (forall sch, In sch [BountySchema; BountyClaimSchema] ->
     validate host flag m sch true VUndefined = Ok VUndefined)
  /\ (exists out,
        validate host flag (Some PATCH) BountySchema false VUndefined = Ok out
        /\ own_keys out = rev (declared BountySchema)
        /\ forall k, get_prop out k = VUndefined)
  /\ (exists errs, validate host flag (Some POST) BountySchema false VUndefined = Err errs)
  /\ (exists errs, validate host flag m BountyClaimSchema false VUndefined = Err errs).
Proof.
  split; [|split; [|split]].
  - intros sch [<-|[<-|[]]]; destruct m as [[|]|]; reflexivity.
  - eexists. split; [reflexivity|]. split; [reflexivity|].
    intros k. now apply all_undefined_get.
  - eexists. reflexivity.
  - destruct m as [[|]|]; eexists; reflexivity.
Qed.

(** X18.  A body that is neither absent nor an object is refused with the one
    report of the type check at the root, by either validator and in any
    mode.  (A string is left out under casting validation, which parses it as
    JSON first.) *)
Theorem body_of_wrong_type host flag m sch (strict : bool) v :
  In sch [BountySchema; BountyClaimSchema] ->
  isObject v = false ->
  v <> VUndefined ->
  (strict = false -> is_string v = false) ->
  validate host flag m sch strict v = Err [type_error_at []].
Proof.
  intros Hsch Hobj Hv Hs.
  destruct strict.
  - destruct v; try discriminate; try contradiction;
      destruct Hsch as [<-|[<-|[]]]; destruct m as [[|]|]; reflexivity.
  - specialize (Hs eq_refl).
    destruct v; try discriminate; try contradiction;
      destruct Hsch as [<-|[<-|[]]]; destruct m as [[|]|]; reflexivity.
Qed.

Lemma body_of_wrong_type_witness :
  validate inert_host false (Some POST) BountySchema false (VArr [])
  = Err [type_error_at []].
Proof.
  apply (body_of_wrong_type inert_host false (Some POST) BountySchema false (VArr [])).
  - simpl. auto.
  - reflexivity.
  - discriminate.
  - reflexivity.
Defined.

(** *** Validation and storage *)

(** X19.  What the record validator resolves with fits the collection: apart
    from [_id], each of its keys is a path of [BountyBoardSchema], and under
    every path it holds nothing or a value of the type the path declares -- a
    string, an object, an array. *)
Theorem validated_fits_storage host flag m (strict : bool) v out :
  validate host flag m BountySchema strict v = Ok out ->
  (forall k, In k (own_keys out) -> k = "_id" \/ In k (map fst BountyBoardSchema))
  /\ (forall k t, In (k, t) BountyBoardSchema ->
        is_undefined (get_prop out k) || of_type t (get_prop out k) = true).
Proof.
  intros H. apply validate_Ok in H as [_ H].
  apply (record_strict_nil flag m BountySchema bounty_kinds) in H; [|simpl; auto].
  destruct out; try discriminate H.
  - split; [intros k []|]. intros k t _. reflexivity.
  - apply record_accepts_object in H as [Hk Hc]. split.
    + intros k Hin. specialize (Hk k Hin). simpl in Hk.
      repeat (destruct Hk as [<-|Hk]; [simpl; tauto|]). destruct Hk.
    + intros k t Hin. simpl in Hin.
      repeat (destruct Hin as [Hin|Hin];
              [injection Hin as <- <-;
               match goal with
               | |- context [get_prop _ ?k] =>
                   match eval cbv in (lookup k bounty_kinds) with
                   | Some ?c =>
                       apply (kind_ok_typed flag m c); apply Hc; simpl; tauto
                   end
               end|]).
      destruct Hin.
Qed.

Lemma validated_fits_storage_witness :
  validate inert_host false (Some POST) BountySchema true (VObj posted_bounty_props)
  = Ok (VObj posted_bounty_props)
  /\ of_type Object_ (get_prop (VObj posted_bounty_props) "reward") = true.
Proof.
  assert (Hok : validate inert_host false (Some POST) BountySchema true
                  (VObj posted_bounty_props) = Ok (VObj posted_bounty_props)).
  { vm_compute. reflexivity. }
  split; [exact Hok|].
  exact (proj2 (validated_fits_storage inert_host false (Some POST) true
                  (VObj posted_bounty_props) (VObj posted_bounty_props) Hok)
           "reward" Object_ (or_intror (or_intror (or_intror (or_intror
              (or_introl eq_refl)))))).
Defined.
